(** * VizFlow: multi-format ingestion dispatcher, processors and export formatter

    A shallow embedding of the JavaScript sources

    - [backend/processors/index.js]          (registry, [getProcessor], [processFile])
    - [backend/processors/excelProcessor.js] (Excel rows to records)
    - [backend/processors/pdfProcessor.js]   (three text heuristics)
    - [backend/processors/csvProcessor.js], [xmlProcessor.js], [imageProcessor.js]
    - the export utility module             ([flattenObject], [exportToCSV], ...)
    - the validation utility module         ([sanitizeData])
    - [backend/routes/errors.js]             (PATCH /api/errors/:id/status, the list route)
    - [backend/routes/customers.js]          (the list route)
    - the upload route (POST /file) and the two download routes

    together with the properties the specification states about them.

    Modelling conventions.
    - A JavaScript value is a [jsval]: the data values [undefined], [null],
      booleans, numbers, strings, dates, arrays and plain objects.  An
      object is the list of its own properties in the order in which
      [Object.keys], [for..in] and spread enumerate them: the keys that
      are array indices first, in ascending order, then the other keys
      in the order of their creation.  Numbers are the integers that a
      double holds exactly and prints in full (magnitude below 2^53),
      strings are sequences of Latin-1 code units.
    - An object that the code builds by assignments [o[k] = v] is a
      [built]: its own properties and its prototype, which an assignment
      to the key [__proto__] can replace.
    - A computation either returns, throws an [Error], or never settles:
      [outcome].  Code that reads the clock or [Math.random] threads a
      [world] of read counters over oracles supplied by the environment.
    - Third-party libraries whose result is not computed by the
      repository (spreadsheet and PDF parsers, OCR, CSV writer,
      [JSON.stringify]) are fields of one class per processor. *)

From Stdlib Require Import ZArith List String Ascii Bool Arith Lia DecimalString DecimalPos.
Import ListNotations.
Local Open Scope list_scope.
Local Open Scope string_scope.

(* ================================================================== *)
(** * JavaScript values and the operations the sources use on them     *)
(* ================================================================== *)

Module JS.

Unset Elimination Schemes.
Inductive jsval : Type :=
| JUndefined
| JNull
| JBool (b : bool)
| JNum (n : Z)
| JStr (s : string)
| JDate (ms : Z)
| JArr (items : list jsval)
| JObj (props : list (string * jsval)).
Set Elimination Schemes.

(** The property list of an object literal. *)
Definition object := list (string * jsval).

(** Induction on values, with the hypothesis available for every element
    of an array and every property value of an object. *)
Section Induction.
Variable P : jsval -> Prop.
Hypothesis case_undefined : P JUndefined.
Hypothesis case_null : P JNull.
Hypothesis case_bool : forall b, P (JBool b).
Hypothesis case_num : forall n, P (JNum n).
Hypothesis case_str : forall s, P (JStr s).
Hypothesis case_date : forall ms, P (JDate ms).
Hypothesis case_arr : forall items, Forall P items -> P (JArr items).
Hypothesis case_obj : forall props, Forall (fun kv => P (snd kv)) props -> P (JObj props).

Fixpoint jsval_induction (v : jsval) : P v :=
  match v with
  | JUndefined => case_undefined
  | JNull => case_null
  | JBool b => case_bool b
  | JNum n => case_num n
  | JStr s => case_str s
  | JDate ms => case_date ms
  | JArr items =>
      case_arr items
        ((fix each (l : list jsval) : Forall P l :=
            match l with
            | [] => Forall_nil P
            | x :: r => Forall_cons x (jsval_induction x) (each r)
            end) items)
  | JObj props =>
      case_obj props
        ((fix each (l : list (string * jsval)) : Forall (fun kv => P (snd kv)) l :=
            match l with
            | [] => Forall_nil _
            | kv :: r => Forall_cons kv (jsval_induction (snd kv)) (each r)
            end) props)
  end.
End Induction.

(** Thrown values: every [throw] in the sources throws an [Error]
    object, and the engine itself throws [TypeError]s. *)
Inductive errkind := PlainError | TypeError.
Record jserror := mkError { ekind : errkind; emessage : string }.

Inductive outcome (A : Type) : Type :=
| Ok (a : A)
| Throw (e : jserror)
| Hang.
Arguments Ok {A} a.
Arguments Throw {A} e.
Arguments Hang {A}.

Definition bindO {A B} (m : outcome A) (f : A -> outcome B) : outcome B :=
  match m with
  | Ok a => f a
  | Throw e => Throw e
  | Hang => Hang
  end.

(** [try { m } catch (error) { h error }] *)
Definition try_catch {A} (m : outcome A) (h : jserror -> outcome A) : outcome A :=
  match m with
  | Ok a => Ok a
  | Throw e => h e
  | Hang => Hang
  end.

(** [throw new Error(msg)] *)
Definition throw_error {A} (msg : string) : outcome A :=
  Throw (mkError PlainError msg).
Definition throw_type_error {A} (msg : string) : outcome A :=
  Throw (mkError TypeError msg).

(** ** Characters and strings *)

Definition code (c : ascii) : nat := nat_of_ascii c.

Definition in_range (lo hi : nat) (c : ascii) : bool :=
  (lo <=? code c)%nat && (code c <=? hi)%nat.

(** [String.prototype.toLowerCase] on Latin-1 code units: A-Z and the
    accented capitals U+00C0..U+00DE (without the multiplication sign). *)
Definition lower_char (c : ascii) : ascii :=
  if in_range 65 90 c then ascii_of_nat (code c + 32)
  else if in_range 192 222 c && negb (code c =? 215)%nat then ascii_of_nat (code c + 32)
  else c.

Fixpoint toLowerCase (s : string) : string :=
  match s with
  | EmptyString => EmptyString
  | String c r => String (lower_char c) (toLowerCase r)
  end.

(** White space and line terminators ([\s], [trim]): TAB, LF, VT, FF,
    CR, SPACE and NBSP. *)
Definition is_space (c : ascii) : bool :=
  in_range 9 13 c || (code c =? 32)%nat || (code c =? 160)%nat.

Definition is_line_terminator (c : ascii) : bool :=
  (code c =? 10)%nat || (code c =? 13)%nat.

(** [\w] *)
Definition is_word (c : ascii) : bool :=
  in_range 97 122 c || in_range 65 90 c || in_range 48 57 c || (code c =? 95)%nat.

Definition is_digit (c : ascii) : bool := in_range 48 57 c.

Fixpoint drop_while (p : ascii -> bool) (l : list ascii) : list ascii :=
  match l with
  | [] => []
  | c :: r => if p c then drop_while p r else l
  end.

Definition chars := list_ascii_of_string.
Definition str := string_of_list_ascii.

(** [String.prototype.trim] *)
Definition trim (s : string) : string :=
  str (rev (drop_while is_space (rev (drop_while is_space (chars s))))).

Definition strlen (s : string) : nat := String.length s.

(** [s.lastIndexOf('.')]: the index of the last dot, [None] for -1. *)
Fixpoint lastIndexOf_from (c : ascii) (l : list ascii) (i : nat) (last : option nat)
  : option nat :=
  match l with
  | [] => last
  | d :: r => lastIndexOf_from c r (S i) (if Ascii.eqb d c then Some i else last)
  end.

Definition lastIndexOf (c : ascii) (s : string) : option nat :=
  lastIndexOf_from c (chars s) 0 None.

(** [s.substring(i)] for an index that may be -1: negative indices are
    clamped to 0. *)
Definition substring_from (i : option nat) (s : string) : string :=
  match i with
  | None => s
  | Some n => str (skipn n (chars s))
  end.

(** [s.includes(t)] and [s.startsWith(t)] *)
Fixpoint starts_with (t s : list ascii) : bool :=
  match t, s with
  | [], _ => true
  | _ :: _, [] => false
  | a :: t', b :: s' => Ascii.eqb a b && starts_with t' s'
  end.

Fixpoint includes_list (t s : list ascii) : bool :=
  starts_with t s ||
  match s with
  | [] => false
  | _ :: s' => includes_list t s'
  end.

Definition startsWith (s t : string) : bool := starts_with (chars t) (chars s).
Definition includes (s t : string) : bool := includes_list (chars t) (chars s).

(** [s.split(sep)] for a one-character separator. *)
Fixpoint split_chars (sep : ascii) (l : list ascii) (cur : list ascii) : list string :=
  match l with
  | [] => [str (rev cur)]
  | c :: r =>
      if Ascii.eqb c sep then str (rev cur) :: split_chars sep r []
      else split_chars sep r (c :: cur)
  end.

Definition split (sep : ascii) (s : string) : list string :=
  split_chars sep (chars s) [].

Fixpoint join_strings (sep : string) (l : list string) : string :=
  match l with
  | [] => ""
  | [x] => x
  | x :: r => x ++ sep ++ join_strings sep r
  end.

(** Number to string, decimal. *)
Definition num_to_string (n : Z) : string :=
  NilEmpty.string_of_int (Z.to_int n).

Definition nat_to_string (n : nat) : string := num_to_string (Z.of_nat n).

(** ** Truthiness, type tests, strict equality with primitives *)

Definition truthy (v : jsval) : bool :=
  match v with
  | JUndefined | JNull => false
  | JBool b => b
  | JNum n => negb (n =? 0)%Z
  | JStr s => negb (s =? "")
  | JDate _ | JArr _ | JObj _ => true
  end.

(** [a || b] *)
Definition or_else (a b : jsval) : jsval := if truthy a then a else b.

Definition isArray (v : jsval) : bool :=
  match v with JArr _ => true | _ => false end.

Definition isDate (v : jsval) : bool :=
  match v with JDate _ => true | _ => false end.

(** [typeof v === 'object'] (which [null] satisfies too). *)
Definition typeof_object (v : jsval) : bool :=
  match v with
  | JNull | JDate _ | JArr _ | JObj _ => true
  | _ => false
  end.

Definition is_null (v : jsval) : bool :=
  match v with JNull => true | _ => false end.
Definition is_undefined (v : jsval) : bool :=
  match v with JUndefined => true | _ => false end.
Definition is_empty_string (v : jsval) : bool :=
  match v with JStr "" => true | _ => false end.

(** ** Objects as ordered property lists *)

Fixpoint lookup (k : string) (o : object) : option jsval :=
  match o with
  | [] => None
  | (k', v) :: r => if k' =? k then Some v else lookup k r
  end.

Definition has_own (k : string) (o : object) : bool :=
  match lookup k o with Some _ => true | None => false end.

(** The value of a run of decimal digits. *)
Definition digits_value (l : list ascii) : N :=
  fold_left (fun n c => (10 * n + N.of_nat (code c - 48))%N) l 0%N.

(** A key that is an array index: the canonical decimal form of an
    integer from 0 to 2^32 - 2. *)
Definition index_of (k : string) : option N :=
  match chars k with
  | [] => None
  | c :: r =>
      if forallb is_digit (c :: r)
         && (negb (code c =? 48)%nat || (List.length r =? 0)%nat)
         && (List.length r <? 10)%nat
         && (digits_value (c :: r) <=? 4294967294)%N
      then Some (digits_value (c :: r))
      else None
  end.

(** Whether the engine lists a new key [k] before an existing key [k']:
    array indices in ascending order, and before all other keys. *)
Definition goes_before (k k' : string) : bool :=
  match index_of k, index_of k' with
  | Some i, Some j => (i <? j)%N
  | Some _, None => true
  | None, _ => false
  end.

(** A new property, at its place in the enumeration. *)
Fixpoint insert (k : string) (v : jsval) (o : object) : object :=
  match o with
  | [] => [(k, v)]
  | (k', v') :: r => if goes_before k k' then (k, v) :: o else (k', v') :: insert k v r
  end.

(** A new value for an existing property. *)
Fixpoint replace (k : string) (v : jsval) (o : object) : object :=
  match o with
  | [] => []
  | (k', v') :: r => if k' =? k then (k', v) :: r else (k', v') :: replace k v r
  end.

(** The own property [k] of [o] defined as [v], as an object literal and
    a spread define it: an existing key keeps its place, a new key is
    listed after the keys that go before it. *)
Definition set (k : string) (v : jsval) (o : object) : object :=
  if has_own k o then replace k v o else insert k v o.

(** The keys of a list are in the order of enumeration: no key goes
    before a key listed earlier. *)
Fixpoint ordered (l : list string) : Prop :=
  match l with
  | [] => True
  | a :: r => Forall (fun b => goes_before b a = false) r /\ ordered r
  end.

(** The spread [{...target, ...source}] for a source that is already a
    property list. *)
Definition assign (target source : object) : object :=
  fold_left (fun acc kv => set (fst kv) (snd kv) acc) source target.

(** An object literal [{k1: v1, ..., kn: vn}], evaluated left to right. *)
Definition literal (kvs : list (string * jsval)) : object := assign [] kvs.

Definition keys (o : object) : list string := map fst o.
Definition values (o : object) : list jsval := map snd o.

Fixpoint indexed_from {A} (i : nat) (l : list A) : list (string * A) :=
  match l with
  | [] => []
  | x :: r => (nat_to_string i, x) :: indexed_from (S i) r
  end.

(** The own enumerable properties of a value, as [for..in], object
    spread and [Object.keys] see them: the entries of an object, the
    indices of an array or string, nothing for the other values. *)
Definition own_props (v : jsval) : object :=
  match v with
  | JObj o => o
  | JArr xs => indexed_from 0 xs
  | JStr s => indexed_from 0 (map (fun c => JStr (String c "")) (chars s))
  | _ => []
  end.

(** [{...target, ...v}] *)
Definition spread (target : object) (v : jsval) : object :=
  assign target (own_props v).

(** [v[k]] / [v.k] for a data property [k]; reading a property of
    [null] or [undefined] is a [TypeError]. *)
Definition get (v : jsval) (k : string) : outcome jsval :=
  match v with
  | JUndefined | JNull =>
      throw_type_error ("Cannot read properties of " ++
                        (if is_null v then "null" else "undefined") ++
                        " (reading '" ++ k ++ "')")
  | JArr xs =>
      if k =? "length" then Ok (JNum (Z.of_nat (List.length xs)))
      else Ok (match lookup k (own_props v) with Some x => x | None => JUndefined end)
  | JStr s =>
      if k =? "length" then Ok (JNum (Z.of_nat (strlen s)))
      else Ok (match lookup k (own_props v) with Some x => x | None => JUndefined end)
  | JObj o => Ok (match lookup k o with Some x => x | None => JUndefined end)
  | _ => Ok JUndefined
  end.

(** [o.k] for an object known to be one. *)
Definition field (o : object) (k : string) : jsval :=
  match lookup k o with Some x => x | None => JUndefined end.

(** ** Objects built by assignment *)

(** The prototype of an object the code has created as [{}]: still
    [Object.prototype], or what an assignment to [__proto__] has put in
    its place, [null] or a value that is an object. *)
Inductive proto :=
| ObjectPrototype
| NoPrototype
| Inherits (v : jsval).

Record built := mkBuilt {
  own : object;
  prototype : proto
}.

(** [{}] *)
Definition fresh : built := mkBuilt [] ObjectPrototype.

(** Whether the assignment [b.__proto__ = v] finds the accessor of
    [Object.prototype]: [b] has no own property of that name, and
    neither has an object on the way up to [Object.prototype]. *)
Definition reaches_setter (b : built) : bool :=
  negb (has_own "__proto__" (own b)) &&
  match prototype b with
  | ObjectPrototype => true
  | NoPrototype => false
  | Inherits (JObj o) => negb (has_own "__proto__" o)
  | Inherits _ => true
  end.

(** The assignment [b[k] = v].  For every key but [__proto__] it defines
    the own property.  For [__proto__] it runs the accessor when that is
    found, which replaces the prototype by [v] when [v] is an object or
    [null] and does nothing otherwise, no own property being stored. *)
Definition put (k : string) (v : jsval) (b : built) : built :=
  if (k =? "__proto__") && reaches_setter b then
    match v with
    | JNull => mkBuilt (own b) NoPrototype
    | JDate _ | JArr _ | JObj _ => mkBuilt (own b) (Inherits v)
    | _ => b
    end
  else mkBuilt (set k v (own b)) (prototype b).

(** [Object.assign(target, source)] for a source given by its own
    properties: one assignment per property, in their order. *)
Definition put_all (target : built) (source : object) : built :=
  fold_left (fun acc kv => put (fst kv) (snd kv) acc) source target.

(** ** Deterministic built-ins *)

(** [Number.prototype.toString(36)] of an integer. *)
Definition digit36 (d : Z) : ascii :=
  if (d <? 10)%Z then ascii_of_nat (48 + Z.to_nat d) else ascii_of_nat (87 + Z.to_nat d).

Fixpoint radix36_digits (fuel : nat) (n : Z) (acc : string) : string :=
  match fuel with
  | O => acc
  | S fuel' =>
      let acc' := String (digit36 (n mod 36)) acc in
      if (n <? 36)%Z then acc' else radix36_digits fuel' (n / 36) acc'
  end.

Definition radix36 (n : Z) : string :=
  let digits m := radix36_digits (S (Z.to_nat (Z.log2 m))) m "" in
  if (n <? 0)%Z then "-" ++ digits (- n)%Z else digits n.

(** [Date.prototype.toISOString] of a valid date: the proleptic
    Gregorian date and the time of day, in UTC. *)
Fixpoint pad_left (fuel width : nat) (s : string) : string :=
  match fuel with
  | O => s
  | S fuel' => if (strlen s <? width)%nat then pad_left fuel' width ("0" ++ s) else s
  end.

Definition padded (width : nat) (n : Z) : string :=
  pad_left width width (num_to_string n).

(** Year, month and day of a day count since 1970-01-01. *)
Definition civil_from_days (days : Z) : Z * Z * Z :=
  let z := (days + 719468)%Z in
  let era := (z / 146097)%Z in
  let doe := (z - era * 146097)%Z in
  let yoe := ((doe - doe / 1460 + doe / 36524 - doe / 146096) / 365)%Z in
  let doy := (doe - (365 * yoe + yoe / 4 - yoe / 100))%Z in
  let mp := ((5 * doy + 2) / 153)%Z in
  let d := (doy - (153 * mp + 2) / 5 + 1)%Z in
  let mo := (if (mp <? 10)%Z then mp + 3 else mp - 9)%Z in
  let y := (yoe + era * 400 + (if (mo <=? 2)%Z then 1 else 0))%Z in
  (y, mo, d).

Definition date_toISOString (ms : Z) : string :=
  let '(y, mo, d) := civil_from_days (ms / 86400000) in
  let t := (ms mod 86400000)%Z in
  let year :=
    if ((0 <=? y) && (y <=? 9999))%Z then padded 4 y
    else if (y <? 0)%Z then "-" ++ padded 6 (- y)%Z
    else "+" ++ padded 6 y in
  year ++ "-" ++ padded 2 mo ++ "-" ++ padded 2 d ++ "T" ++
  padded 2 (t / 3600000) ++ ":" ++ padded 2 (t / 60000 mod 60) ++ ":" ++
  padded 2 (t / 1000 mod 60) ++ "." ++ padded 3 (t mod 1000) ++ "Z".

(** ** The environment *)

(** Oracles and built-ins that depend on the machine the code runs on. *)
Class Runtime := {
  (** [Date.prototype.toString], which prints in the local time zone. *)
  date_toString : Z -> string;
  (** The k-th reading of the system clock (epoch milliseconds) and the
      k-th [Math.random().toString(36)]. *)
  clock : nat -> Z;
  random36 : nat -> string
}.

(** How many times the clock and the random generator have been read. *)
Record world := mkWorld { ticks : nat; draws : nat }.

Definition M (A : Type) : Type := world -> outcome A * world.

Definition ret {A} (a : A) : M A := fun w => (Ok a, w).

Definition bind {A B} (m : M A) (f : A -> M B) : M B :=
  fun w =>
    match m w with
    | (Ok a, w') => f a w'
    | (Throw e, w') => (Throw e, w')
    | (Hang, w') => (Hang, w')
    end.

Definition lift {A} (o : outcome A) : M A := fun w => (o, w).

(** [try { m } catch (error) { h error }] for effectful code. *)
Definition try_catchM {A} (m : M A) (h : jserror -> M A) : M A :=
  fun w =>
    match m w with
    | (Throw e, w') => h e w'
    | r => r
    end.

(** [Date.now()] *)
Definition Date_now `{Runtime} : M Z :=
  fun w => (Ok (clock (ticks w)), mkWorld (S (ticks w)) (draws w)).

(** [new Date()] *)
Definition new_Date `{Runtime} : M jsval :=
  bind Date_now (fun t => ret (JDate t)).

(** [Math.random().toString(36)] *)
Definition random_toString36 `{Runtime} : M string :=
  fun w => (Ok (random36 (draws w)), mkWorld (ticks w) (S (draws w))).

(** [s.substr(n)] *)
Definition substr (n : nat) (s : string) : string := str (skipn n (chars s)).

(** [generateRecordId()], which every processor file defines the same way:
    [Date.now().toString(36) + Math.random().toString(36).substr(2)]. *)
Definition generateRecordId `{Runtime} : M string :=
  bind Date_now (fun t =>
  bind random_toString36 (fun r =>
  ret (radix36 t ++ substr 2 r))).

(** ** Conversion to string *)

(** [String(v)] / template-literal interpolation. *)
Fixpoint to_string `{Runtime} (v : jsval) : string :=
  match v with
  | JUndefined => "undefined"
  | JNull => "null"
  | JBool true => "true"
  | JBool false => "false"
  | JNum n => num_to_string n
  | JStr s => s
  | JDate ms => date_toString ms
  | JArr xs =>
      join_strings ","
        (map (fun x => match x with
                       | JUndefined | JNull => ""
                       | _ => to_string x
                       end) xs)
  | JObj _ => "[object Object]"
  end.

(** [xs.join(sep)]: [null] and [undefined] elements print as nothing. *)
Definition join `{Runtime} (sep : string) (xs : list jsval) : string :=
  join_strings sep
    (map (fun x => match x with
                   | JUndefined | JNull => ""
                   | _ => to_string x
                   end) xs).

End JS.

Declare Scope js_scope.
Notation "x <- m ;; k" := (JS.bind m (fun x => k))
  (at level 61, m at next level, right associativity) : js_scope.
Notation "m ;;; k" := (JS.bind m (fun _ => k))
  (at level 61, right associativity) : js_scope.

(* ================================================================== *)
(** * The processor registry and dispatcher (processors/index.js)      *)
(* ================================================================== *)

Module Registry.
Import JS.
Local Open Scope js_scope.

(** The five processor modules the registry requires. *)
Inductive processor := csvProcessor | excelProcessor | xmlProcessor
                     | pdfProcessor | imageProcessor.

Definition SUPPORTED_FORMATS : list (string * processor) :=
  [ ("text/csv", csvProcessor);
    ("application/csv", csvProcessor);
    ("application/vnd.openxmlformats-officedocument.spreadsheetml.sheet", excelProcessor);
    ("application/vnd.ms-excel", excelProcessor);
    ("application/xml", xmlProcessor);
    ("text/xml", xmlProcessor);
    ("application/pdf", pdfProcessor);
    ("image/jpeg", imageProcessor);
    ("image/jpg", imageProcessor);
    ("image/png", imageProcessor);
    ("image/gif", imageProcessor);
    ("image/webp", imageProcessor);
    ("image/tiff", imageProcessor);
    ("image/bmp", imageProcessor) ].

Definition EXTENSION_MAP : list (string * string) :=
  [ (".csv", "text/csv");
    (".xlsx", "application/vnd.openxmlformats-officedocument.spreadsheetml.sheet");
    (".xls", "application/vnd.ms-excel");
    (".xml", "application/xml");
    (".pdf", "application/pdf");
    (".jpg", "image/jpeg");
    (".jpeg", "image/jpeg");
    (".png", "image/png");
    (".gif", "image/gif");
    (".webp", "image/webp");
    (".tiff", "image/tiff");
    (".bmp", "image/bmp") ].

(** Both tables are object literals, so a key that is not an entry
    still resolves when it names a member of [Object.prototype]. *)
Definition Object_prototype_members : list string :=
  [ "constructor"; "__defineGetter__"; "__defineSetter__"; "hasOwnProperty";
    "__lookupGetter__"; "__lookupSetter__"; "isPrototypeOf";
    "propertyIsEnumerable"; "toString"; "valueOf"; "__proto__";
    "toLocaleString" ].

Inductive slot (A : Type) : Type :=
| Own (a : A)
| Inherited (name : string)
| Missing.
Arguments Own {A} a.
Arguments Inherited {A} name.
Arguments Missing {A}.

Fixpoint assoc {A} (k : string) (tbl : list (string * A)) : option A :=
  match tbl with
  | [] => None
  | (k', a) :: r => if k' =? k then Some a else assoc k r
  end.

(** [table[key]] *)
Definition table_get {A} (tbl : list (string * A)) (key : string) : slot A :=
  match assoc key tbl with
  | Some a => Own a
  | None =>
      if existsb (String.eqb key) Object_prototype_members
      then Inherited key else Missing
  end.

(** What [getProcessor] hands back: one of the five processors, or the
    prototype member an unlisted MIME string happened to name. *)
Inductive handler :=
| Proc (p : processor)
| ProtoMember (name : string).

(** [SUPPORTED_FORMATS[mimeType]]; a [null] or [undefined] MIME type
    names no property. *)
Definition supported (mimeType : option string) : option handler :=
  match mimeType with
  | None => None
  | Some m =>
      match table_get SUPPORTED_FORMATS m with
      | Own p => Some (Proc p)
      | Inherited n => Some (ProtoMember n)
      | Missing => None
      end
  end.

(** [filename.toLowerCase().substring(filename.lastIndexOf('.'))] *)
Definition extension (filename : string) : string :=
  substring_from (lastIndexOf "."%char filename) (toLowerCase filename).

Definition nonempty (s : option string) : option string :=
  match s with
  | Some x => if x =? "" then None else Some x
  | None => None
  end.

(** The [switch] on the lower-cased label. *)
Definition by_label (label : string) : option processor :=
  if label =? "csv" then Some csvProcessor
  else if label =? "excel" then Some excelProcessor
  else if label =? "xml" then Some xmlProcessor
  else if label =? "pdf" then Some pdfProcessor
  else if label =? "image" then Some imageProcessor
  else None.

(** The case labels of that [switch] and the processor each returns. *)
Definition canonical_labels : list (string * processor) :=
  [ ("csv", csvProcessor); ("excel", excelProcessor); ("xml", xmlProcessor);
    ("pdf", pdfProcessor); ("image", imageProcessor) ].

(** The detection that follows the [switch]: MIME table first, file
    extension second, [null] last. *)
Definition detect_processor (mimeType filename : option string) : option handler :=
  match supported mimeType with
  | Some h => Some h
  | None =>
      match nonempty filename with
      | Some name =>
          match table_get EXTENSION_MAP (extension name) with
          | Own mappedMimeType => supported (Some mappedMimeType)
          | Inherited _ =>
              (* the member is a function or object; its string form is
                 no key of SUPPORTED_FORMATS *)
              None
          | Missing => None
          end
      | None => None
      end
  end.

(** [getProcessor(mimeType, filename, specifiedType = null)].  A truthy
    [specifiedType] that is not a string has no [toLowerCase]. *)
Definition getProcessor (mimeType filename : option string) (specifiedType : jsval)
  : outcome (option handler) :=
  if truthy specifiedType then
    match specifiedType with
    | JStr s =>
        match by_label (toLowerCase s) with
        | Some p => Ok (Some (Proc p))
        | None => Ok (detect_processor mimeType filename)
        end
    | _ => throw_type_error "specifiedType.toLowerCase is not a function"
    end
  else Ok (detect_processor mimeType filename).

(** [isSupported] *)
Definition isSupported (mimeType filename : option string) (specifiedType : jsval)
  : outcome bool :=
  bindO (getProcessor mimeType filename specifiedType)
        (fun p => Ok (match p with Some _ => true | None => false end)).

(** [detectFileType(mimeType, filename)] *)
Definition detectFileType (mimeType filename : option string) : string :=
  let by_extension :=
    match nonempty filename with
    | Some name =>
        let ext := extension name in
        if ext =? ".csv" then "csv"
        else if existsb (String.eqb ext) [".xlsx"; ".xls"] then "excel"
        else if ext =? ".xml" then "xml"
        else if ext =? ".pdf" then "pdf"
        else if existsb (String.eqb ext)
                  [".jpg"; ".jpeg"; ".png"; ".gif"; ".webp"; ".tiff"; ".bmp"]
             then "image"
        else "unknown"
    | None => "unknown"
    end in
  match nonempty mimeType, supported mimeType with
  | Some m, Some _ =>
      if includes m "csv" then "csv"
      else if includes m "spreadsheet" || includes m "excel" then "excel"
      else if includes m "xml" then "xml"
      else if includes m "pdf" then "pdf"
      else if startsWith m "image/" then "image"
      else by_extension
  | _, _ => by_extension
  end.

(** The multer file object. *)
Record upload := mkUpload {
  originalname : string;
  mimetype : string;
  size : Z;
  path : option string;
  buffer : option string
}.

(** The envelope [processFile] returns. *)
Record envelope := mkEnvelope {
  success : bool;
  data : jsval;
  metadata : object;
  errors : jsval
}.

(** [metadata.processedAt.getTime()] *)
Definition getTime (v : jsval) : outcome Z :=
  match v with
  | JDate ms => Ok ms
  | JUndefined =>
      throw_type_error "Cannot read properties of undefined (reading 'getTime')"
  | JNull =>
      throw_type_error "Cannot read properties of null (reading 'getTime')"
  | _ => throw_type_error "metadata.processedAt.getTime is not a function"
  end.

Section Dispatch.
Context `{Runtime}.

(** [process(file, metadata)] of each of the five processors. *)
Variable process : processor -> upload -> object -> M jsval.

(** [processor.process(file, metadata)]; a prototype member has no
    [process] method. *)
Definition invoke (h : handler) (file : upload) (metadata : object) : M jsval :=
  match h with
  | Proc p => process p file metadata
  | ProtoMember _ => lift (throw_type_error "processor.process is not a function")
  end.

Definition ms (d : Z) : string := num_to_string d ++ "ms".

(** [processFile(file, options = {})] *)
Definition processFile (file : upload) (options : object) : M envelope :=
  let specifiedFileType := field options "specifiedFileType" in
  let mime := Some (mimetype file) in
  let name := Some (originalname file) in
  processor <- lift (getProcessor mime name specifiedFileType) ;;
  match processor with
  | None =>
      let errorMsg :=
        if truthy specifiedFileType
        then "Unsupported specified file type: " ++ to_string specifiedFileType
        else "Unsupported file format: " ++ mimetype file ++
             " (" ++ originalname file ++ ")" in
      lift (throw_error errorMsg)
  | Some processor =>
      let processorType :=
        or_else specifiedFileType (JStr (detectFileType mime name)) in
      processedAt <- new_Date ;;
      let metadata :=
        spread
          (literal [ ("originalName", JStr (originalname file));
                     ("mimeType", JStr (mimetype file));
                     ("size", JNum (size file));
                     ("processedAt", processedAt);
                     ("processor", processorType);
                     ("specifiedType", or_else specifiedFileType JNull);
                     ("detectedType", JStr (detectFileType mime name)) ])
          (JObj options) in
      try_catchM
        (startTime <- Date_now ;;
         result <- invoke processor file metadata ;;
         endTime <- Date_now ;;
         let processingTime := ms (endTime - startTime) in
         result_data <- lift (get result "data") ;;
         recordCount <-
           (if isArray result_data
            then lift (get result_data "length")
            else rc <- lift (get result "recordCount") ;; ret (or_else rc (JNum 0))) ;;
         result_metadata <- lift (get result "metadata") ;;
         result_errors <- lift (get result "errors") ;;
         ret {| success := true;
                data := or_else result_data result;
                metadata :=
                  spread
                    (set "processingTime" (JStr processingTime)
                       (set "recordCount" recordCount metadata))
                    result_metadata;
                errors := or_else result_errors (JArr []) |})
        (fun error =>
           now <- Date_now ;;
           started <- lift (getTime (field metadata "processedAt")) ;;
           timestamp <- new_Date ;;
           ret {| success := false;
                  data := JArr [];
                  metadata :=
                    set "processingTime" (JStr (ms (now - started))) metadata;
                  errors :=
                    JArr [ JObj [ ("type", JStr "processing_error");
                                  ("message", JStr (emessage error));
                                  ("timestamp", timestamp) ] ] |})
  end.

End Dispatch.

End Registry.

(* ================================================================== *)
(** * Regular expressions, as the engine runs them                     *)
(* ================================================================== *)

(** A backtracking matcher for the fragment the processors' patterns are
    written in: character classes, concatenation, alternation, greedy
    quantifiers, capturing groups and the two line assertions. *)
Module Regex.
Import JS.

Inductive re : Type :=
| Eps                          (* the empty pattern *)
| Chr (p : ascii -> bool)      (* one character out of a class *)
| Cat (a b : re)               (* ab *)
| Alt (a b : re)               (* a|b, left alternative first *)
| Rep (min : nat) (a : re)     (* a{min,}, greedy *)
| Grp (i : nat) (a : re)       (* the i-th capturing group *)
| Bol (multiline : bool)       (* ^ *)
| Eol (multiline : bool).      (* $ *)

Definition star := Rep 0.      (* a* *)
Definition plus := Rep 1.      (* a+ *)
Definition opt (a : re) := Alt a Eps.   (* a? *)

Fixpoint seq (l : list re) : re :=
  match l with
  | [] => Eps
  | [a] => a
  | a :: r => Cat a (seq r)
  end.

(** A literal word; under the [i] flag letters match in either case. *)
Definition lit_char (ignore_case : bool) (c : ascii) : re :=
  Chr (fun d => if ignore_case then Ascii.eqb (lower_char d) (lower_char c)
                else Ascii.eqb d c).

Definition lit (ignore_case : bool) (s : string) : re :=
  seq (map (lit_char ignore_case) (chars s)).

Fixpoint alts (l : list re) : re :=
  match l with
  | [] => Chr (fun _ => false)
  | [a] => a
  | a :: r => Alt a (alts r)
  end.

(** Character classes *)
Definition one_of (s : string) (c : ascii) : bool :=
  existsb (Ascii.eqb c) (chars s).
Definition none_of (p : ascii -> bool) (c : ascii) : bool := negb (p c).
Definition either (p q : ascii -> bool) (c : ascii) : bool := p c || q c.
(** [.] without the [s] flag *)
Definition dot (c : ascii) : bool := negb (is_line_terminator c).

(** Where the matcher stands: the character just before the current
    position, the input still ahead, the position, the captures. *)
Record mstate := mkState {
  prev : option ascii;
  rest : list ascii;
  pos : nat;
  caps : list (nat * (nat * nat))
}.

Definition start_state (l : list ascii) : mstate := mkState None l 0 [].

Definition at_bol (multiline : bool) (s : mstate) : bool :=
  match prev s with
  | None => true
  | Some c => multiline && is_line_terminator c
  end.

Definition at_eol (multiline : bool) (s : mstate) : bool :=
  match rest s with
  | [] => true
  | c :: _ => multiline && is_line_terminator c
  end.

Definition close_group (i start : nat) (s : mstate) : mstate :=
  mkState (prev s) (rest s) (pos s) ((i, (start, pos s)) :: caps s).

(** The loop of a greedy quantifier [a{min,}]: [step] matches [a] once.
    Another round is tried before the continuation; a round beyond the
    minimum must consume input, so the rounds are bounded by the input
    that is left, which is what [fuel] counts. *)
Fixpoint iterate (step : mstate -> (mstate -> option mstate) -> option mstate)
         (k : mstate -> option mstate) (fuel min : nat) (s : mstate) {struct fuel}
  : option mstate :=
  match fuel with
  | O => if (min =? 0)%nat then k s else None
  | S fuel' =>
      let again :=
        step s (fun s' =>
                  if (min =? 0)%nat && (pos s' =? pos s)%nat then None
                  else iterate step k fuel' (Nat.pred min) s') in
      match again with
      | Some x => Some x
      | None => if (min =? 0)%nat then k s else None
      end
  end.

(** [m r s k]: match [r] at [s], then continue with [k]; the first
    success in backtracking order is the result. *)
Fixpoint m (r : re) (s : mstate) (k : mstate -> option mstate) {struct r}
  : option mstate :=
  match r with
  | Eps => k s
  | Chr p =>
      match rest s with
      | c :: tl => if p c then k (mkState (Some c) tl (S (pos s)) (caps s)) else None
      | [] => None
      end
  | Cat a b => m a s (fun s' => m b s' k)
  | Alt a b =>
      match m a s k with
      | Some x => Some x
      | None => m b s k
      end
  | Rep min a => iterate (m a) k (List.length (rest s) + min) min s
  | Grp i a => m a s (fun s' => k (close_group i (pos s) s'))
  | Bol ml => if at_bol ml s then k s else None
  | Eol ml => if at_eol ml s then k s else None
  end.

(** A successful match: where it starts and the state it ends in. *)
Record found := mkFound { index : nat; final : mstate }.

(** Try every start position from the current one on. *)
Fixpoint search_at (r : re) (pv : option ascii) (l : list ascii) (p : nat)
  : option found :=
  match m r (mkState pv l p []) Some with
  | Some s' => Some (mkFound p s')
  | None =>
      match l with
      | [] => None
      | c :: tl => search_at r (Some c) tl (S p)
      end
  end.

Definition search (r : re) (s : mstate) : option found :=
  search_at r (prev s) (rest s) (pos s).

Definition slice (input : list ascii) (from to : nat) : string :=
  str (firstn (to - from) (skipn from input)).

(** [match[0]] and [match[i]] *)
Definition whole (input : list ascii) (f : found) : string :=
  slice input (index f) (pos (final f)).

Fixpoint cap_lookup (i : nat) (cs : list (nat * (nat * nat))) : option (nat * nat) :=
  match cs with
  | [] => None
  | (j, span) :: r => if (j =? i)%nat then Some span else cap_lookup i r
  end.

Definition group (input : list ascii) (f : found) (i : nat) : string :=
  match cap_lookup i (caps (final f)) with
  | Some (a, b) => slice input a b
  | None => ""
  end.

(** [pattern.test(s)] for a pattern without the [g] flag. *)
Definition test (r : re) (s : string) : bool :=
  match search r (start_state (chars s)) with
  | Some _ => true
  | None => false
  end.

(** The idiom [while ((match = pattern.exec(text)) !== null) { ... }] for
    a pattern with the [g] flag: the list of matches, in order.  [exec]
    resumes at the end of the previous match, so a match that is empty
    is found again and again and the loop never ends. *)
Fixpoint exec_loop (fuel : nat) (r : re) (s : mstate) : outcome (list found) :=
  match fuel with
  | O => Hang
  | S fuel' =>
      match search r s with
      | None => Ok []
      | Some f =>
          if (pos (final f) =? index f)%nat then Hang
          else bindO (exec_loop fuel' r (final f)) (fun fs => Ok (f :: fs))
      end
  end.

Definition exec_all (r : re) (text : string) : outcome (list found) :=
  exec_loop (S (strlen text)) r (start_state (chars text)).

(** [s.replace(pattern, replacement)] for a pattern with the [g] flag
    and a replacement without [$]: after an empty match the scan moves
    on by one character. *)
Fixpoint replace_loop (fuel : nat) (r : re) (replacement : string)
         (input : list ascii) (s : mstate) : string :=
  match fuel with
  | O => str (rest s)
  | S fuel' =>
      match search r s with
      | None => str (rest s)
      | Some f =>
          let skipped := slice input (pos s) (index f) in
          let s' := final f in
          if (pos s' =? index f)%nat then
            match rest s' with
            | [] => skipped ++ replacement
            | c :: tl =>
                skipped ++ replacement ++ String c "" ++
                replace_loop fuel' r replacement input
                  (mkState (Some c) tl (S (pos s')) [])
            end
          else skipped ++ replacement ++ replace_loop fuel' r replacement input s'
      end
  end.

Definition replace_all (r : re) (replacement : string) (s : string) : string :=
  replace_loop (S (strlen s)) r replacement (chars s) (start_state (chars s)).

(** [s.split(pattern)] for a pattern without groups.  The scan (the
    position of [s]) runs over the input; a match there that ends past
    the start [p] of the current piece closes the piece, and the rest
    of the input after the last match is the last piece. *)
Fixpoint split_loop (fuel : nat) (r : re) (input : list ascii)
         (p : nat) (s : mstate) : list string :=
  match fuel with
  | O => []
  | S fuel' =>
      match rest s with
      | [] => [slice input p (pos s)]
      | c :: tl =>
          let next := mkState (Some c) tl (S (pos s)) [] in
          match m r s Some with
          | None => split_loop fuel' r input p next
          | Some s' =>
              if (pos s' =? p)%nat then split_loop fuel' r input p next
              else slice input p (pos s) ::
                   split_loop fuel' r input (pos s')
                     (mkState (prev s') (rest s') (pos s') [])
          end
      end
  end.

Definition split_re (r : re) (s : string) : list string :=
  match chars s with
  | [] => match m r (start_state []) Some with Some _ => [] | None => [""] end
  | l => split_loop (2 * List.length l + 2) r l 0 (start_state l)
  end.

(** [s'] lies [n] characters further into the same input than [s]. *)
Definition ahead (n : nat) (s s' : mstate) : Prop :=
  pos s' = pos s + n /\ List.length (rest s) = n + List.length (rest s').

(** A pattern every match of which consumes at least one character. *)
Fixpoint consuming (r : re) : bool :=
  match r with
  | Eps | Bol _ | Eol _ => false
  | Chr _ => true
  | Cat a b => consuming a || consuming b
  | Alt a b => consuming a && consuming b
  | Rep min a => (0 <? min)%nat && consuming a
  | Grp _ a => consuming a
  end.

End Regex.

(* ================================================================== *)
(** * What every processor returns                                     *)
(* ================================================================== *)

Module Contract.
Import JS.

(** [{ data, errors, metadata }] *)
Record ProcessingResult := mkResult {
  data : list jsval;
  errors : list jsval;
  metadata : object
}.

Definition to_js (r : ProcessingResult) : jsval :=
  JObj [ ("data", JArr (data r));
         ("errors", JArr (errors r));
         ("metadata", JObj (metadata r)) ].

(** [{ isValid, errors }] of the per-format validators. *)
Record validation := mkValidation { isValid : bool; messages : list string }.

Definition js_strings (l : list string) : jsval := JArr (map JStr l).

Definition js_nat (n : nat) : jsval := JNum (Z.of_nat n).

(** [file.path] and [file.buffer] as the processors test them. *)
Definition truthy_path (p : option string) : option string :=
  match p with
  | Some s => if s =? "" then None else Some s
  | None => None
  end.

(** The opening [if (file.path) ... else if (file.buffer) ... else throw]
    of the PDF and image processors. *)
Definition read_upload (readFileSync : string -> outcome string)
           (path buffer : option string) : outcome string :=
  match truthy_path path, buffer with
  | Some p, _ => readFileSync p
  | None, Some b => Ok b
  | None, None => throw_error "No file data provided"
  end.

(** The processors' outer [catch]: [throw new Error(`<label> failed: ${error.message}`)] *)
Definition rethrow {A} (label : string) (body : M A) : M A :=
  try_catchM body
    (fun error => lift (throw_error (label ++ " failed: " ++ emessage error))).

(** [xs.forEach((item, index) => ...)] over effectful bodies. *)
Fixpoint forEachM {A St} (f : A -> nat -> St -> M St) (xs : list A) (index : nat) (acc : St)
  : M St :=
  match xs with
  | [] => ret acc
  | x :: r => bind (f x index acc) (fun acc' => forEachM f r (S index) acc')
  end.

(** [xs.map(f)] over effectful bodies. *)
Fixpoint mapM {A B} (f : A -> M B) (xs : list A) : M (list B) :=
  match xs with
  | [] => ret []
  | x :: r => bind (f x) (fun y => bind (mapM f r) (fun ys => ret (y :: ys)))
  end.

End Contract.

(* ================================================================== *)
(** * The PDF processor (processors/pdfProcessor.js)                   *)
(* ================================================================== *)

Module Pdf.
Import JS Regex Contract.
Local Open Scope js_scope.

(** What the text-extraction library resolves to. *)
Record pdfData := mkPdfData {
  text : string;
  numpages : jsval;
  info : jsval
}.

(** The file system and the [pdf-parse] library. *)
Class PdfLib := {
  readFileSync : string -> outcome string;
  pdf : string -> outcome pdfData
}.

Definition LF : ascii := ascii_of_nat 10.

(** [/\s+/g] *)
Definition spaces : re := plus (Chr is_space).

(** [/^[\w\s]+\s+[\w\s]+\s+[\w\s]+/] *)
Definition tablePattern : re :=
  seq [ Bol false;
        plus (Chr (either is_word is_space)); plus (Chr is_space);
        plus (Chr (either is_word is_space)); plus (Chr is_space);
        plus (Chr (either is_word is_space)) ].

(** [/\s{2,}/] *)
Definition columnGap : re := Rep 2 (Chr is_space).

(** [text.split('\n').map(line => line.trim()).filter(line => line.length > 0)] *)
Definition nonblank_lines (text : string) : list string :=
  filter (fun line => (0 <? strlen line)%nat) (map trim (split LF text)).

(** The record of one data row: [record[header] = columns[i] || ''] for
    every header.  The cells are strings, so that a header named
    [__proto__] stores nothing and leaves the prototype as it is. *)
Fixpoint zip_row (headers : list string) (columns : list string) (i : nat)
         (record : built) : built :=
  match headers with
  | [] => record
  | header :: r =>
      let cell := match nth_error columns i with
                  | Some c => JStr c
                  | None => JUndefined
                  end in
      zip_row r columns (S i) (put header (or_else cell (JStr "")) record)
  end.

(** One turn of the [lines.forEach] of [extractTableData]; the state is
    [headers] (null until the first multi-column line) and [data]. *)
Definition table_step (st : option (list string) * list jsval) (line : string)
  : option (list string) * list jsval :=
  let '(headers, data) := st in
  if test tablePattern line then
    let columns :=
      filter (fun col => (0 <? strlen col)%nat) (split_re columnGap line) in
    match headers with
    | None =>
        if (1 <? List.length columns)%nat
        then (Some (map (fun h => replace_all spaces "_" (toLowerCase h)) columns), data)
        else st
    | Some hs =>
        if (List.length columns =? List.length hs)%nat
        then (headers, (data ++ [JObj (own (zip_row hs columns 0 fresh))])%list)
        else st
    end
  else st.

(** [extractTableData(text)] *)
Definition extractTableData (text : string) : list jsval :=
  snd (fold_left table_step (nonblank_lines text) (None, [])).

(** [/^([^:]+):\s*(.+)$/gm] *)
Definition keyValuePattern : re :=
  seq [ Bol true;
        Grp 1 (plus (Chr (none_of (one_of ":"))));
        lit false ":"; star (Chr is_space);
        Grp 2 (plus (Chr dot));
        Eol true ].

(** [extractKeyValuePairs(text)] *)
Definition extractKeyValuePairs (text : string) : outcome (list jsval) :=
  bindO (exec_all keyValuePattern text) (fun found =>
    let input := chars text in
    let matches :=
      fold_left
        (fun matches f =>
           let key := replace_all spaces "_" (toLowerCase (trim (group input f 1))) in
           let value := trim (group input f 2) in
           put key (JStr value) matches)
        found fresh in
    Ok (if (0 <? List.length (keys (own matches)))%nat then [JObj (own matches)] else [])).

(** The form pattern, flag [g]: a word, a colon, optional blanks, then
    group 2 = a run of non-blanks followed by any number of
    (blanks, run of characters that are neither blank nor colon):
    [(\w+):\s*([^\s]+(?:\s+[^\s:]+)* )] (read without the last blank). *)
Definition formPattern : re :=
  seq [ Grp 1 (plus (Chr is_word));
        lit false ":"; star (Chr is_space);
        Grp 2 (Cat (plus (Chr (none_of is_space)))
                   (star (Cat (plus (Chr is_space))
                              (plus (Chr (none_of (either is_space (one_of ":")))))))) ].

(** [extractFormData(text)] *)
Definition extractFormData (text : string) : outcome (list jsval) :=
  bindO (exec_all formPattern text) (fun found =>
    let input := chars text in
    let currentForm :=
      fold_left
        (fun currentForm f =>
           let key := replace_all spaces "_" (toLowerCase (group input f 1)) in
           let value := trim (group input f 2) in
           put key (JStr value) currentForm)
        found fresh in
    Ok (if (0 <? List.length (keys (own currentForm)))%nat
        then [JObj (own currentForm)] else [])).

(** [extractDataFromPDF(pdfData)] *)
Definition extractDataFromPDF (d : pdfData) : outcome (list jsval) :=
  let tableData := extractTableData (text d) in
  bindO (extractKeyValuePairs (text d)) (fun keyValueData =>
  bindO (extractFormData (text d)) (fun formData =>
  let data := (tableData ++ keyValueData ++ formData)%list in
  Ok (if (List.length data =? 0)%nat
      then [ JObj [ ("content", JStr (text d));
                    ("type", JStr "full_text");
                    ("pages", numpages d) ] ]
      else data))).

(** [validatePdfRecord(record, index)] *)
Definition validatePdfRecord (record : jsval) (index : nat) : validation :=
  let errors :=
    if negb (truthy record) || (List.length (keys (own_props record)) =? 0)%nat
    then ["Empty record"] else [] in
  mkValidation ((List.length errors =? 0)%nat) errors.

Section Process.
Context `{Runtime} `{PdfLib}.

(** The body of [extractedData.forEach((item, index) => ...)]. *)
Definition sort_item (item : jsval) (index : nat) (acc : list jsval * list jsval)
  : M (list jsval * list jsval) :=
  let '(records, errors) := acc in
  let validation := validatePdfRecord item index in
  if isValid validation then
    id <- generateRecordId ;;
    processedAt <- new_Date ;;
    ret ((records ++
            [ JObj (set "_index" (js_nat index)
                     (set "_processedAt" processedAt
                       (set "_id" (JStr id) (spread [] item)))) ])%list,
         errors)
  else
    ret (records,
         (errors ++
            [ JObj [ ("index", js_nat index);
                     ("data", item);
                     ("errors", js_strings (messages validation));
                     ("type", JStr "validation_error") ] ])%list).

(** [pdfProcessor.process(file, metadata)] *)
Definition process (file : Registry.upload) (metadata : object) : M ProcessingResult :=
  rethrow "PDF processing"
    (pdfBuffer <-
       lift (read_upload readFileSync (Registry.path file) (Registry.buffer file)) ;;
     pdfData <- lift (pdf pdfBuffer) ;;
     extractedData <- lift (extractDataFromPDF pdfData) ;;
     sorted <- forEachM sort_item extractedData 0 ([], []) ;;
     let '(records, errors) := sorted in
     ret {| data := records;
            errors := errors;
            metadata :=
              [ ("pages", numpages pdfData);
                ("textLength", js_nat (strlen (text pdfData)));
                ("totalItems", js_nat (List.length records + List.length errors));
                ("validItems", js_nat (List.length records));
                ("errorItems", js_nat (List.length errors));
                ("info", or_else (info pdfData) (JObj [])) ] |}).

End Process.

End Pdf.

(* ================================================================== *)
(** * The image processor (processors/imageProcessor.js)               *)
(* ================================================================== *)

Module Image.
Import JS Regex Contract.
Local Open Scope js_scope.

(** [ocrResult.data] *)
Record ocrData := mkOcr {
  text : string;
  confidence : jsval;
  words : jsval
}.

(** The file system, [sharp] and [tesseract.js]. *)
Class ImageLib := {
  readFileSync : string -> outcome string;
  (** [sharp(buffer).metadata()] *)
  sharp_metadata : string -> outcome object;
  (** [sharp(buffer).greyscale().normalize().sharpen().toBuffer()] *)
  sharp_preprocess : string -> outcome string;
  (** [tesseract.recognize(buffer, 'eng', ...)] *)
  recognize : string -> outcome ocrData
}.

(** [performOCR(imageBuffer)] *)
Definition performOCR `{ImageLib} (imageBuffer : string) : outcome ocrData :=
  try_catch
    (bindO (sharp_preprocess imageBuffer) recognize)
    (fun error => throw_error ("OCR failed: " ++ emessage error)).

(** [extractTableFromOCR(text)]: the lines are computed and nothing is
    done with them. *)
Definition extractTableFromOCR (text : string) : list jsval :=
  let lines := Pdf.nonblank_lines text in
  [].

Definition colon_blanks : list re := [lit false ":"; star (Chr is_space)].

Definition letter (c : ascii) : bool := in_range 97 122 c || in_range 65 90 c.
Definition alnum (c : ascii) : bool := letter c || is_digit c.

(** The five patterns of [extractFormFromOCR], all with flags [gi]:
    - [(?:total|amount|price):\s*\$?([0-9,.]+)]
    - [(?:date|time):\s*([0-9\/\-\s:]+)]
    - [(?:name|customer):\s*([^\n\r]+)]
    - [(?:email|e-mail):\s*([a-zA-Z0-9._%+-]+@[a-zA-Z0-9.-]+\.[a-zA-Z]{2,})]
    - [(?:phone|tel|telephone):\s*([0-9\-\+\(\)\s]+)] *)
Definition patterns : list re :=
  [ seq ([alts [lit true "total"; lit true "amount"; lit true "price"]] ++ colon_blanks ++
         [opt (lit false "$"); Grp 1 (plus (Chr (either is_digit (one_of ",."))))])%list;
    seq ([alts [lit true "date"; lit true "time"]] ++ colon_blanks ++
         [Grp 1 (plus (Chr (either is_digit (either (one_of "/-:") is_space))))])%list;
    seq ([alts [lit true "name"; lit true "customer"]] ++ colon_blanks ++
         [Grp 1 (plus (Chr (none_of is_line_terminator)))])%list;
    seq ([alts [lit true "email"; lit true "e-mail"]] ++ colon_blanks ++
         [Grp 1 (seq [ plus (Chr (either alnum (one_of "._%+-")));
                       lit false "@";
                       plus (Chr (either alnum (one_of ".-")));
                       lit false ".";
                       Rep 2 (Chr letter) ])])%list;
    seq ([alts [lit true "phone"; lit true "tel"; lit true "telephone"]] ++ colon_blanks ++
         [Grp 1 (plus (Chr (either is_digit (either (one_of "-+()") is_space))))])%list ].

(** The [while] loop of one pattern: [extracted[key] = value] for every
    match, with [key = match[0].split(':')[0].toLowerCase().trim()]. *)
Definition scan_pattern (text : string) (extracted : built) (pattern : re)
  : outcome built :=
  bindO (exec_all pattern text) (fun found =>
    let input := chars text in
    Ok (fold_left
          (fun extracted f =>
             let key := trim (toLowerCase (hd "" (split ":"%char (whole input f)))) in
             let value := trim (group input f 1) in
             put key (JStr value) extracted)
          found extracted)).

(** [extractFormFromOCR(text)] *)
Definition extractFormFromOCR (text : string) : outcome (list jsval) :=
  bindO
    (fold_left (fun acc pattern => bindO acc (fun extracted => scan_pattern text extracted pattern))
               patterns (Ok fresh))
    (fun extracted =>
       Ok (if (0 <? List.length (keys (own extracted)))%nat
           then [JObj (own extracted)] else [])).

(** [extractKeyValueFromOCR(text)]: the same pattern and loop as the PDF
    processor's [extractKeyValuePairs]. *)
Definition keyValuePattern : re :=
  seq [ Bol true;
        Grp 1 (plus (Chr (none_of (one_of ":"))));
        lit false ":"; star (Chr is_space);
        Grp 2 (plus (Chr dot));
        Eol true ].

Definition extractKeyValueFromOCR (text : string) : outcome (list jsval) :=
  bindO (exec_all keyValuePattern text) (fun found =>
    let input := chars text in
    let matches :=
      fold_left
        (fun matches f =>
           let key := replace_all Pdf.spaces "_" (toLowerCase (trim (group input f 1))) in
           let value := trim (group input f 2) in
           put key (JStr value) matches)
        found fresh in
    Ok (if (0 <? List.length (keys (own matches)))%nat then [JObj (own matches)] else [])).

(** [extractDataFromOCR(text)] *)
Definition extractDataFromOCR (text : string) : outcome (list jsval) :=
  let tableData := extractTableFromOCR text in
  bindO (extractFormFromOCR text) (fun formData =>
  bindO (extractKeyValueFromOCR text) (fun keyValueData =>
  Ok (tableData ++ formData ++ keyValueData)%list)).

(** [validateImageRecord(record, index)] *)
Definition validateImageRecord (record : jsval) (index : nat) : validation :=
  let errors :=
    if negb (truthy record) || (List.length (keys (own_props record)) =? 0)%nat
    then ["No data extracted"] else [] in
  mkValidation ((List.length errors =? 0)%nat) errors.

(** [{ width, height, format, channels }] of the image metadata. *)
Definition dimensions (imageMetadata : object) : jsval :=
  JObj [ ("width", field imageMetadata "width");
         ("height", field imageMetadata "height");
         ("format", field imageMetadata "format");
         ("channels", field imageMetadata "channels") ].

Section Process.
Context `{Runtime} `{ImageLib}.

(** The body of [extractedData.forEach((item, index) => ...)]. *)
Definition sort_item (imageMetadata : object)
           (item : jsval) (index : nat) (acc : list jsval * list jsval)
  : M (list jsval * list jsval) :=
  let '(records, errors) := acc in
  let validation := validateImageRecord item index in
  if isValid validation then
    id <- generateRecordId ;;
    processedAt <- new_Date ;;
    ret ((records ++
            [ JObj (set "_imageMetadata" (dimensions imageMetadata)
                     (set "_index" (js_nat index)
                       (set "_processedAt" processedAt
                         (set "_id" (JStr id) (spread [] item))))) ])%list,
         errors)
  else
    ret (records,
         (errors ++
            [ JObj [ ("index", js_nat index);
                     ("data", item);
                     ("errors", js_strings (messages validation));
                     ("type", JStr "validation_error") ] ])%list).

(** [ocrResult.data.words ? ocrResult.data.words.length : 0] *)
Definition word_count (words : jsval) : outcome jsval :=
  if truthy words then get words "length" else Ok (JNum 0).

(** [imageProcessor.process(file, metadata)] *)
Definition process (file : Registry.upload) (metadata : object) : M ProcessingResult :=
  rethrow "Image processing"
    (imageBuffer <-
       lift (read_upload readFileSync (Registry.path file) (Registry.buffer file)) ;;
     imageMetadata <- lift (sharp_metadata imageBuffer) ;;
     ocr <- lift (performOCR imageBuffer) ;;
     extractedData <- lift (extractDataFromOCR (text ocr)) ;;
     sorted <- forEachM (sort_item imageMetadata) extractedData 0 ([], []) ;;
     let '(records0, errors) := sorted in
     records <-
       (if (List.length records0 =? 0)%nat && (0 <? strlen (trim (text ocr)))%nat
        then
          id <- generateRecordId ;;
          processedAt <- new_Date ;;
          ret (records0 ++
                 [ JObj [ ("_id", JStr id);
                          ("_processedAt", processedAt);
                          ("type", JStr "ocr_text");
                          ("content", JStr (text ocr));
                          ("confidence", confidence ocr);
                          ("_imageMetadata", dimensions imageMetadata) ] ])%list
        else ret records0) ;;
     nwords <- lift (word_count (words ocr)) ;;
     ret {| data := records;
            errors := errors;
            metadata :=
              [ ("image",
                 JObj [ ("width", field imageMetadata "width");
                        ("height", field imageMetadata "height");
                        ("format", field imageMetadata "format");
                        ("channels", field imageMetadata "channels");
                        ("density", field imageMetadata "density") ]);
                ("ocr",
                 JObj [ ("confidence", confidence ocr);
                        ("textLength", js_nat (strlen (text ocr)));
                        ("words", nwords) ]);
                ("totalItems", js_nat (List.length records + List.length errors));
                ("validItems", js_nat (List.length records));
                ("errorItems", js_nat (List.length errors)) ] |}).

End Process.

End Image.

(* ================================================================== *)
(** * The Excel processor (processors/excelProcessor.js)               *)
(* ================================================================== *)

Module Excel.
Import JS Contract.
Local Open Scope js_scope.

(** A workbook as the processor reads it: [workbook.SheetNames], and for
    a sheet name the rows
    [XLSX.utils.sheet_to_json(workbook.Sheets[name], { header: 1, defval: null })],
    each row an array of cell values. *)
Record workbook := mkWorkbook {
  SheetNames : list string;
  sheet_to_json : string -> list (list jsval)
}.

(** The [xlsx] library: [XLSX.readFile(path)] and
    [XLSX.read(buffer, { type: 'buffer' })]. *)
Class ExcelLib := {
  readFile : string -> outcome workbook;
  read : string -> outcome workbook
}.

(** [row[colIndex]] *)
Definition cell (row : list jsval) (colIndex : nat) : jsval :=
  nth colIndex row JUndefined.

(** [headers.forEach((header, colIndex) => { record[header] = row[colIndex] || null; })] *)
Fixpoint fill `{Runtime} (headers : list jsval) (row : list jsval) (colIndex : nat)
         (record : built) : built :=
  match headers with
  | [] => record
  | header :: r =>
      fill r row (S colIndex)
           (put (to_string header) (or_else (cell row colIndex) JNull) record)
  end.

(** The own properties of the record of a row, which is all that
    [Object.values], the spread and the error entry show of it: a cell
    under a header named [__proto__] is no property of the record. *)
Definition build_record `{Runtime} (headers row : list jsval) : object :=
  own (fill headers row 0 fresh).

(** [value !== null && value !== undefined && value !== ''] *)
Definition is_data (value : jsval) : bool :=
  negb (is_null value) && negb (is_undefined value) && negb (is_empty_string value).

(** [validateExcelRecord(record, sheetName, rowNumber)] *)
Definition validateExcelRecord (record : object) (sheetName : string) (rowNumber : nat)
  : validation :=
  let hasData := existsb is_data (values record) in
  if negb hasData then mkValidation false ["Empty row"]
  else mkValidation true [].

Section Process.
Context `{Runtime} `{ExcelLib}.

(** The body of [rows.forEach((row, index) => ...)]. *)
Definition sort_row (sheetName : string) (headers : list jsval)
           (row : list jsval) (index : nat) (acc : list jsval * list jsval)
  : M (list jsval * list jsval) :=
  let '(allData, allErrors) := acc in
  let record := build_record headers row in
  let validation := validateExcelRecord record sheetName (index + 2) in
  if isValid validation then
    id <- generateRecordId ;;
    processedAt <- new_Date ;;
    ret ((allData ++
            [ JObj (set "_processedAt" processedAt
                     (set "_id" (JStr id)
                       (set "_row" (js_nat (index + 2))
                         (set "_sheet" (JStr sheetName) record)))) ])%list,
         allErrors)
  else
    ret (allData,
         (allErrors ++
            [ JObj [ ("sheet", JStr sheetName);
                     ("row", js_nat (index + 2));
                     ("data", JObj record);
                     ("errors", js_strings (messages validation));
                     ("type", JStr "validation_error") ] ])%list).

(** One turn of [for (const sheetName of sheetNames)]. *)
Definition sort_sheet (wb : workbook) (sheetName : string)
           (acc : list jsval * list jsval) : M (list jsval * list jsval) :=
  match sheet_to_json wb sheetName with
  | [] => ret acc
  | headers :: rows => forEachM (sort_row sheetName headers) rows 0 acc
  end.

Fixpoint sort_sheets (wb : workbook) (names : list string)
         (acc : list jsval * list jsval) : M (list jsval * list jsval) :=
  match names with
  | [] => ret acc
  | sheetName :: r =>
      acc' <- sort_sheet wb sheetName acc ;; sort_sheets wb r acc'
  end.

(** [excelProcessor.process(file, metadata)] *)
Definition process (file : Registry.upload) (metadata : object) : M ProcessingResult :=
  rethrow "Excel processing"
    (wb <-
       lift (match truthy_path (Registry.path file), Registry.buffer file with
             | Some p, _ => readFile p
             | None, Some b => read b
             | None, None => throw_error "No file data provided"
             end) ;;
     let sheetNames := SheetNames wb in
     sorted <- sort_sheets wb sheetNames ([], []) ;;
     let '(allData, allErrors) := sorted in
     ret {| data := allData;
            errors := allErrors;
            metadata :=
              [ ("sheets", js_strings sheetNames);
                ("totalSheets", js_nat (List.length sheetNames));
                ("totalRows", js_nat (List.length allData + List.length allErrors));
                ("validRows", js_nat (List.length allData));
                ("errorRows", js_nat (List.length allErrors)) ] |}).

End Process.

End Excel.

(* ================================================================== *)
(** * The CSV and XML processors (csvProcessor.js, xmlProcessor.js)     *)
(* ================================================================== *)

(** Both files delegate to a Python script and differ in the script's
    name and in the labels they stamp on the result. *)
Module Script.
Import JS Contract.
Local Open Scope js_scope.

(** How the spawned process ends. *)
Inductive run :=
| Closed (code : jsval) (stdout stderr : string)   (* the 'close' event *)
| Failed (message : string)                         (* the 'error' event *)
| Running.                                          (* neither ever fires *)

Class ScriptHost := {
  (** [path.join(__dirname, '..', 'python_scripts', name)] *)
  script_path : string -> string;
  (** [spawn('python', [scriptPath, ...args])] *)
  spawn_python : string -> list jsval -> run;
  JSON_parse : string -> outcome jsval
}.

Definition is_zero (code : jsval) : bool :=
  match code with JNum 0 => true | _ => false end.

(** [executePythonScript(scriptPath, args)] *)
Definition executePythonScript `{Runtime} `{ScriptHost}
           (scriptPath : string) (args : list jsval) : outcome jsval :=
  match spawn_python scriptPath args with
  | Closed code stdout stderr =>
      if negb (is_zero code)
      then throw_error ("Python script failed with code " ++ to_string code ++
                        ": " ++ stderr)
      else try_catch (JSON_parse stdout)
             (fun parseError =>
                throw_error ("Failed to parse Python output as JSON: " ++
                             emessage parseError))
  | Failed message => throw_error ("Failed to start Python process: " ++ message)
  | Running => Hang
  end.

(** [v.map(...)] needs an array. *)
Definition as_array (what : string) (v : jsval) : outcome (list jsval) :=
  match v with
  | JArr xs => Ok xs
  | _ => throw_type_error (what ++ ".map is not a function")
  end.

Definition file_path (file : Registry.upload) : jsval :=
  match Registry.path file with
  | Some p => JStr p
  | None => JUndefined
  end.

Section Process.
Context `{Runtime} `{ScriptHost}.

(** The shared body of the two [process] methods. *)
Definition process_with (label script source display : string)
           (file : Registry.upload) (metadata : object) : M ProcessingResult :=
  rethrow label
    (let pythonScriptPath := script_path script in
     result <- lift (executePythonScript pythonScriptPath [file_path file]) ;;
     pd <- lift (get result "processedData") ;;
     let processedData := or_else pd (JArr []) in
     el <- lift (get result "errorLogs") ;;
     let errorLogs := or_else el (JArr []) in
     items <- lift (as_array "processedData" processedData) ;;
     records <-
       mapM (fun item =>
               id <- generateRecordId ;;
               processedAt <- new_Date ;;
               ret (JObj (set "_originalFile" (JStr (Registry.originalname file))
                           (set "_source" (JStr source)
                             (set "_processedAt" processedAt
                               (set "_id" (JStr id) (spread [] item)))))))
            items ;;
     logs <- lift (as_array "errorLogs" errorLogs) ;;
     errors <-
       mapM (fun error =>
               timestamp <- new_Date ;;
               type <- lift (get error "type") ;;
               ret (JObj (set "type" (or_else type (JStr "processing_error"))
                           (set "_originalFile" (JStr (Registry.originalname file))
                             (set "_source" (JStr source)
                               (set "_timestamp" timestamp (spread [] error)))))))
            logs ;;
     ret {| data := records;
            errors := errors;
            metadata :=
              [ ("processor", JStr display);
                ("totalItems", js_nat (List.length records + List.length errors));
                ("validItems", js_nat (List.length records));
                ("errorItems", js_nat (List.length errors));
                ("originalFile", JStr (Registry.originalname file));
                ("fileSize", JNum (Registry.size file));
                ("pythonScript", JStr pythonScriptPath) ] |}).

(** [csvProcessor.process(file, metadata)] *)
Definition csv_process : Registry.upload -> object -> M ProcessingResult :=
  process_with "CSV processing" "csv_processor.py"
               "python_csv_processor" "Python CSV Processor".

(** [xmlProcessor.process(file, metadata)] *)
Definition xml_process : Registry.upload -> object -> M ProcessingResult :=
  process_with "XML processing" "xml_processor.py"
               "python_xml_processor" "Python XML Processor".

End Process.

End Script.

(* ================================================================== *)
(** * The export formatter (the export utility module)                 *)
(* ================================================================== *)

Module Exporter.
Import JS.

(** The [json2csv] and [xlsx] libraries and [JSON.stringify]. *)
Class ExportLib := {
  (** [new Parser({ fields, ... }).parse(rows)], with the empty string
      as default value, the double quote as quote and the comma as
      delimiter. *)
  json2csv_parse : list string -> list object -> outcome string;
  (** [book_new], [json_to_sheet(rows)], [ws['!cols'] = widths],
      [book_append_sheet(wb, ws, sheetName)] and
      [XLSX.write(wb, { type: 'buffer', bookType: 'xlsx' })] for one sheet. *)
  xlsx_write_sheet : list object -> list nat -> string -> outcome string;
  (** [JSON.stringify(data, null, 2)] when the flag is set,
      [JSON.stringify(data)] otherwise. *)
  JSON_stringify : bool -> jsval -> string
}.

(** [{ data, filename, mimeType }] *)
Record exported := mkExported {
  data : string;
  filename : string;
  mimeType : string
}.

(** [obj.hasOwnProperty(key)] for a key the [for..in] loop over [obj]
    produced.  The call reaches [Object.prototype.hasOwnProperty] unless
    the object has a property of that name itself, and no data value can
    be called. *)
Definition hasOwnProperty (o : object) (key : string) : outcome bool :=
  if has_own "hasOwnProperty" o
  then throw_type_error "obj.hasOwnProperty is not a function"
  else Ok (has_own key o).

(** [obj[key] && typeof obj[key] === 'object' && !Array.isArray(obj[key])
     && !(obj[key] instanceof Date)] *)
Definition is_nested (v : jsval) : bool :=
  truthy v && typeof_object v && negb (isArray v) && negb (isDate v).

(** [prefix ? `${prefix}${separator}${key}` : key] *)
Definition newKey (prefix separator key : string) : string :=
  if negb (prefix =? "") then prefix ++ separator ++ key else key.

Definition elements (v : jsval) : list jsval :=
  match v with JArr xs => xs | _ => [] end.

Definition epoch (v : jsval) : Z :=
  match v with JDate t => t | _ => 0%Z end.

(** The four-way branch on [obj[key]] in the loop of [flattenObject];
    [inner] is the recursive call [flattenObject(obj[key], newKey, separator)],
    which only the first branch looks at.  [flattened] is filled by
    assignments. *)
Definition flatten_entry `{Runtime} (key : string) (v : jsval)
           (inner : outcome built) (flattened : built) : outcome built :=
  if is_nested v then
    bindO inner (fun sub => Ok (put_all flattened (own sub)))
  else if isArray v then
    Ok (put key (JStr (join ", " (elements v))) flattened)
  else if isDate v then
    Ok (put key (JStr (date_toISOString (epoch v))) flattened)
  else
    Ok (put key v flattened).

(** [flattenObject(obj, prefix = '', separator = '.')] for a data value.
    [for..in] visits the entries of an object, the indices of an array
    and of a string, and nothing in any other value. *)
Fixpoint flattenObject `{Runtime} (obj : jsval) (prefix separator : string) {struct obj}
  : outcome built :=
  match obj with
  | JObj o =>
      (fix over (entries : list (string * jsval)) (flattened : built) {struct entries}
         : outcome built :=
         match entries with
         | [] => Ok flattened
         | (key, v) :: more =>
             bindO (hasOwnProperty o key) (fun own =>
             if own then
               let k := newKey prefix separator key in
               bindO (flatten_entry k v (flattenObject v k separator) flattened)
                     (over more)
             else over more flattened)
         end) o fresh
  | JArr xs =>
      (fix over (i : nat) (items : list jsval) (flattened : built) {struct items}
         : outcome built :=
         match items with
         | [] => Ok flattened
         | v :: more =>
             let k := newKey prefix separator (nat_to_string i) in
             bindO (flatten_entry k v (flattenObject v k separator) flattened)
                   (over (S i) more)
         end) 0 xs fresh
  | JStr s =>
      Ok (fold_left
            (fun flattened kv => put (newKey prefix separator (fst kv)) (snd kv) flattened)
            (own_props obj) fresh)
  | _ => Ok fresh
  end.




(** [getAllFields(data)]: the keys of all rows, each once, in the order
    they are first seen. *)
Definition getAllFields (rows : list object) : list string :=
  fold_left
    (fun fields item =>
       fold_left
         (fun fields key =>
            if existsb (String.eqb key) fields then fields else (fields ++ [key])%list)
         (keys item) fields)
    rows [].

(** [autoSizeColumns(data)] *)
Definition autoSizeColumns `{Runtime} (rows : list object) : list nat :=
  match rows with
  | [] => []
  | first :: _ =>
      map (fun key =>
             let maxWidth :=
               fold_left
                 (fun maxWidth row =>
                    let cellValue := field row key in
                    if truthy cellValue then
                      let cellLength := strlen (to_string cellValue) in
                      if (maxWidth <? cellLength)%nat then cellLength else maxWidth
                    else maxWidth)
                 rows (strlen key) in
             Nat.min (Nat.max (maxWidth + 2) 10) 50)
          (keys first)
  end.

(** [data.map(item => flattenObject(item))]; a row of the result is
    given by its own properties, which is all that the column functions
    and the two libraries read. *)
Fixpoint flatten_all `{Runtime} (items : list jsval) : outcome (list object) :=
  match items with
  | [] => Ok []
  | item :: more =>
      bindO (flattenObject item "" ".") (fun row =>
      bindO (flatten_all more) (fun rows => Ok (own row :: rows)))
  end.

(** [!Array.isArray(data) || data.length === 0] *)
Definition nothing_to_export (data : jsval) : bool :=
  negb (isArray data) || (List.length (elements data) =? 0)%nat.

Section Formats.
Context `{Runtime} `{ExportLib}.

(** [exportToCSV(data, filename = 'export')] *)
Definition exportToCSV (data : jsval) (filename : string) : outcome exported :=
  try_catch
    (if nothing_to_export data then throw_error "No data to export"
     else
       bindO (flatten_all (elements data)) (fun flattenedData =>
       let fields := getAllFields flattenedData in
       bindO (json2csv_parse fields flattenedData) (fun csv =>
       Ok {| data := csv;
             filename := filename ++ ".csv";
             mimeType := "text/csv" |})))
    (fun error => throw_error ("CSV export failed: " ++ emessage error)).

(** [exportToExcel(data, filename = 'export', sheetName = 'Data')] *)
Definition exportToExcel (data : jsval) (filename sheetName : string)
  : outcome exported :=
  try_catch
    (if nothing_to_export data then throw_error "No data to export"
     else
       bindO (flatten_all (elements data)) (fun flattenedData =>
       let colWidths := autoSizeColumns flattenedData in
       bindO (xlsx_write_sheet flattenedData colWidths sheetName) (fun buffer =>
       Ok {| data := buffer;
             filename := filename ++ ".xlsx";
             mimeType :=
               "application/vnd.openxmlformats-officedocument.spreadsheetml.sheet" |})))
    (fun error => throw_error ("Excel export failed: " ++ emessage error)).

(** [exportToJSON(data, filename = 'export', pretty = true)] *)
Definition exportToJSON (data : jsval) (filename : string) (pretty : bool)
  : outcome exported :=
  try_catch
    (if negb (isArray data) then throw_error "Data must be an array"
     else
       let jsonString := JSON_stringify pretty data in
       Ok {| data := jsonString;
             filename := filename ++ ".json";
             mimeType := "application/json" |})
    (fun error => throw_error ("JSON export failed: " ++ emessage error)).

End Formats.

End Exporter.

(* ================================================================== *)
(** * Error logs and their status (models/ErrorLog, routes/errors.js)  *)
(* ================================================================== *)

Module ErrorLog.
Import JS.
Local Open Scope js_scope.

(** [status: { enum: ['UNRESOLVED', 'RESOLVED', 'IGNORED'], default: 'UNRESOLVED' }] *)
Inductive status := UNRESOLVED | RESOLVED | IGNORED.

(** A stored error log: the resolution fields of the schema, and the
    fields no status update touches. *)
Record errorLog := mkLog {
  _id : string;
  log_status : status;
  resolvedAt : option Z;
  resolvedBy : option string;
  resolutionNotes : option string;
  report : object
}.

(** A freshly created log takes the schema default. *)
Definition create (id : string) (report : object) : errorLog :=
  mkLog id UNRESOLVED None None None report.

Definition collection := list errorLog.

(** The body of the PATCH request. *)
Record body := mkBody {
  req_status : jsval;
  req_resolvedBy : option string;
  req_resolutionNotes : option string
}.

(** [validStatuses.includes(status)] *)
Definition valid_status (v : jsval) : option status :=
  match v with
  | JStr s =>
      if s =? "UNRESOLVED" then Some UNRESOLVED
      else if s =? "RESOLVED" then Some RESOLVED
      else if s =? "IGNORED" then Some IGNORED
      else None
  | _ => None
  end.

(** [updateData] *)
Record update := mkUpdate {
  set_status : status;
  set_resolvedAt : option Z;
  set_resolvedBy : option string;
  set_resolutionNotes : option string
}.

Definition truthy_string (s : option string) : option string :=
  match s with
  | Some x => if x =? "" then None else Some x
  | None => None
  end.

(** The document store's [findByIdAndUpdate(id, updateData, { new: true })]:
    the fields named in [updateData] are overwritten in the first document
    with that id and the updated document is returned; [None] when no
    document has the id. *)
Definition apply_update (u : update) (log : errorLog) : errorLog :=
  mkLog (_id log)
        (set_status u)
        (match set_resolvedAt u with Some t => Some t | None => resolvedAt log end)
        (match set_resolvedBy u with Some b => Some b | None => resolvedBy log end)
        (match set_resolutionNotes u with Some n => Some n | None => resolutionNotes log end)
        (report log).

Fixpoint findByIdAndUpdate (id : string) (u : update) (logs : collection)
  : option errorLog * collection :=
  match logs with
  | [] => (None, [])
  | log :: r =>
      if _id log =? id then (Some (apply_update u log), apply_update u log :: r)
      else let '(found, r') := findByIdAndUpdate id u r in (found, log :: r')
  end.

Fixpoint findById (id : string) (logs : collection) : option errorLog :=
  match logs with
  | [] => None
  | log :: r => if _id log =? id then Some log else findById id r
  end.

(** The store rejects an id it cannot cast to an object id. *)
Class Store := { castable : string -> bool }.

(** [res.status(code).json({ success, message, data })] *)
Record response := mkResponse {
  code : nat;
  success : bool;
  message : string;
  updated : option errorLog
}.

(** [router.patch('/:id/status', ...)] *)
Definition patch_status `{Runtime} `{Store} (id : string) (b : body) (logs : collection)
  : M (response * collection) :=
  match valid_status (req_status b) with
  | None =>
      ret (mkResponse 400 false
             "Invalid status. Must be one of: UNRESOLVED, RESOLVED, IGNORED" None,
           logs)
  | Some status =>
      updateData <-
        (match status with
         | RESOLVED =>
             now <- Date_now ;;
             ret (mkUpdate status (Some now)
                    (Some (match truthy_string (req_resolvedBy b) with
                           | Some who => who
                           | None => "System"
                           end))
                    (truthy_string (req_resolutionNotes b)))
         | _ => ret (mkUpdate status None None None)
         end) ;;
      if negb (castable id) then
        (* the store throws a CastError, which the handler answers *)
        ret (mkResponse 400 false "Invalid error ID format" None, logs)
      else
        match findByIdAndUpdate id updateData logs with
        | (None, _) => ret (mkResponse 404 false "Error log not found" None, logs)
        | (Some updatedError, logs') =>
            ret (mkResponse 200 true "Error status updated successfully"
                   (Some updatedError),
                 logs')
        end
  end.

End ErrorLog.

(* ================================================================== *)
(** * The registry with the five processors plugged in                 *)
(* ================================================================== *)

Module App.
Import JS Registry Contract.

Section Wiring.
Context `{Runtime} `{Pdf.PdfLib} `{Image.ImageLib} `{Excel.ExcelLib}
        `{Script.ScriptHost}.

(** [process] of the module each registry entry points to. *)
Definition process (p : processor) (file : upload) (metadata : object) : M jsval :=
  bind (match p with
        | csvProcessor => Script.csv_process file metadata
        | excelProcessor => Excel.process file metadata
        | xmlProcessor => Script.xml_process file metadata
        | pdfProcessor => Pdf.process file metadata
        | imageProcessor => Image.process file metadata
        end)
       (fun result => ret (to_js result)).

Definition processFile : upload -> object -> M envelope :=
  Registry.processFile process.

End Wiring.

End App.

(* ================================================================== *)
(** * A concrete environment, for running the code on examples        *)
(* ================================================================== *)

Module Sample.
Import JS.

(** The clock starts at 2023-11-14T22:13:20Z and advances 7 ms per
    reading; the local time zone is UTC. *)
#[export] Instance runtime : Runtime := {|
  date_toString := date_toISOString;
  clock := fun k => (1700000000000 + 7 * Z.of_nat k)%Z;
  random36 := fun k => "0.4fzyo82mvyr" ++ nat_to_string k
|}.

Definition LF : string := String (ascii_of_nat 10) "".

(** The text layer of the PDF of scenario B. *)
Definition scenario_B_text : string := "Name: John" ++ LF ++ "Age: 30".

(** The disk holds a file under every path; the PDF parser finds the
    text of scenario B in [uploads/scenario-b.pdf] and no text elsewhere. *)
Definition disk (path : string) : outcome string := Ok ("<" ++ path ++ ">").

#[export] Instance pdflib : Pdf.PdfLib := {|
  Pdf.readFileSync := disk;
  Pdf.pdf := fun buffer =>
    Ok (Pdf.mkPdfData
          (if buffer =? "<uploads/scenario-b.pdf>" then scenario_B_text else "")
          (JNum 1) JUndefined)
|}.

(** The OCR reads a total off [uploads/receipt.png] and nothing off any
    other image. *)
#[export] Instance imagelib : Image.ImageLib := {|
  Image.readFileSync := disk;
  Image.sharp_metadata := fun _ =>
    Ok [ ("width", JNum 640); ("height", JNum 480);
         ("format", JStr "png"); ("channels", JNum 3); ("density", JNum 72) ];
  Image.sharp_preprocess := fun buffer => Ok buffer;
  Image.recognize := fun buffer =>
    Ok (Image.mkOcr
          (if buffer =? "<uploads/receipt.png>" then "Total: $12.50" else "")
          (JNum 90) (JArr []))
|}.

(** A workbook with one sheet: a header row, a row of text, a row whose
    only cell is the number 0, and a row whose only cell is missing. *)
Definition stock : Excel.workbook :=
  Excel.mkWorkbook ["Stock"]
    (fun name =>
       if name =? "Stock"
       then [ [JStr "item"; JStr "qty"];
              [JStr "bolt"; JNum 12];
              [JNull; JNum 0];
              [JNull; JNull] ]
       else []).

#[export] Instance excellib : Excel.ExcelLib := {|
  Excel.readFile := fun _ => Ok stock;
  Excel.read := fun _ => Ok stock
|}.

(** A script that reports one record and one rejected row. *)
#[export] Instance scripthost : Script.ScriptHost := {|
  Script.script_path := fun name => "/app/backend/python_scripts/" ++ name;
  Script.spawn_python := fun _ _ => Script.Closed (JNum 0) "{...}" "";
  Script.JSON_parse := fun _ =>
    Ok (JObj [ ("processedData", JArr [JObj [("name", JStr "Ann")]]);
               ("errorLogs", JArr [JObj [("row", JNum 2);
                                         ("message", JStr "Name is required")]]) ])
|}.

(** Stand-ins for the writers: the CSV writer prints the header line,
    the workbook writer the sheet name, and the JSON writer prints
    without indentation whatever the flag says. *)
Definition quote : string := String (ascii_of_nat 34) "".

Fixpoint json (v : jsval) : string :=
  match v with
  | JUndefined | JNull => "null"
  | JBool true => "true"
  | JBool false => "false"
  | JNum n => num_to_string n
  | JStr s => quote ++ s ++ quote
  | JDate t => quote ++ date_toISOString t ++ quote
  | JArr xs => "[" ++ join_strings "," (map json xs) ++ "]"
  | JObj o =>
      "{" ++ join_strings ","
               (map (fun kv => quote ++ fst kv ++ quote ++ ":" ++ json (snd kv)) o) ++ "}"
  end.

#[export] Instance exportlib : Exporter.ExportLib := {|
  Exporter.json2csv_parse := fun fields rows => Ok (join_strings "," fields);
  Exporter.xlsx_write_sheet := fun rows widths sheetName => Ok sheetName;
  Exporter.JSON_stringify := fun pretty v => json v
|}.

#[export] Instance store : ErrorLog.Store := {|
  ErrorLog.castable := fun id => (strlen id =? 24)%nat
|}.

Definition w0 : world := mkWorld 0 0.

Definition upload_of (name mime path : string) : Registry.upload :=
  Registry.mkUpload name mime 64 (Some path) None.

End Sample.

(* ================================================================== *)
(** * Vocabulary of the statements                                     *)
(* ================================================================== *)

Module Statements.
Import JS Registry.

(** A specified type that does not decide: a falsy value, as it is when
    absent, or a string that is none of the five labels. *)
Definition undecided (specifiedType : jsval) : Prop :=
  truthy specifiedType = false \/
  exists s, specifiedType = JStr s /\ by_label (toLowerCase s) = None.

(** The failure envelope of the dispatcher. *)
Definition failure_envelope (e : envelope) (message : string) : Prop :=
  success e = false /\ data e = JArr [] /\
  exists timestamp,
    errors e = JArr [ JObj [ ("type", JStr "processing_error");
                             ("message", JStr message);
                             ("timestamp", JDate timestamp) ] ].

(** An upload with neither a path nor a buffer, on which the PDF
    processor throws, and options whose [processedAt] is a string. *)
Definition orphan_pdf : upload :=
  mkUpload "report.pdf" "application/pdf" 64 None None.

Definition stamped_options : object := [ ("processedAt", JStr "2024-01-01") ].

(** Inputs that the export functions refuse for want of data: anything
    that is not an array, and the empty array. *)
Definition no_rows (data : jsval) : Prop :=
  isArray data = false \/ data = JArr [].

(** The metadata of a result reports, under [key], the number of entries
    of [data] and [errors] together. *)
Definition reports_total (key : string) (r : Contract.ProcessingResult) : Prop :=
  field (Contract.metadata r) key
  = Contract.js_nat (List.length (Contract.data r) + List.length (Contract.errors r)).

(** One step of a processor's loop has put one entry into the first list
    and none into the second, or the other way round. *)
Definition placed_once (before after : list jsval * list jsval) : Prop :=
  (exists entry, after = ((fst before ++ [entry])%list, snd before)) \/
  (exists entry, after = (fst before, (snd before ++ [entry])%list)).







Definition has_dot (s : string) : bool := existsb (Ascii.eqb "."%char) (chars s).


(** An object with [Object.prototype] as its prototype and no property
    named [__proto__]. *)
Definition unspoilt (b : built) : Prop :=
  prototype b = ObjectPrototype /\ ~ In "__proto__" (keys (own b)).




(** A stored log that has been resolved, and a request to reopen it. *)
Definition resolved_log : ErrorLog.errorLog :=
  ErrorLog.mkLog "65a1f0c2b7e4d83a9c0f1e2d" ErrorLog.RESOLVED
                 (Some 1699999999000%Z) (Some "ops") None
                 [ ("errorType", JStr "VALIDATION_ERROR");
                   ("errorMessage", JStr "Empty row") ].

Definition reopen : ErrorLog.body := ErrorLog.mkBody (JStr "UNRESOLVED") None None.

(** The fields a processor adds to a record are those whose name starts
    with an underscore; the rest is what was extracted. *)
Definition extracted_fields (record : jsval) : object :=
  filter (fun kv => negb (startsWith (fst kv) "_")) (own_props record).

(** The uploads of the examples. *)
Definition stock_upload : upload :=
  Sample.upload_of "stock.xlsx" "application/vnd.ms-excel" "uploads/file-1".

Definition scenario_B_upload : upload :=
  Sample.upload_of "scenario-b.pdf" "application/pdf" "uploads/scenario-b.pdf".

Definition receipt_upload : upload :=
  Sample.upload_of "receipt.png" "image/png" "uploads/receipt.png".

Definition export_upload : upload :=
  Sample.upload_of "export.csv" "text/csv" "uploads/export.csv".

End Statements.

(* ================================================================== *)
(** * Sanitizing records (the validation utility module)               *)
(* ================================================================== *)

Module Validate.
Import JS.

(** The four-way branch on a property value in the loop of
    [sanitizeData]; [sanitize] is [sanitizeData] itself. *)
Definition sanitize_value (sanitize : jsval -> jsval) (value : jsval) : jsval :=
  match value with
  | JStr s => JStr (trim s)
  | JArr xs => JArr (map sanitize xs)
  | JObj _ | JDate _ => sanitize value
  | _ => value
  end.

(** The own properties of [sanitized] after [sanitized[key] = value].
    [Object.entries] gives every key once, so that the key [__proto__]
    is assigned at most once, to the object created as [{}]: the
    assignment runs the accessor of [Object.prototype], which stores no
    own property.  The prototype the accessor may put in place is not
    part of the data value that is returned. *)
Definition keep (key : string) (value : jsval) (sanitized : object) : object :=
  if key =? "__proto__" then sanitized else set key value sanitized.

(** [sanitizeData(data)].  [Object.entries] lists the properties of an
    object and the indices of an array, and nothing for a date; the
    result of the loop is always a plain object. *)
Fixpoint sanitizeData (data : jsval) {struct data} : jsval :=
  match data with
  | JObj o =>
      JObj ((fix over (entries : list (string * jsval)) (sanitized : object)
               {struct entries} : object :=
               match entries with
               | [] => sanitized
               | (key, value) :: more =>
                   over more (keep key (sanitize_value sanitizeData value) sanitized)
               end) o [])
  | JArr xs =>
      JObj ((fix over (i : nat) (items : list jsval) (sanitized : object)
               {struct items} : object :=
               match items with
               | [] => sanitized
               | value :: more =>
                   over (S i) more
                        (keep (nat_to_string i) (sanitize_value sanitizeData value) sanitized)
               end) 0 xs [])
  | JDate _ => JObj []
  | _ => data
  end.

(** What the loop stores for a property value. *)
Definition sanitize_field : jsval -> jsval := sanitize_value sanitizeData.

(** The loop of [sanitizeData] over the entries of an object. *)
Definition sanitize_entries (entries : list (string * jsval)) (sanitized : object) : object :=
  fold_left (fun sanitized kv => keep (fst kv) (sanitize_field (snd kv)) sanitized)
            entries sanitized.

(** A value that is no object: [typeof value !== 'object'], or [null]. *)
Definition primitive (v : jsval) : bool := negb (typeof_object v) || is_null v.

End Validate.

(* ================================================================== *)
(** * Pages of a listing (routes/errors.js, routes/customers.js)       *)
(* ================================================================== *)

(** The two list routes compute the page window and the pagination
    object with the same lines. *)
Module Paging.
Import JS.

(** The numbers of the pagination code: an integer, or [NaN].  The
    integers are computed exactly, as the doubles of the code are as
    long as the numbers are [small]; the statements about sums, products
    and quotients assume it of the numbers they start from. *)
Definition num := option Z.
Definition NaN : num := None.

(** A magnitude up to which a page number times a page size, and a
    count divided by a page size, are exact in doubles. *)
Definition small (z : Z) : Prop := (Z.abs z <= 2 ^ 45)%Z.

(** The value of a character as a digit, up to base 36. *)
Definition digit_value (c : ascii) : option Z :=
  if is_digit c then Some (Z.of_nat (code c) - 48)%Z
  else if in_range 97 122 c then Some (Z.of_nat (code c) - 87)%Z
  else if in_range 65 90 c then Some (Z.of_nat (code c) - 55)%Z
  else None.

(** The value of the longest prefix of digits of the radix; [acc] is the
    value of the digits read so far, [NaN] when there is none yet. *)
Fixpoint parse_digits (radix : Z) (l : list ascii) (acc : num) : num :=
  match l with
  | [] => acc
  | c :: r =>
      match digit_value c with
      | Some d =>
          if (d <? radix)%Z
          then parse_digits radix r
                 (Some (match acc with Some a => a * radix + d | None => d end)%Z)
          else acc
      | None => acc
      end
  end.

(** [parseInt(string)] with no radix given: leading white space is
    skipped, a sign is read, [0x] or [0X] selects base 16, and the
    digits are read up to the first character that is none. *)
Definition parseInt (s : string) : num :=
  let trimmed := drop_while is_space (chars s) in
  let '(sign, unsigned) :=
    match trimmed with
    | "-"%char :: r => ((-1)%Z, r)
    | "+"%char :: r => (1%Z, r)
    | _ => (1%Z, trimmed)
    end in
  let '(radix, digits) :=
    match unsigned with
    | "0"%char :: "x"%char :: r => (16%Z, r)
    | "0"%char :: "X"%char :: r => (16%Z, r)
    | _ => (10%Z, unsigned)
    end in
  option_map (Z.mul sign) (parse_digits radix digits NaN).

(** A query parameter with a numeric default: [const { page = 1 } = req.query]
    followed by [parseInt(page)]. *)
Definition parse_param (default : Z) (p : option string) : num :=
  match p with
  | Some s => parseInt s
  | None => Some default
  end.

(** [Math.max(a, x)] and [Math.min(a, x)]: [NaN] when [x] is. *)
Definition Math_max (a : Z) (x : num) : num := option_map (Z.max a) x.
Definition Math_min (a : Z) (x : num) : num := option_map (Z.min a) x.

(** [Math.max(1, parseInt(page))] *)
Definition pageNumber (page : option string) : num :=
  Math_max 1 (parse_param 1 page).

(** [Math.min(100, Math.max(1, parseInt(limit)))] *)
Definition pageSize (limit : option string) : num :=
  Math_min 100 (Math_max 1 (parse_param 10 limit)).

(** [(pageNumber - 1) * pageSize] *)
Definition skip (pageNumber pageSize : num) : num :=
  match pageNumber, pageSize with
  | Some p, Some s => Some ((p - 1) * s)%Z
  | _, _ => NaN
  end.

(** [Math.ceil(totalCount / pageSize)] for a page size that is not 0. *)
Definition Math_ceil_div (totalCount : nat) (pageSize : num) : num :=
  match pageSize with
  | Some s => Some (- ((- Z.of_nat totalCount) / s))%Z
  | None => NaN
  end.

(** [a < b] and [b > a]: false when one side is [NaN]. *)
Definition lt (a b : num) : bool :=
  match a, b with
  | Some x, Some y => (x <? y)%Z
  | _, _ => false
  end.

(** The [pagination] object of the response; [null] is [None] in the
    last two fields. *)
Record pagination := mkPagination {
  currentPage : num;
  totalPages : num;
  totalRecords : nat;
  recordsPerPage : num;
  hasNextPage : bool;
  hasPrevPage : bool;
  nextPage : option num;
  prevPage : option num
}.

Definition paginate (page limit : option string) (totalCount : nat) : pagination :=
  let pageNumber := pageNumber page in
  let pageSize := pageSize limit in
  let totalPages := Math_ceil_div totalCount pageSize in
  let hasNextPage := lt pageNumber totalPages in
  let hasPrevPage := lt (Some 1%Z) pageNumber in
  {| currentPage := pageNumber;
     totalPages := totalPages;
     totalRecords := totalCount;
     recordsPerPage := pageSize;
     hasNextPage := hasNextPage;
     hasPrevPage := hasPrevPage;
     nextPage :=
       if hasNextPage then Some (option_map (fun p => p + 1)%Z pageNumber) else None;
     prevPage :=
       if hasPrevPage then Some (option_map (fun p => p - 1)%Z pageNumber) else None |}.

(** [Model.find(query).sort(sortOptions).skip(skip).limit(pageSize)] on
    the documents that match the query, in the order of the sort: the
    store passes over the first [skip] documents and returns the next
    [pageSize], or those that are left. *)
Definition window {A} (matching : list A) (skip pageSize : Z) : list A :=
  firstn (Z.to_nat pageSize) (skipn (Z.to_nat skip) matching).

(** The documents a list route returns for the [page] and [limit] of a
    request: the window the handler asks the store for.  What the store
    makes of a [NaN] is not known. *)
Definition served {A} (page limit : option string) (matching : list A)
  : option (list A) :=
  match skip (pageNumber page) (pageSize limit), pageSize limit with
  | Some skip, Some pageSize => Some (window matching skip pageSize)
  | _, _ => None
  end.

End Paging.

(* ================================================================== *)
(** * The upload route (routes/upload.js)                              *)
(* ================================================================== *)

Module UploadRoute.
Import JS Registry Contract Validate.
Local Open Scope js_scope.

(** What the handler reads of the request: [req.file] as multer leaves
    it, [req.body], [req.ip] and [req.user?.id]. *)
Record request := mkRequest {
  req_file : option upload;
  req_body : object;
  req_ip : jsval;
  req_user_id : jsval
}.

(** The [fileFilter] of the multer configuration: the upload is kept
    when [isSupported(file.mimetype, file.originalname)] is truthy. *)
Definition fileFilter (file : upload) : outcome bool :=
  isSupported (Some (mimetype file)) (Some (originalname file)) JNull.

(** How [ProcessedData.insertMany(documents, { ordered: false, rawResult: true })]
    ends: it resolves to a result with an [insertedCount], or rejects
    with an error that has [writeErrors], each with an [errmsg], or
    with an error that has none and a [message]. *)
Inductive insertion :=
| Inserted (insertedCount : jsval)
| WriteErrors (writeErrors : list object)
| Rejected (message : jsval).

(** The document store, the file system and the built-ins of the
    handler. *)
Class Services := {
  ProcessedData_insertMany : list jsval -> insertion;
  (** [ErrorLog.insertMany(errorLogs, { ordered: false })]: whether it
      resolves. *)
  ErrorLog_insertMany : list jsval -> bool;
  existsSync : string -> bool;
  JSON_stringify : jsval -> jsval;
  toUpperCase : string -> string;
  (** [process.env.NODE_ENV === 'development'] *)
  development : bool
}.

(** [res.status(status).json(json)], and the files [fs.unlinkSync] has
    removed before. *)
Record reply := mkReply {
  status : nat;
  json : object;
  unlinked : list string
}.

(** The handler is modelled on results whose [data] and [errors] are
    arrays, as every result of [processFile] over processors that keep
    to the contract is; [Unmodelled] stands for the others. *)
Inductive served :=
| Replied (r : reply)
| Unmodelled.

Section Handler.
Context `{Runtime} `{Services}.
Variable process : processor -> upload -> object -> M jsval.

(** One element of [documentsToInsert]. *)
Definition document (file : upload) (req : request) (metadata : object) (dataItem : jsval)
  : jsval :=
  JObj [ ("data", sanitizeData dataItem);
         ("metadata",
          JObj [ ("originalFileName", JStr (originalname file));
                 ("fileType", or_else (field metadata "detectedType")
                                      (field metadata "processor"));
                 ("mimeType", JStr (mimetype file));
                 ("fileSize", JNum (size file));
                 ("processor", field metadata "processor");
                 ("processingTime", field metadata "processingTime");
                 ("specifiedType", field metadata "specifiedType");
                 ("detectedType", field metadata "detectedType");
                 ("uploadedBy", req_ip req);
                 ("userId", req_user_id req);
                 ("recordCount", JNum 1);
                 ("extractedFields",
                  js_strings (keys (own_props (or_else dataItem (JObj [])))));
                 ("additionalOptions",
                  or_else (field metadata "additionalOptions") (JObj [])) ]) ].

(** [(result.metadata.processor || '').toUpperCase()] *)
Definition sourceFormat (metadata : object) : outcome jsval :=
  match or_else (field metadata "processor") (JStr "") with
  | JStr s => Ok (JStr (toUpperCase s))
  | _ => throw_type_error "(result.metadata.processor || '').toUpperCase is not a function"
  end.

(** One element of [errorLogs]. *)
Definition error_log (file : upload) (req : request) (metadata : object) (error : jsval)
  : M jsval :=
  type <- lift (get error "type") ;;
  message <- lift (get error "message") ;;
  details <- lift (get error "details") ;;
  let errorDetails := if truthy details then details else JSON_stringify error in
  format <- lift (sourceFormat metadata) ;;
  lineNumber <- lift (get error "lineNumber") ;;
  rawData <- lift (get error "rawData") ;;
  data <- lift (get error "data") ;;
  fieldName <- lift (get error "fieldName") ;;
  expected <- lift (get error "expected") ;;
  actual <- lift (get error "actual") ;;
  processedAt <- new_Date ;;
  ret (JObj [ ("errorType", or_else type (JStr "PROCESSING_ERROR"));
              ("errorMessage", or_else message (JStr "Unknown error occurred"));
              ("errorDetails", errorDetails);
              ("sourceFormat", format);
              ("sourceFile", JStr (originalname file));
              ("lineNumber", or_else lineNumber JNull);
              ("rawData", or_else rawData (or_else data JNull));
              ("fieldName", or_else fieldName JNull);
              ("expectedValue", or_else expected JNull);
              ("actualValue", or_else actual JNull);
              ("processedBy", or_else (req_ip req) (JStr "system"));
              ("processedAt", processedAt) ]).

(** [if (req.file.path && fs.existsSync(req.file.path)) fs.unlinkSync(req.file.path)]:
    the files removed. *)
Definition cleanup (file : upload) : list string :=
  match truthy_path (path file) with
  | Some p => if existsSync p then [p] else []
  | None => []
  end.

(** The part of the handler that saves the records: [successCount],
    [errorCount] and [responseErrors] after it. *)
Definition save_data (file : upload) (req : request) (metadata : object)
           (items : list jsval) : jsval * Z * list jsval :=
  if (0 <? List.length items)%nat then
    let documentsToInsert := map (document file req metadata) items in
    match ProcessedData_insertMany documentsToInsert with
    | Inserted insertedCount =>
        (or_else insertedCount (js_nat (List.length documentsToInsert)), 0%Z, [])
    | WriteErrors writeErrors =>
        let errorCount := Z.of_nat (List.length writeErrors) in
        (JNum (Z.of_nat (List.length items) - Z.of_nat (List.length writeErrors)),
         errorCount,
         [ JObj [ ("type", JStr "DATABASE_ERRORS");
                  ("message", JStr "Some records failed to save to database");
                  ("count", JNum errorCount);
                  ("details",
                   JArr (map (fun err => field err "errmsg") (firstn 5 writeErrors))) ] ])
    | Rejected message =>
        (JNum 0, Z.of_nat (List.length items),
         [ JObj [ ("type", JStr "DATABASE_ERROR");
                  ("message", JStr "Failed to save processed data");
                  ("error", message) ] ])
    end
  else
    (JNum 0, 0%Z,
     [ JObj [ ("type", JStr "NO_DATA_EXTRACTED");
              ("message", JStr "No valid data was extracted from the file");
              ("count", JNum 0) ] ]).

(** The part that saves the processing errors: what it adds to
    [errorCount].  A failure in it is logged and not passed on. *)
Definition save_errors (file : upload) (req : request) (metadata : object)
           (errs : list jsval) : M Z :=
  if (0 <? List.length errs)%nat then
    try_catchM
      (errorLogs <- mapM (error_log file req metadata) errs ;;
       if ErrorLog_insertMany errorLogs
       then ret (Z.of_nat (List.length errs))
       else (* the rejection is caught like an error of the mapping *)
            ret 0%Z)
      (fun error => ret 0%Z)
  else ret 0%Z.

(** The handler from [let successCount = 0] on: saving, cleaning up and
    the reply with status 200. *)
Definition answer (file : upload) (req : request) (result : envelope) : M served :=
  match Registry.data result, Registry.errors result with
  | JArr items, JArr errs =>
      let metadata := Registry.metadata result in
      let '(successCount, errorCount, responseErrors) :=
        save_data file req metadata items in
      logged <- save_errors file req metadata errs ;;
      let errorCount := (errorCount + logged)%Z in
      let removed := cleanup file in
      ret (Replied
             (mkReply 200
                [ ("success", JBool (success result));
                  ("message",
                   JStr (if success result
                         then "File processed successfully"
                         else "File processing completed with errors"));
                  ("summary",
                   JObj [ ("fileName", JStr (originalname file));
                          ("fileType", JStr (mimetype file));
                          ("fileSize", JNum (size file));
                          ("processor", field metadata "processor");
                          ("processingTime", field metadata "processingTime");
                          ("totalRecords",
                           js_nat (List.length items + List.length errs));
                          ("successfulInserts", successCount);
                          ("failedRecords", JNum errorCount);
                          ("metadata", JObj metadata) ]);
                  ("errors",
                   if (0 <? List.length responseErrors)%nat
                   then JArr responseErrors else JUndefined) ]
                removed))
  | _, _ => ret Unmodelled
  end.

(** [router.post('/file', upload.single('file'), ...)] *)
Definition post_file (req : request) : M served :=
  match req_file req with
  | None =>
      ret (Replied (mkReply 400 [ ("success", JBool false);
                                  ("message", JStr "No file uploaded") ] []))
  | Some file =>
      try_catchM
        (let specifiedFileType := field (req_body req) "fileType" in
         refused <-
           (if truthy specifiedFileType
            then lift (bindO (isSupported None None specifiedFileType)
                             (fun supported => Ok (negb supported)))
            else ret false) ;;
         if (refused : bool) then
           ret (Replied
                  (mkReply 400
                     [ ("success", JBool false);
                       ("message", JStr ("Unsupported file type: " ++
                                         to_string specifiedFileType)) ] []))
         else
           result <- processFile process file
                       (literal [ ("userId", req_user_id req);
                                  ("uploadedBy", req_ip req);
                                  ("specifiedFileType", specifiedFileType);
                                  ("additionalOptions", JObj (req_body req)) ]) ;;
           answer file req result)
        (fun error =>
           ret (Replied
                  (mkReply 500
                     [ ("success", JBool false);
                       ("message", JStr "File processing failed");
                       ("error", JStr (if development then emessage error
                                       else "Internal server error")) ]
                     (cleanup file))))
  end.

End Handler.

(** The values the schema of the error logs allows for [errorType]. *)
Definition errorType_enum : list string :=
  [ "MISSING_FIELD"; "INVALID_FORMAT"; "DUPLICATE_RECORD"; "VALIDATION_ERROR";
    "PARSING_ERROR"; "DATA_TYPE_ERROR"; "BUSINESS_RULE_ERROR" ].

End UploadRoute.

(* ================================================================== *)
(** * The download routes (routes/download.js)                         *)
(* ================================================================== *)

Module DownloadRoute.
Import JS Exporter.

(** What a handler sends: a JSON body under a status, or a file under
    its two headers. *)
Inductive sent :=
| Json (status : nat) (json : object)
| File (contentDisposition contentType : string) (body : string).

Definition double_quote : string := String (ascii_of_nat 34) "".

(** The value of the header [Content-Disposition]. *)
Definition attachment (filename : string) : string :=
  "attachment; filename=" ++ double_quote ++ filename ++ double_quote.

Section Handlers.
Context `{Runtime} `{ExportLib}.
(** [process.env.NODE_ENV === 'development'] *)
Variable development : bool.

(** The handlers of [GET /customers] and of [GET /errors] from the point
    where the store has answered the query with [data]; the two differ
    in the name of the sheet and in their messages.  [format] and
    [filename] are the query parameters of these names, each given once,
    or their defaults. *)
Definition download (sheetName notFound failed : string)
           (format filename : string) (data : list jsval) : outcome sent :=
  try_catch
    (let validFormats := ["csv"; "excel"; "json"] in
     if negb (existsb (String.eqb (toLowerCase format)) validFormats) then
       Ok (Json 400 [ ("success", JBool false);
                      ("message",
                       JStr "Invalid format. Supported formats: csv, excel, json") ])
     else if (List.length data =? 0)%nat then
       Ok (Json 404 [ ("success", JBool false); ("message", JStr notFound) ])
     else
       bindO
         (if toLowerCase format =? "csv" then exportToCSV (JArr data) filename
          else if toLowerCase format =? "excel"
               then exportToExcel (JArr data) filename sheetName
          else exportToJSON (JArr data) filename true)
         (fun exportResult =>
            Ok (File (attachment (Exporter.filename exportResult))
                     (mimeType exportResult)
                     (Exporter.data exportResult))))
    (fun error =>
       Ok (Json 500 [ ("success", JBool false);
                      ("message", JStr failed);
                      ("error", JStr (if development then emessage error
                                      else "Internal server error")) ])).


Definition download_errors : string -> string -> list jsval -> outcome sent :=
  download "Error Logs" "No error logs found matching the criteria"
           "Failed to download error logs".

End Handlers.

End DownloadRoute.

(* ================================================================== *)
(** * More of the vocabulary of the statements                         *)
(* ================================================================== *)

Module Notions.
Import JS Registry Contract.

(** The metadata [processFile] hands to the processor it has selected,
    [processedAt] being the date it has just read off the clock. *)
Definition dispatch_metadata (file : upload) (options : object) (processedAt : Z)
  : object :=
  let specifiedFileType := field options "specifiedFileType" in
  let mime := Some (mimetype file) in
  let name := Some (originalname file) in
  spread
    (literal [ ("originalName", JStr (originalname file));
               ("mimeType", JStr (mimetype file));
               ("size", JNum (size file));
               ("processedAt", JDate processedAt);
               ("processor", or_else specifiedFileType (JStr (detectFileType mime name)));
               ("specifiedType", or_else specifiedFileType JNull);
               ("detectedType", JStr (detectFileType mime name)) ])
    (JObj options).

(** The world after [n] more readings of the clock. *)
Definition later (n : nat) (w : world) : world := mkWorld (n + ticks w) (draws w).

(** The envelope of a processor that returned [r]. *)
Definition success_envelope (metadata : object) (r : ProcessingResult)
           (processingTime : string) : envelope :=
  {| success := true;
     Registry.data := JArr (Contract.data r);
     Registry.metadata :=
       spread (set "processingTime" (JStr processingTime)
                 (set "recordCount" (js_nat (List.length (Contract.data r))) metadata))
              (JObj (Contract.metadata r));
     Registry.errors := JArr (Contract.errors r) |}.

(** The record of a row as a table: one field per header, holding the
    cell of that column, or [null] when the cell is falsy or missing. *)
Fixpoint cells_under `{Runtime} (headers row : list jsval) (colIndex : nat) : object :=
  match headers with
  | [] => []
  | header :: r =>
      (to_string header, or_else (Excel.cell row colIndex) JNull)
        :: cells_under r row (S colIndex)
  end.

(** Whether the Excel processor keeps a row. *)
Definition accepted `{Runtime} (sheetName : string) (headers : list jsval)
           (row : list jsval) (index : nat) : bool :=
  isValid (Excel.validateExcelRecord (Excel.build_record headers row) sheetName (index + 2)).

(** The row number a data record and an error entry carry. *)
Definition data_row (record : jsval) : jsval := field (own_props record) "_row".
Definition error_row (entry : jsval) : jsval := field (own_props entry) "row".

(** The rows of a sheet from index [i] on, each with its index. *)
Fixpoint numbered {A} (i : nat) (rows : list A) : list (nat * A) :=
  match rows with
  | [] => []
  | row :: r => (i, row) :: numbered (S i) r
  end.

(** The error entries collected so far all have the type
    ['validation_error']. *)
Definition validation_typed (acc : list jsval * list jsval) : Prop :=
  Forall (fun entry => field (own_props entry) "type" = JStr "validation_error") (snd acc).

(** An object with at least one property. *)
Definition populated (v : jsval) : Prop := exists o, v = JObj o /\ o <> [].

(** The header names of the table that [extractTableData] finds in a
    text, if it finds one. *)
Definition table_headers (text : string) : option (list string) :=
  fst (fold_left Pdf.table_step (Pdf.nonblank_lines text) (None, [])).

(** A column of the table has another name than [__proto__]. *)
Definition named_columns (text : string) : Prop :=
  forall hs, table_headers text = Some hs -> exists h, In h hs /\ h <> "__proto__".

(** A record the CSV or XML processor makes of an item of
    [processedData]: a copy of the item, stamped with an id, a date, the
    source label and the name of the uploaded file. *)
Definition stamped (source originalname : string) (item record : jsval) : Prop :=
  exists o,
    record = JObj o /\
    field o "_source" = JStr source /\
    field o "_originalFile" = JStr originalname /\
    (exists id, field o "_id" = JStr id) /\
    (exists t, field o "_processedAt" = JDate t) /\
    forall k, ~ In k ["_id"; "_processedAt"; "_source"; "_originalFile"] ->
              lookup k o = lookup k (spread [] item).

(** An entry the CSV or XML processor makes of an entry of [errorLogs]. *)
Definition logged (source originalname : string) (log entry : jsval) : Prop :=
  exists o,
    entry = JObj o /\
    field o "type" = or_else (field (own_props log) "type") (JStr "processing_error") /\
    field o "_source" = JStr source /\
    field o "_originalFile" = JStr originalname /\
    forall k, ~ In k ["_timestamp"; "_source"; "_originalFile"; "type"] ->
              lookup k o = lookup k (spread [] log).

(** A value a property can be read off. *)
Definition defined (v : jsval) : Prop := v <> JNull /\ v <> JUndefined.

(** The widest truthy cell of a column, at least [start]: the loop over
    the rows in [autoSizeColumns]. *)
Definition widest `{Runtime} (rows : list object) (key : string) (start : nat) : nat :=
  fold_left
    (fun maxWidth row =>
       let cellValue := field row key in
       if truthy cellValue then
         let cellLength := strlen (to_string cellValue) in
         if (maxWidth <? cellLength)%nat then cellLength else maxWidth
       else maxWidth)
    rows start.

(** The options the upload route passes to [processFile]. *)
Definition route_options (req : UploadRoute.request) : object :=
  [ ("userId", UploadRoute.req_user_id req);
    ("uploadedBy", UploadRoute.req_ip req);
    ("specifiedFileType", field (UploadRoute.req_body req) "fileType");
    ("additionalOptions", JObj (UploadRoute.req_body req)) ].

(** A specified file type as a form field gives it: absent, or a string. *)
Definition form_field (v : jsval) : Prop := v = JUndefined \/ exists s, v = JStr s.

(** On this file the processor ends, and returns what the contract asks
    for when it returns. *)
Definition keeps_contract (process : processor -> upload -> object -> M jsval)
           (file : upload) (p : processor) : Prop :=
  forall metadata w,
    (exists r w', process p file metadata w = (Ok (to_js r), w')) \/
    (exists e w', process p file metadata w = (Throw e, w')).

(** A computation that returns or throws. *)
Definition settles {A} (r : outcome A * world) : Prop :=
  (exists a w', r = (Ok a, w')) \/ (exists e w', r = (Throw e, w')).

(** The entry the upload route adds to its reply when no record was
    extracted. *)
Definition no_data_extracted : jsval :=
  JObj [ ("type", JStr "NO_DATA_EXTRACTED");
         ("message", JStr "No valid data was extracted from the file");
         ("count", JNum 0) ].

(** The types the processors written in JavaScript and the dispatcher
    give to their error entries, and no type at all. *)
Definition local_error_type (type : jsval) : Prop :=
  truthy type = false \/ type = JStr "validation_error" \/ type = JStr "processing_error".




End Notions.

(* ================================================================== *)
(** * More of the concrete environment                                 *)
(* ================================================================== *)

Module Fixtures.
Import JS.

(** A store that takes every document, a disk that holds every file,
    and letters a-z as the only ones with a capital. *)
Definition capital (c : ascii) : ascii :=
  if in_range 97 122 c then ascii_of_nat (code c - 32) else c.

Fixpoint capitals (s : string) : string :=
  match s with
  | EmptyString => EmptyString
  | String c r => String (capital c) (capitals r)
  end.

#[export] Instance services : UploadRoute.Services := {|
  UploadRoute.ProcessedData_insertMany :=
    fun documents => UploadRoute.Inserted (JNum (Z.of_nat (List.length documents)));
  UploadRoute.ErrorLog_insertMany := fun _ => true;
  UploadRoute.existsSync := fun _ => true;
  UploadRoute.JSON_stringify := fun v => JStr (Sample.json v);
  UploadRoute.toUpperCase := capitals;
  UploadRoute.development := false
|}.

(** Scripts that fail: one exits with code 1, one cannot be started,
    one prints what is no JSON, one never exits. *)
Definition crashing : Script.ScriptHost := {|
  Script.script_path := fun name => "/app/backend/python_scripts/" ++ name;
  Script.spawn_python := fun _ _ => Script.Closed (JNum 1) "" "Traceback";
  Script.JSON_parse := fun _ => Ok JNull
|}.

Definition missing : Script.ScriptHost := {|
  Script.script_path := fun name => "/app/backend/python_scripts/" ++ name;
  Script.spawn_python := fun _ _ => Script.Failed "spawn python ENOENT";
  Script.JSON_parse := fun _ => Ok JNull
|}.

Definition garbled : Script.ScriptHost := {|
  Script.script_path := fun name => "/app/backend/python_scripts/" ++ name;
  Script.spawn_python := fun _ _ => Script.Closed (JNum 0) "Done." "";
  Script.JSON_parse := fun _ =>
    throw_error "Unexpected token 'D', 'Done.' is not valid JSON"
|}.

Definition stuck : Script.ScriptHost := {|
  Script.script_path := fun name => "/app/backend/python_scripts/" ++ name;
  Script.spawn_python := fun _ _ => Script.Running;
  Script.JSON_parse := fun _ => Ok JNull
|}.

(** Requests to the upload route: a spreadsheet, the same with a
    specified type that is no label, and a PDF that multer has not
    stored. *)
Definition stock_request : UploadRoute.request :=
  UploadRoute.mkRequest (Some Statements.stock_upload) [] (JStr "127.0.0.1") JUndefined.

Definition mislabelled_request : UploadRoute.request :=
  UploadRoute.mkRequest (Some Statements.stock_upload) [ ("fileType", JStr "docx") ]
                        (JStr "127.0.0.1") JUndefined.

Definition orphan_request : UploadRoute.request :=
  UploadRoute.mkRequest (Some Statements.orphan_pdf) [] (JStr "127.0.0.1") JUndefined.

(** A record as the Excel processor returns it, and the error entry of
    an empty row. *)
Definition stock_record : object :=
  [ ("item", JStr " bolt "); ("qty", JNum 12); ("tags", JArr [JStr " m8 "]);
    ("_sheet", JStr "Stock"); ("_row", JNum 2); ("_id", JStr "lox1");
    ("_processedAt", JDate 1700000000000) ].

Definition empty_row_entry : jsval :=
  JObj [ ("sheet", JStr "Stock"); ("row", JNum 4);
         ("data", JObj [ ("item", JNull); ("qty", JNull) ]);
         ("errors", JArr [JStr "Empty row"]);
         ("type", JStr "validation_error") ].

(** Two logs in the store, the second one resolved. *)
Definition open_log : ErrorLog.errorLog :=
  ErrorLog.create "65a1f0c2b7e4d83a9c0f1e2c" [ ("errorMessage", JStr "Empty row") ].

(** The text of a price list, a table of three columns, and a parser
    that finds it in every file. *)
Definition price_list_text : string :=
  "item   qty   unit" ++ Sample.LF ++ "bolt   12   box".

Definition price_list : Pdf.PdfLib := {|
  Pdf.readFileSync := Sample.disk;
  Pdf.pdf := fun _ => Ok (Pdf.mkPdfData price_list_text (JNum 1) JUndefined)
|}.

(** The text of a table whose columns are all headed [__proto__]. *)
Definition proto_table_text : string :=
  "__proto__   __proto__   __proto__" ++ Sample.LF ++ "bolt   12   box".

Definition proto_table : Pdf.PdfLib := {|
  Pdf.readFileSync := Sample.disk;
  Pdf.pdf := fun _ => Ok (Pdf.mkPdfData proto_table_text (JNum 1) JUndefined)
|}.



End Fixtures.

(* ================================================================== *)
(** * Properties                                                       *)
(* ================================================================== *)

Section Matcher.
Import JS Regex.

Lemma ahead_refl s : ahead 0 s s.
Proof. split; lia. Qed.

Lemma ahead_trans n1 n2 s1 s2 s3 :
  ahead n1 s1 s2 -> ahead n2 s2 s3 -> ahead (n1 + n2) s1 s3.
Proof. intros [A B] [C D]. split; lia. Qed.

(** A successful match ends in a state further into the input, strictly
    further when the pattern is consuming, and its result is what the
    continuation made of that state. *)
Lemma iterate_ahead (step : mstate -> (mstate -> option mstate) -> option mstate)
      (k : mstate -> option mstate) (c : bool) :
  (forall s k x,
      step s k = Some x ->
      exists n s', ahead n s s' /\ k s' = Some x /\ (c = true -> 0 < n)) ->
  forall fuel min s x,
    iterate step k fuel min s = Some x ->
    exists n s',
      ahead n s s' /\ k s' = Some x /\ ((0 <? min)%nat && c = true -> 0 < n).
Proof.
  intros Hstep. induction fuel as [|fuel IH]; intros min s x Hm; simpl in Hm.
  - destruct (Nat.eqb_spec min 0) as [->|_]; [|discriminate].
    exists 0, s. split; [apply ahead_refl|]. split; [exact Hm|].
    simpl. intros Hc; discriminate Hc.
  - match type of Hm with
    | match ?again with _ => _ end = _ => destruct again eqn:Hagain
    end.
    + injection Hm as ->.
      apply Hstep in Hagain as (n1 & s1 & H1 & Hk & C1).
      destruct ((min =? 0)%nat && (pos s1 =? pos s)%nat); [discriminate|].
      apply IH in Hk as (n2 & s2 & H2 & Hk & C2).
      exists (n1 + n2), s2. split; [eapply ahead_trans; eassumption|].
      split; [exact Hk|]. intros Hc. apply andb_prop in Hc as [_ Hc].
      apply C1 in Hc. lia.
    + destruct (Nat.eqb_spec min 0) as [->|_]; [|discriminate].
      exists 0, s. split; [apply ahead_refl|]. split; [exact Hm|].
      simpl. intros Hc; discriminate Hc.
Qed.

(** A successful match ends in a state further into the input, strictly
    further when the pattern is consuming, and its result is what the
    continuation made of that state. *)
Lemma m_ahead (r : re) :
  forall s k x,
    m r s k = Some x ->
    exists n s', ahead n s s' /\ k s' = Some x /\ (consuming r = true -> 0 < n).
Proof.
  induction r as [|p|a IHa b IHb|a IHa b IHb|min a IHa|i a IHa|ml|ml];
    intros s k x Hm; simpl in Hm.
  - exists 0, s. split; [apply ahead_refl|]. split; [exact Hm|simpl; intros Hc; discriminate Hc].
  - destruct (rest s) as [|c tl] eqn:Hr; [discriminate|].
    destruct (p c); [|discriminate].
    eexists 1, _. split; [|split; [exact Hm|lia]].
    split; simpl; [lia|rewrite Hr; reflexivity].
  - apply IHa in Hm as (n1 & s1 & H1 & Hm & C1).
    apply IHb in Hm as (n2 & s2 & H2 & Hm & C2).
    exists (n1 + n2), s2. split; [eapply ahead_trans; eassumption|]. split; [exact Hm|].
    simpl. intros Hc. apply orb_prop in Hc as [Hc|Hc]; [apply C1 in Hc|apply C2 in Hc]; lia.
  - destruct (m a s k) eqn:Ha.
    + injection Hm as ->. apply IHa in Ha as (n & s' & H1 & Hk & C).
      exists n, s'. split; [exact H1|]. split; [exact Hk|].
      simpl. intros Hc. apply andb_prop in Hc as [Hc _]. auto.
    + apply IHb in Hm as (n & s' & H1 & Hk & C).
      exists n, s'. split; [exact H1|]. split; [exact Hk|].
      simpl. intros Hc. apply andb_prop in Hc as [_ Hc]. auto.
  - apply (iterate_ahead (m a) k (consuming a) IHa) in Hm. exact Hm.
  - apply IHa in Hm as (n & s' & H1 & Hk & C).
    exists n, (close_group i (pos s) s'). split; [exact H1|]. split; [exact Hk|exact C].
  - destruct (at_bol ml s); [|discriminate].
    exists 0, s. split; [apply ahead_refl|]. split; [exact Hm|simpl; intros Hc; discriminate Hc].
  - destruct (at_eol ml s); [|discriminate].
    exists 0, s. split; [apply ahead_refl|]. split; [exact Hm|simpl; intros Hc; discriminate Hc].
Qed.

Lemma search_at_ahead (r : re) (l : list ascii) :
  forall pv p f,
    search_at r pv l p = Some f ->
    exists skipped n,
      index f = p + skipped /\
      pos (final f) = index f + n /\
      List.length l = skipped + n + List.length (rest (final f)) /\
      (consuming r = true -> 0 < n).
Proof.
  induction l as [|c l IH]; intros pv p f Hs; simpl in Hs.
  - destruct (m r _ Some) as [s'|] eqn:Hm; [|discriminate].
    injection Hs as <-. apply m_ahead in Hm as (n & s1 & [A B] & [= ->] & C).
    simpl in *. exists 0, n. split; [lia|]. split; [lia|]. split; [lia|exact C].
  - destruct (m r _ Some) as [s'|] eqn:Hm.
    + injection Hs as <-. apply m_ahead in Hm as (n & s1 & [A B] & [= ->] & C).
      simpl in *. exists 0, n. split; [lia|]. split; [lia|]. split; [lia|exact C].
    + apply IH in Hs as (skipped & n & A & B & C & D).
      exists (S skipped), n. split; [lia|]. split; [lia|]. split; [simpl; lia|exact D].
Qed.

(** The scan of a consuming pattern comes to an end. *)
Lemma exec_loop_total (r : re) :
  consuming r = true ->
  forall fuel s,
    List.length (rest s) < fuel ->
    exists fs, exec_loop fuel r s = Ok fs.
Proof.
  intros Hc. induction fuel as [|fuel IH]; intros s Hlt; [lia|]. simpl.
  unfold search. destruct (search_at r _ _ _) as [f|] eqn:Hs; [|eexists; reflexivity].
  apply search_at_ahead in Hs as (skipped & n & A & B & C & D).
  specialize (D Hc).
  destruct (Nat.eqb_spec (pos (final f)) (index f)) as [E|_]; [lia|].
  destruct (IH (final f)) as [fs ->]; [lia|].
  eexists; reflexivity.
Qed.

Lemma exec_all_total (r : re) (text : string) :
  consuming r = true -> exists fs, exec_all r text = Ok fs.
Proof.
  intros Hc. apply exec_loop_total; [exact Hc|].
  simpl. unfold strlen, chars.
  assert (E : forall t, List.length (list_ascii_of_string t) = String.length t).
  { induction t; simpl; congruence. }
  rewrite E. lia.
Qed.

End Matcher.

Section Extraction.
Import JS Regex Contract.

(** The three heuristics of the PDF processor return on every text. *)
Lemma extractDataFromPDF_total (d : Pdf.pdfData) :
  exists items, Pdf.extractDataFromPDF d = Ok items /\ items <> [].
Proof.
  unfold Pdf.extractDataFromPDF, Pdf.extractKeyValuePairs, Pdf.extractFormData.
  destruct (exec_all_total Pdf.keyValuePattern (Pdf.text d) eq_refl) as [kv ->].
  destruct (exec_all_total Pdf.formPattern (Pdf.text d) eq_refl) as [fm ->].
  simpl. eexists. split; [reflexivity|].
  match goal with |- (if ?c then _ else _) <> _ => destruct c eqn:E end;
    [discriminate|].
  intros E'. rewrite E' in E. discriminate.
Qed.

Lemma extractDataFromOCR_total (text : string) :
  exists items, Image.extractDataFromOCR text = Ok items.
Proof.
  unfold Image.extractDataFromOCR, Image.extractFormFromOCR, Image.extractKeyValueFromOCR,
    Image.patterns, Image.scan_pattern.
  simpl fold_left.
  repeat match goal with
         | |- context [exec_all ?p text] =>
             let fs := fresh "fs" in
             destruct (exec_all_total p text eq_refl) as [fs ->]; simpl bindO
         end.
  eexists; reflexivity.
Qed.

End Extraction.


Section RegistryProperties.
Import JS Registry Statements.

Lemma toLowerCase_idempotent (s : string) :
  toLowerCase (toLowerCase s) = toLowerCase s.
Proof.
  induction s as [|c s IH]; simpl; [reflexivity|].
  rewrite IH. f_equal.
  destruct c as [[] [] [] [] [] [] [] []]; reflexivity.
Qed.

Lemma by_label_canonical (label : string) (p : processor) :
  In (label, p) canonical_labels -> by_label (toLowerCase label) = Some p.
Proof.
  unfold canonical_labels. simpl.
  intros [E|[E|[E|[E|[E|[]]]]]]; inversion E; subst; reflexivity.
Qed.

(** C2.  A specified type that is a non-empty string and equals one of
    the five labels 'csv', 'excel', 'xml', 'pdf', 'image' up to letter
    case selects that label's processor, whatever the MIME type and the
    file name are. *)
Theorem getProcessor_specified_type_overrides
        (mimeType filename : option string) (specifiedType label : string)
        (p : processor) :
  specifiedType <> "" ->
  In (label, p) canonical_labels ->
  toLowerCase specifiedType = toLowerCase label ->
  getProcessor mimeType filename (JStr specifiedType) = Ok (Some (Proc p)).
Proof.
  intros Hne Hin Hci.
  unfold getProcessor. simpl.
  destruct (String.eqb_spec specifiedType "") as [E|_]; [contradiction|].
  simpl. rewrite Hci, (by_label_canonical _ _ Hin). reflexivity.
Qed.

(** Scenario C of the specification: declared MIME [application/pdf],
    specified type [CSV]. *)
Lemma getProcessor_specified_type_overrides_witness :
  getProcessor (Some "application/pdf") (Some "report.pdf") (JStr "CSV")
  = Ok (Some (Proc csvProcessor)).
Proof.
  apply (getProcessor_specified_type_overrides _ _ "CSV" "csv" csvProcessor).
  - discriminate.
  - simpl. auto.
  - reflexivity.
Defined.

Lemma getProcessor_undecided mimeType filename specifiedType :
  undecided specifiedType ->
  getProcessor mimeType filename specifiedType
  = Ok (detect_processor mimeType filename).
Proof.
  intros [Hf|(s & -> & Hs)]; unfold getProcessor.
  - rewrite Hf. reflexivity.
  - rewrite Hs. destruct (truthy (JStr s)); reflexivity.
Qed.




End RegistryProperties.

Section ObjectLemmas.
Import JS.

Lemma has_own_In (k : string) (o : object) :
  has_own k o = true <-> In k (keys o).
Proof.
  unfold has_own. induction o as [|[k0 v0] o IH]; simpl.
  - split; [discriminate|tauto].
  - destruct (String.eqb_spec k0 k) as [->|N].
    + split; auto.
    + rewrite IH. split; [auto|]. intros [E|I]; [contradiction|exact I].
Qed.

Lemma lookup_None_keys (k : string) (o : object) :
  ~ In k (keys o) -> lookup k o = None.
Proof.
  intros Hn. destruct (lookup k o) eqn:E; [|reflexivity].
  exfalso. apply Hn. apply has_own_In. unfold has_own. rewrite E. reflexivity.
Qed.

Lemma lookup_replace (k k' : string) (v : jsval) (o : object) :
  has_own k' o = true ->
  lookup k (replace k' v o) = if k' =? k then Some v else lookup k o.
Proof.
  unfold has_own. induction o as [|[k0 v0] o IH]; simpl; [discriminate|].
  destruct (String.eqb_spec k0 k') as [->|Hne]; simpl; intros Hown.
  - destruct (k' =? k); reflexivity.
  - rewrite (IH Hown).
    destruct (String.eqb_spec k0 k) as [->|_]; [|reflexivity].
    destruct (String.eqb_spec k' k) as [->|_]; [contradiction|reflexivity].
Qed.

Lemma lookup_insert (k k' : string) (v : jsval) (o : object) :
  has_own k' o = false ->
  lookup k (insert k' v o) = if k' =? k then Some v else lookup k o.
Proof.
  unfold has_own. induction o as [|[k0 v0] o IH]; simpl.
  - reflexivity.
  - destruct (String.eqb_spec k0 k') as [->|Hne]; [discriminate|]. intros Hown.
    destruct (goes_before k' k0); simpl; [reflexivity|].
    rewrite (IH Hown).
    destruct (String.eqb_spec k0 k) as [->|_]; [|reflexivity].
    destruct (String.eqb_spec k' k) as [->|_]; [contradiction|reflexivity].
Qed.

Lemma lookup_set (k k' : string) (v : jsval) (o : object) :
  lookup k (set k' v o) = if k' =? k then Some v else lookup k o.
Proof.
  unfold set. destruct (has_own k' o) eqn:E;
    [apply lookup_replace|apply lookup_insert]; exact E.
Qed.

Lemma keys_replace (k : string) (v : jsval) (o : object) :
  keys (replace k v o) = keys o.
Proof.
  induction o as [|[k0 v0] o IH]; simpl; [reflexivity|].
  destruct (k0 =? k); simpl; [reflexivity|]. rewrite IH. reflexivity.
Qed.

Lemma keys_insert (x k : string) (v : jsval) (o : object) :
  In x (keys (insert k v o)) <-> x = k \/ In x (keys o).
Proof.
  induction o as [|[k0 v0] o IH]; simpl.
  - intuition.
  - destruct (goes_before k k0); simpl; [intuition|]. rewrite IH. intuition.
Qed.

Lemma keys_set (x k : string) (v : jsval) (o : object) :
  In x (keys (set k v o)) <-> x = k \/ In x (keys o).
Proof.
  unfold set. destruct (has_own k o) eqn:E.
  - rewrite keys_replace. apply has_own_In in E. split; [auto|].
    intros [->|Hx]; assumption.
  - apply keys_insert.
Qed.

Lemma has_own_set (x k : string) (v : jsval) (o : object) :
  has_own x (set k v o) = (k =? x) || has_own x o.
Proof.
  unfold has_own. rewrite lookup_set. destruct (k =? x); [reflexivity|].
  destruct (lookup x o); reflexivity.
Qed.

Lemma NoDup_insert (k : string) (v : jsval) (o : object) :
  ~ In k (keys o) -> NoDup (keys o) -> NoDup (keys (insert k v o)).
Proof.
  induction o as [|[k0 v0] o IH]; simpl; intros Hn Hnd.
  - constructor; [tauto|constructor].
  - destruct (goes_before k k0); simpl.
    + constructor; [exact Hn|exact Hnd].
    + inversion Hnd as [|? ? Hk0 Hnd']; subst. constructor.
      * intros Hin. apply keys_insert in Hin as [->|Hin]; tauto.
      * apply IH; tauto.
Qed.

Lemma NoDup_set (k : string) (v : jsval) (o : object) :
  NoDup (keys o) -> NoDup (keys (set k v o)).
Proof.
  intros Hnd. unfold set. destruct (has_own k o) eqn:E.
  - rewrite keys_replace. exact Hnd.
  - apply NoDup_insert; [|exact Hnd]. intros Hin. apply has_own_In in Hin. congruence.
Qed.

Lemma replace_entries (k : string) (v : jsval) (o : object) (P : string * jsval -> Prop) :
  Forall P o -> P (k, v) -> Forall P (replace k v o).
Proof.
  intros Ho Hk. induction Ho as [|[k0 v0] o Hx Ho IH]; simpl; [constructor|].
  destruct (String.eqb_spec k0 k) as [->|N]; constructor; auto.
Qed.

Lemma insert_entries (k : string) (v : jsval) (o : object) (P : string * jsval -> Prop) :
  Forall P o -> P (k, v) -> Forall P (insert k v o).
Proof.
  intros Ho Hk. induction Ho as [|[k0 v0] o Hx Ho IH]; simpl.
  - constructor; [exact Hk|constructor].
  - destruct (goes_before k k0); repeat constructor; auto.
Qed.

Lemma set_entries (k : string) (v : jsval) (o : object) (P : string * jsval -> Prop) :
  Forall P o -> P (k, v) -> Forall P (set k v o).
Proof.
  intros Ho Hk. unfold set.
  destruct (has_own k o); [apply replace_entries|apply insert_entries]; assumption.
Qed.

(** ** The order of enumeration *)

Lemma goes_before_irrefl (k : string) : goes_before k k = false.
Proof.
  unfold goes_before. destruct (index_of k); [apply N.ltb_irrefl|reflexivity].
Qed.

Lemma goes_before_asym (a b : string) :
  goes_before a b = true -> goes_before b a = false.
Proof.
  unfold goes_before. destruct (index_of a), (index_of b); try discriminate; auto.
  intros Hlt. apply N.ltb_lt in Hlt. apply N.ltb_ge. lia.
Qed.

(** A key that does not go before [b] does not go before a key that goes
    before [b]. *)
Lemma goes_before_behind (a b c : string) :
  goes_before c b = false -> goes_before a b = true -> goes_before c a = false.
Proof.
  unfold goes_before.
  destruct (index_of a) as [i|], (index_of b) as [j|], (index_of c) as [m|];
    try discriminate; auto.
  intros Hc Ha. apply N.ltb_ge in Hc. apply N.ltb_lt in Ha. apply N.ltb_ge. lia.
Qed.

Lemma ordered_insert (k : string) (v : jsval) (o : object) :
  ordered (keys o) -> ordered (keys (insert k v o)).
Proof.
  induction o as [|[k0 v0] o IH]; simpl; [auto|]. intros [Hall Hord].
  destruct (goes_before k k0) eqn:E; simpl.
  - split; [|split; assumption]. constructor; [apply goes_before_asym; exact E|].
    eapply Forall_impl; [|exact Hall]. simpl. intros c Hc.
    eapply goes_before_behind; eassumption.
  - split; [|apply IH; exact Hord].
    apply Forall_forall. intros c Hc. apply keys_insert in Hc as [->|Hc]; [exact E|].
    rewrite Forall_forall in Hall. apply Hall. exact Hc.
Qed.

Lemma ordered_set (k : string) (v : jsval) (o : object) :
  ordered (keys o) -> ordered (keys (set k v o)).
Proof.
  intros Hord. unfold set. destruct (has_own k o).
  - rewrite keys_replace. exact Hord.
  - apply ordered_insert. exact Hord.
Qed.

Lemma ordered_app (l r : list string) :
  ordered (l ++ r)%list -> ordered l /\ ordered r.
Proof.
  induction l as [|a l IH]; simpl; [auto|]. intros [Hall Hord].
  apply Forall_app in Hall as [Hl Hr]. destruct (IH Hord) as [Hol Hor]. auto.
Qed.

(** A new key that the order puts last is appended. *)
Lemma insert_last (k : string) (v : jsval) (o : object) :
  ordered (keys (o ++ [(k, v)])%list) -> insert k v o = (o ++ [(k, v)])%list.
Proof.
  induction o as [|[k0 v0] o IH]; simpl; [reflexivity|]. intros [Hall Hord].
  unfold keys in Hall. rewrite map_app in Hall. apply Forall_app in Hall as [_ Hk].
  inversion Hk as [|? ? Hlast _]; subst. simpl in Hlast. rewrite Hlast.
  rewrite (IH Hord). reflexivity.
Qed.

Lemma set_last (k : string) (v : jsval) (o : object) :
  ~ In k (keys o) -> ordered (keys (o ++ [(k, v)])%list) -> set k v o = (o ++ [(k, v)])%list.
Proof.
  intros Hn Hord. unfold set. destruct (has_own k o) eqn:E.
  - apply has_own_In in E. contradiction.
  - apply insert_last. exact Hord.
Qed.

(** A key that is no array index is appended. *)
Lemma index_of_goes_before (k k' : string) : index_of k = None -> goes_before k k' = false.
Proof. unfold goes_before. intros ->. reflexivity. Qed.

Lemma insert_named (k : string) (v : jsval) (o : object) :
  index_of k = None -> insert k v o = (o ++ [(k, v)])%list.
Proof.
  intros Hk. induction o as [|[k0 v0] o IH]; simpl; [reflexivity|].
  rewrite (index_of_goes_before k k0 Hk), IH. reflexivity.
Qed.

Lemma set_fresh (k : string) (v : jsval) (o : object) :
  index_of k = None -> ~ In k (keys o) -> set k v o = (o ++ [(k, v)])%list.
Proof.
  intros Hk Hn. unfold set. destruct (has_own k o) eqn:E.
  - apply has_own_In in E. contradiction.
  - apply insert_named. exact Hk.
Qed.

(** A property holds of the value under [k] after an assignment when it
    held before and holds of every value the source binds to [k]. *)
Lemma lookup_assign_invariant (P : jsval -> Prop) (k : string) (source target : object) :
  (exists v, lookup k target = Some v /\ P v) ->
  (forall v, In (k, v) source -> P v) ->
  exists v, lookup k (assign target source) = Some v /\ P v.
Proof.
  unfold assign. revert target.
  induction source as [|[k0 v0] source IH]; intros target Ht Hs; simpl.
  - exact Ht.
  - apply IH.
    + rewrite lookup_set. simpl.
      destruct (String.eqb_spec k0 k) as [->|_].
      * exists v0. split; [reflexivity|]. apply Hs. left; reflexivity.
      * exact Ht.
    + intros v Hin. apply Hs. right; exact Hin.
Qed.

(** ** Assignments *)

Lemma put_named (k : string) (v : jsval) (b : built) :
  k <> "__proto__" -> put k v b = mkBuilt (set k v (own b)) (prototype b).
Proof.
  intros Hk. unfold put. destruct (String.eqb_spec k "__proto__"); [contradiction|reflexivity].
Qed.


(** An assignment whose value is no object and not [null] leaves the
    prototype alone, and stores nothing under [__proto__] when that
    reaches the accessor. *)
Lemma put_primitive (k : string) (v : jsval) (b : built) :
  typeof_object v = false ->
  prototype (put k v b) = prototype b /\
  own (put k v b)
  = if (k =? "__proto__") && reaches_setter b then own b else set k v (own b).
Proof.
  intros Hv. unfold put.
  destruct ((k =? "__proto__") && reaches_setter b); [|split; reflexivity].
  destruct v; try discriminate Hv; split; reflexivity.
Qed.

End ObjectLemmas.


Section DispatcherProperties.
Import JS Registry Statements.
Local Open Scope js_scope.
Context `{Runtime}.
Variable process : processor -> upload -> object -> M jsval.

(** When the options do not replace [processedAt] by something that is
    not a date, a throwing processor yields the failure envelope, whose
    single error entry carries the thrown message. *)
Lemma processFile_catches (file : upload) (options : object) (h : handler)
      (e : jserror) (w : world) :
  getProcessor (Some (mimetype file)) (Some (originalname file))
               (field options "specifiedFileType") = Ok (Some h) ->
  (forall v, In ("processedAt", v) options -> exists t, v = JDate t) ->
  (forall metadata w1, exists w2, invoke process h file metadata w1 = (Throw e, w2)) ->
  exists env w',
    processFile process file options w = (Ok env, w') /\
    failure_envelope env (emessage e).
Proof.
  intros Hres Hopts Hthrows.
  unfold processFile. unfold bind at 1. unfold lift at 1. rewrite Hres.
  unfold bind at 1. unfold new_Date, bind at 1, Date_now, ret.
  set (metadata := spread _ _).
  unfold try_catchM. unfold bind at 1. unfold bind at 1.
  match goal with
  | |- context [invoke process h file metadata ?w1] =>
      destruct (Hthrows metadata w1) as (w2 & He); rewrite He
  end.
  assert (Hdate : exists v, lookup "processedAt" metadata = Some v /\ exists t, v = JDate t).
  { subst metadata. unfold spread. apply lookup_assign_invariant.
    - eexists. split; [reflexivity|]. eexists; reflexivity.
    - exact Hopts. }
  destruct Hdate as (v & Hv & t & ->).
  unfold bind, lift, field. rewrite Hv. simpl.
  eexists _, _. split; [reflexivity|].
  unfold failure_envelope. simpl. repeat split. eexists; reflexivity.
Qed.

End DispatcherProperties.

Section DispatcherFault.
Import JS Registry Sample Statements.

(** C1, at the input where it fails.  The upload resolves to the PDF
    processor, the PDF processor throws, and [processFile] does not
    return the failure envelope: the options have overwritten
    [metadata.processedAt] with a string, so the [catch] block itself
    throws a [TypeError]. *)
Theorem processFile_faults_in_catch :
  getProcessor (Some (mimetype orphan_pdf)) (Some (originalname orphan_pdf))
               (field stamped_options "specifiedFileType")
  = Ok (Some (Proc pdfProcessor)) /\
  (forall metadata w,
      fst (App.process pdfProcessor orphan_pdf metadata w)
      = Throw (mkError PlainError "PDF processing failed: No file data provided")) /\
  fst (App.processFile orphan_pdf stamped_options w0)
  = Throw (mkError TypeError "metadata.processedAt.getTime is not a function").
Proof.
  split; [reflexivity|]. split.
  - intros metadata w. reflexivity.
  - vm_compute. reflexivity.
Qed.

(** The same upload with no options is answered with the envelope. *)
Lemma processFile_orphan_pdf_envelope :
  exists env w',
    App.processFile orphan_pdf [] w0 = (Ok env, w') /\
    failure_envelope env "PDF processing failed: No file data provided".
Proof.
  eexists _, _. split; [vm_compute; reflexivity|].
  unfold failure_envelope. simpl. repeat split. eexists; reflexivity.
Qed.

End DispatcherFault.

Section ErrorLogProperties.
Import JS ErrorLog Statements.

Lemma findByIdAndUpdate_found (id : string) (u : update) (logs : collection)
      (log : errorLog) :
  findById id logs = Some log ->
  exists logs',
    findByIdAndUpdate id u logs = (Some (apply_update u log), logs') /\
    findById id logs' = Some (apply_update u log).
Proof.
  induction logs as [|l logs IH]; simpl; [discriminate|].
  destruct (String.eqb_spec (_id l) id) as [E|N].
  - intros [= ->]. eexists. split; [reflexivity|].
    simpl. rewrite E, String.eqb_refl. reflexivity.
  - intros Hf. destruct (IH Hf) as (logs' & -> & Hl).
    eexists. split; [reflexivity|].
    simpl. destruct (String.eqb_spec (_id l) id); [contradiction|]. exact Hl.
Qed.

(** C9, as the route behaves.  A request naming one of the three statuses
    sets the stored log to that status whatever its status was, so a
    resolved or ignored log can be reopened; a request naming anything
    else is refused and changes nothing. *)
Theorem patch_status_sets_any_valid_status
        `{Runtime} `{Store} (id : string) (b : body) (logs : collection)
        (log : errorLog) (w : world) :
  castable id = true ->
  findById id logs = Some log ->
  (forall target, valid_status (req_status b) = Some target ->
     exists r logs' log' w',
       patch_status id b logs w = (Ok (r, logs'), w') /\
       code r = 200 /\
       findById id logs' = Some log' /\
       log_status log' = target) /\
  (valid_status (req_status b) = None ->
     exists r, patch_status id b logs w = (Ok (r, logs), w) /\ code r = 400).
Proof.
  intros Hid Hfind. split.
  - intros target Hv. unfold patch_status. rewrite Hv.
    destruct target; unfold bind, Date_now, ret; simpl; rewrite Hid; simpl;
      match goal with
      | |- context [findByIdAndUpdate id ?u logs] =>
          destruct (findByIdAndUpdate_found id u logs log Hfind) as (logs' & -> & Hl)
      end;
      eexists _, _, _, _; (split; [reflexivity|]); simpl;
      (split; [reflexivity|]); (split; [exact Hl|reflexivity]).
  - intros Hv. unfold patch_status. rewrite Hv. eexists. split; reflexivity.
Qed.

Lemma patch_status_sets_any_valid_status_witness :
  exists r logs' log' w',
    @patch_status Sample.runtime Sample.store
      "65a1f0c2b7e4d83a9c0f1e2d" reopen [resolved_log] Sample.w0
    = (Ok (r, logs'), w') /\
    code r = 200 /\
    findById "65a1f0c2b7e4d83a9c0f1e2d" logs' = Some log' /\
    log_status log' = UNRESOLVED.
Proof.
  apply (patch_status_sets_any_valid_status
           "65a1f0c2b7e4d83a9c0f1e2d" reopen [resolved_log] resolved_log Sample.w0);
    reflexivity.
Defined.

(** C9 as stated fails: a log that is RESOLVED is UNRESOLVED again after
    one status update. *)
Lemma resolved_log_is_reopened :
  log_status resolved_log = RESOLVED /\
  exists r w',
    @patch_status Sample.runtime Sample.store
      "65a1f0c2b7e4d83a9c0f1e2d" reopen [resolved_log] Sample.w0
    = (Ok (r, [ mkLog "65a1f0c2b7e4d83a9c0f1e2d" UNRESOLVED
                      (Some 1699999999000%Z) (Some "ops") None
                      (report resolved_log) ]), w').
Proof.
  split; [reflexivity|]. eexists _, _. vm_compute. reflexivity.
Qed.

End ErrorLogProperties.

Section ExportProperties.
Import JS Exporter Statements.

Lemma no_rows_refused (data : jsval) :
  no_rows data -> nothing_to_export data = true.
Proof.
  intros [Hna | ->]; unfold nothing_to_export.
  - rewrite Hna. reflexivity.
  - reflexivity.
Qed.

Lemma some_rows_accepted (data : jsval) :
  ~ no_rows data -> nothing_to_export data = false.
Proof.
  intros Hn. unfold nothing_to_export, no_rows in *.
  destruct data as [| | | | | |[|x xs]|]; simpl; try reflexivity;
    exfalso; apply Hn; auto.
Qed.

(** C7, as the three functions behave.  [exportToCSV] and [exportToExcel]
    throw when the input is not an array or is the empty array;
    [exportToJSON] throws only when the input is not an array and returns a
    result for every array, the empty one included; on a non-empty array
    [exportToCSV] and [exportToExcel] return their result whenever
    flattening the items and the library's writer succeed. *)
Theorem export_guards `{Runtime} `{ExportLib}
        (data : jsval) (filename sheetName : string) (pretty : bool) :
  (no_rows data ->
     exportToCSV data filename
     = throw_error "CSV export failed: No data to export" /\
     exportToExcel data filename sheetName
     = throw_error "Excel export failed: No data to export") /\
  (isArray data = false ->
     exportToJSON data filename pretty
     = throw_error "JSON export failed: Data must be an array") /\
  (isArray data = true ->
     exportToJSON data filename pretty
     = Ok {| data := JSON_stringify pretty data;
             filename := filename ++ ".json";
             mimeType := "application/json" |}) /\
  (~ no_rows data ->
     forall rows, flatten_all (elements data) = Ok rows ->
       (forall csv, json2csv_parse (getAllFields rows) rows = Ok csv ->
          exportToCSV data filename
          = Ok {| data := csv; filename := filename ++ ".csv"; mimeType := "text/csv" |}) /\
       (forall buffer,
          xlsx_write_sheet rows (autoSizeColumns rows) sheetName = Ok buffer ->
          exportToExcel data filename sheetName
          = Ok {| data := buffer;
                  filename := filename ++ ".xlsx";
                  mimeType :=
                    "application/vnd.openxmlformats-officedocument.spreadsheetml.sheet" |})).
Proof.
  split; [|split; [|split]].
  - intros Hno. split.
    + unfold exportToCSV. rewrite (no_rows_refused _ Hno). reflexivity.
    + unfold exportToExcel. rewrite (no_rows_refused _ Hno). reflexivity.
  - intros Hna. unfold exportToJSON. rewrite Hna. reflexivity.
  - intros Ha. unfold exportToJSON. rewrite Ha. reflexivity.
  - intros Hsome rows Hrows. split.
    + intros csv Hcsv. unfold exportToCSV.
      rewrite (some_rows_accepted _ Hsome), Hrows. simpl. rewrite Hcsv. reflexivity.
    + intros buffer Hb. unfold exportToExcel.
      rewrite (some_rows_accepted _ Hsome), Hrows. simpl. rewrite Hb. reflexivity.
Qed.

Lemma export_guards_witness :
  @exportToCSV Sample.runtime Sample.exportlib (JStr "rows") "export"
  = throw_error "CSV export failed: No data to export" /\
  @exportToJSON Sample.exportlib JNull "export" true
  = throw_error "JSON export failed: Data must be an array" /\
  @exportToJSON Sample.exportlib (JArr [JNum 1]) "export" true
  = Ok {| data := "[1]"; filename := "export.json"; mimeType := "application/json" |} /\
  @exportToCSV Sample.runtime Sample.exportlib
     (JArr [JObj [("a", JObj [("b", JNum 1)])]]) "export"
  = Ok {| data := "a.b"; filename := "export.csv"; mimeType := "text/csv" |}.
Proof.
  split; [|split; [|split]].
  - apply (@export_guards Sample.runtime Sample.exportlib (JStr "rows") "export" "Data" true).
    left; reflexivity.
  - apply (@export_guards Sample.runtime Sample.exportlib JNull "export" "Data" true).
    reflexivity.
  - apply (@export_guards Sample.runtime Sample.exportlib (JArr [JNum 1]) "export" "Data" true).
    reflexivity.
  - apply (@export_guards Sample.runtime Sample.exportlib
             (JArr [JObj [("a", JObj [("b", JNum 1)])]]) "export" "Data" true)
      with (rows := [[("a.b", JNum 1)]]).
    + intros [Hc | Hc]; discriminate.
    + reflexivity.
    + reflexivity.
Defined.

(** C7 as stated fails: given the empty array, [exportToJSON] does not
    throw but returns a result. *)
Lemma exportToJSON_accepts_empty_array :
  @exportToJSON Sample.exportlib (JArr []) "export" true
  = Ok {| data := "[]"; filename := "export.json"; mimeType := "application/json" |}.
Proof. reflexivity. Qed.

End ExportProperties.

Section ExcelProperties.
Import JS Registry Contract Excel Statements.

(** C5, at the input where it fails.  The sheet has the header row
    [item, qty] and three rows: [bolt, 12], [(empty), 0] and an empty one.
    The second row has a field that is not empty, the number 0, yet its
    record is [{item: null, qty: null}] and it is rejected as an empty
    row like the third: [row[colIndex] || null] turns the 0 into [null]
    before the validator looks at it. *)
Theorem excel_row_with_zero_is_rejected :
  Excel.cell [JNull; JNum 0] 1 = JNum 0 /\
  Excel.is_data (JNum 0) = true /\
  @build_record Sample.runtime [JStr "item"; JStr "qty"] [JNull; JNum 0]
  = [ ("item", JNull); ("qty", JNull) ] /\
  exists r w',
    @Excel.process Sample.runtime Sample.excellib stock_upload [] Sample.w0 = (Ok r, w') /\
    map (fun record => extracted_fields record) (data r)
    = [ [ ("item", JStr "bolt"); ("qty", JNum 12) ] ] /\
    errors r
    = [ JObj [ ("sheet", JStr "Stock"); ("row", JNum 3);
               ("data", JObj [ ("item", JNull); ("qty", JNull) ]);
               ("errors", JArr [JStr "Empty row"]);
               ("type", JStr "validation_error") ];
        JObj [ ("sheet", JStr "Stock"); ("row", JNum 4);
               ("data", JObj [ ("item", JNull); ("qty", JNull) ]);
               ("errors", JArr [JStr "Empty row"]);
               ("type", JStr "validation_error") ] ].
Proof.
  repeat split.
  eexists _, _. split; [vm_compute; reflexivity|].
  split; reflexivity.
Qed.

(** A cell counts as data in the record exactly when it is truthy: the
    record holds [null] in place of [0], [false] and the empty string as
    it does in place of a missing cell. *)
Lemma record_field_is_data (row : list jsval) (colIndex : nat) :
  Excel.is_data (or_else (Excel.cell row colIndex) JNull)
  = truthy (Excel.cell row colIndex).
Proof.
  unfold or_else. destruct (Excel.cell row colIndex) as [| |[|]|n|s| | |]; simpl;
    try reflexivity.
  - destruct (n =? 0)%Z; reflexivity.
  - destruct s; reflexivity.
Qed.

(** What the validator decides, in terms of the record it is given: the
    record is accepted exactly when one of its values is neither [null]
    nor [undefined] nor the empty string. *)
Lemma validateExcelRecord_spec (record : object) (sheetName : string) (rowNumber : nat) :
  isValid (validateExcelRecord record sheetName rowNumber)
  = existsb is_data (values record).
Proof.
  unfold validateExcelRecord.
  destruct (existsb is_data (values record)); reflexivity.
Qed.

End ExcelProperties.

Section PdfProperties.
Import JS Registry Contract Pdf Statements.

Lemma scenario_B_extraction (pages information : jsval) :
  extractDataFromPDF (mkPdfData Sample.scenario_B_text pages information)
  = Ok [ JObj [ ("name", JStr "John"); ("age", JStr "30") ];
         JObj [ ("name", JStr ("John" ++ Sample.LF ++ "Age")) ] ].
Proof. vm_compute. reflexivity. Qed.

(** C6, as the processor behaves.  For a PDF whose text is the two lines
    [Name: John] and [Age: 30], [data] holds two records and [errors] is
    empty.  The first record is the one of the key-value heuristic: its
    extracted fields are [name: John] and [age: 30], and the processor
    has added [_id], [_processedAt] and [_index = 0].  The second record
    comes from the form heuristic, which runs on the same text. *)
Theorem pdf_scenario_B `{Runtime} `{PdfLib}
        (file : upload) (metadata : object) (w : world) (bytes : string) (d : pdfData) :
  read_upload readFileSync (path file) (buffer file) = Ok bytes ->
  pdf bytes = Ok d ->
  text d = Sample.scenario_B_text ->
  exists first second w',
    process file metadata w
    = (Ok {| data := [first; second];
             errors := [];
             metadata :=
               [ ("pages", numpages d); ("textLength", JNum 18);
                 ("totalItems", JNum 2); ("validItems", JNum 2);
                 ("errorItems", JNum 0); ("info", or_else (info d) (JObj [])) ] |},
       w') /\
    extracted_fields first = [ ("name", JStr "John"); ("age", JStr "30") ] /\
    field (own_props first) "_index" = JNum 0 /\
    field (own_props second) "_index" = JNum 1.
Proof.
  intros Hread Hpdf Htext.
  destruct d as [t pages information]. simpl in Htext. subst t.
  unfold process, rethrow, try_catchM, bind, lift.
  rewrite Hread, Hpdf, scenario_B_extraction.
  simpl.
  eexists _, _, _. split; [reflexivity|].
  repeat split.
Qed.

Lemma pdf_scenario_B_witness :
  exists first second w',
    @process Sample.runtime Sample.pdflib scenario_B_upload [] Sample.w0
    = (Ok {| data := [first; second];
             errors := [];
             metadata :=
               [ ("pages", JNum 1); ("textLength", JNum 18);
                 ("totalItems", JNum 2); ("validItems", JNum 2);
                 ("errorItems", JNum 0); ("info", JObj []) ] |},
       w') /\
    extracted_fields first = [ ("name", JStr "John"); ("age", JStr "30") ] /\
    field (own_props first) "_index" = JNum 0 /\
    field (own_props second) "_index" = JNum 1.
Proof.
  apply (@pdf_scenario_B Sample.runtime Sample.pdflib scenario_B_upload []
           Sample.w0 "<uploads/scenario-b.pdf>"
           (mkPdfData Sample.scenario_B_text (JNum 1) JUndefined)).
  - reflexivity.
  - reflexivity.
  - reflexivity.
Defined.

(** C6 as stated fails: [data] does not consist of exactly one record. *)
Lemma pdf_scenario_B_has_two_records :
  exists r w',
    @process Sample.runtime Sample.pdflib scenario_B_upload [] Sample.w0 = (Ok r, w') /\
    List.length (data r) = 2 /\
    map extracted_fields (data r)
    = [ [ ("name", JStr "John"); ("age", JStr "30") ];
        [ ("name", JStr ("John" ++ Sample.LF ++ "Age")) ] ] /\
    errors r = [].
Proof.
  eexists _, _. split; [vm_compute; reflexivity|]. repeat split.
Qed.

End PdfProperties.

Section MonadLemmas.
Import JS Contract.

Lemma bind_Ok {A B} (m : M A) (f : A -> M B) (w w' : world) (b : B) :
  bind m f w = (Ok b, w') ->
  exists a w1, m w = (Ok a, w1) /\ f a w1 = (Ok b, w').
Proof.
  unfold bind. destruct (m w) as [[a|e|] w1]; try discriminate.
  intros Hf. exists a, w1. split; [reflexivity|exact Hf].
Qed.

Lemma ret_Ok {A} (a b : A) (w w' : world) :
  ret a w = (Ok b, w') -> a = b /\ w = w'.
Proof. unfold ret. intros [= -> ->]. split; reflexivity. Qed.

Lemma rethrow_Ok {A} (label : string) (body : M A) (w w' : world) (a : A) :
  rethrow label body w = (Ok a, w') -> body w = (Ok a, w').
Proof.
  unfold rethrow, try_catchM, lift, throw_error.
  destruct (body w) as [[x|e|] w1]; [auto|discriminate|auto].
Qed.

(** A loop that places every item once grows the two lists by as many
    entries as there are items. *)
Lemma forEachM_counts {A} (f : A -> nat -> list jsval * list jsval
                                -> M (list jsval * list jsval)) :
  (forall x i acc w after w',
      f x i acc w = (Ok after, w') -> Statements.placed_once acc after) ->
  forall xs i acc w after w',
    forEachM f xs i acc w = (Ok after, w') ->
    List.length (fst after) + List.length (snd after)
    = List.length (fst acc) + List.length (snd acc) + List.length xs.
Proof.
  intros Hstep xs. induction xs as [|x xs IH]; intros i acc w after w' Hrun; simpl in *.
  - apply ret_Ok in Hrun as [<- _]. lia.
  - apply bind_Ok in Hrun as (mid & w1 & Hx & Hrest).
    apply IH in Hrest. rewrite Hrest.
    destruct (Hstep _ _ _ _ _ _ Hx) as [[entry ->]|[entry ->]]; simpl;
      rewrite length_app; simpl; lia.
Qed.

End MonadLemmas.

Section ContractProperties.
Import JS Registry Contract Statements.
Context `{Runtime} `{Pdf.PdfLib} `{Image.ImageLib} `{Excel.ExcelLib} `{Script.ScriptHost}.

Ltac unbind H :=
  repeat
    (let a := fresh "a" in
     let w := fresh "w" in
     let Ha := fresh "Ha" in
     apply bind_Ok in H as (a & w & Ha & H)).

Lemma script_process_total label script source display file metadata w r w' :
  Script.process_with label script source display file metadata w = (Ok r, w') ->
  reports_total "totalItems" r.
Proof.
  intros Hrun. unfold Script.process_with in Hrun.
  apply rethrow_Ok in Hrun. unbind Hrun.
  apply ret_Ok in Hrun as [<- _]. reflexivity.
Qed.

Lemma pdf_process_total file metadata w r w' :
  Pdf.process file metadata w = (Ok r, w') -> reports_total "totalItems" r.
Proof.
  intros Hrun. unfold Pdf.process in Hrun.
  apply rethrow_Ok in Hrun. unbind Hrun.
  destruct a2 as [records errors].
  apply ret_Ok in Hrun as [<- _]. reflexivity.
Qed.

Lemma image_process_total file metadata w r w' :
  Image.process file metadata w = (Ok r, w') -> reports_total "totalItems" r.
Proof.
  intros Hrun. unfold Image.process in Hrun.
  apply rethrow_Ok in Hrun. unbind Hrun.
  destruct a3 as [records0 errors]. unbind Hrun.
  apply ret_Ok in Hrun as [<- _]. reflexivity.
Qed.

Lemma excel_process_total file md w r w' :
  Excel.process file md w = (Ok r, w') ->
  reports_total "totalRows" r /\ lookup "totalItems" (metadata r) = None.
Proof.
  intros Hrun. unfold Excel.process in Hrun.
  apply rethrow_Ok in Hrun. unbind Hrun.
  destruct a0 as [allData allErrors].
  apply ret_Ok in Hrun as [<- _]. split; reflexivity.
Qed.

Lemma pdf_sort_item_places_once item index acc w :
  exists after w',
    Pdf.sort_item item index acc w = (Ok after, w') /\ placed_once acc after.
Proof.
  destruct acc as [records errors]. unfold Pdf.sort_item.
  destruct (isValid (Pdf.validatePdfRecord item index)).
  - eexists _, _. split; [reflexivity|]. left. eexists; reflexivity.
  - eexists _, _. split; [reflexivity|]. right. eexists; reflexivity.
Qed.

Lemma image_sort_item_places_once imageMetadata item index acc w :
  exists after w',
    Image.sort_item imageMetadata item index acc w = (Ok after, w') /\
    placed_once acc after.
Proof.
  destruct acc as [records errors]. unfold Image.sort_item.
  destruct (isValid (Image.validateImageRecord item index)).
  - eexists _, _. split; [reflexivity|]. left. eexists; reflexivity.
  - eexists _, _. split; [reflexivity|]. right. eexists; reflexivity.
Qed.

Lemma excel_sort_row_places_once sheetName headers row index acc w :
  exists after w',
    Excel.sort_row sheetName headers row index acc w = (Ok after, w') /\
    placed_once acc after.
Proof.
  destruct acc as [allData allErrors]. unfold Excel.sort_row.
  destruct (isValid (Excel.validateExcelRecord _ sheetName (index + 2))).
  - eexists _, _. split; [reflexivity|]. left. eexists; reflexivity.
  - eexists _, _. split; [reflexivity|]. right. eexists; reflexivity.
Qed.

(** A loop each of whose steps places its item once runs to its end and
    leaves as many entries as there were items. *)
Lemma forEachM_places_all {A} (f : A -> nat -> list jsval * list jsval
                                   -> M (list jsval * list jsval)) :
  (forall x i acc w,
      exists after w', f x i acc w = (Ok after, w') /\ placed_once acc after) ->
  forall xs w,
    exists sorted w',
      forEachM f xs 0 ([], []) w = (Ok sorted, w') /\
      List.length (fst sorted) + List.length (snd sorted) = List.length xs.
Proof.
  intros Hstep xs w.
  assert (Hrun : forall xs i acc w, exists sorted w', forEachM f xs i acc w = (Ok sorted, w')).
  { clear xs w. induction xs as [|x xs IH]; intros i acc w; simpl.
    - eexists _, _. reflexivity.
    - destruct (Hstep x i acc w) as (after & w1 & Hf & _).
      unfold bind. rewrite Hf. apply IH. }
  destruct (Hrun xs 0 ([], []) w) as (sorted & w' & Hs).
  exists sorted, w'. split; [exact Hs|].
  apply (forEachM_counts f) in Hs; [exact Hs|].
  intros x i acc w0 after w1 Hf.
  destruct (Hstep x i acc w0) as (after' & w2 & Hf' & Hp).
  rewrite Hf in Hf'. injection Hf' as <- _. exact Hp.
Qed.

(** C3, as the processors behave.  Every result the CSV, XML, PDF and
    image processors return reports [totalItems = data.length +
    errors.length]; the Excel processor reports that sum as [totalRows]
    and has no [totalItems].  In the loops of the PDF, image and Excel
    processors every extracted item or row is appended to [data] or to
    [errors], never to both, so that a loop over n items leaves n entries
    in the two lists together. *)
Theorem processors_account_for_items
        (file : upload) (metadata : object) (w w' : world) (r : ProcessingResult) :
  (Script.csv_process file metadata w = (Ok r, w') -> reports_total "totalItems" r) /\
  (Script.xml_process file metadata w = (Ok r, w') -> reports_total "totalItems" r) /\
  (Pdf.process file metadata w = (Ok r, w') -> reports_total "totalItems" r) /\
  (Image.process file metadata w = (Ok r, w') -> reports_total "totalItems" r) /\
  (Excel.process file metadata w = (Ok r, w') ->
     reports_total "totalRows" r /\ lookup "totalItems" (Contract.metadata r) = None) /\
  (forall item index acc w1,
      exists after w2,
        Pdf.sort_item item index acc w1 = (Ok after, w2) /\ placed_once acc after) /\
  (forall imageMetadata item index acc w1,
      exists after w2,
        Image.sort_item imageMetadata item index acc w1 = (Ok after, w2) /\
        placed_once acc after) /\
  (forall sheetName headers row index acc w1,
      exists after w2,
        Excel.sort_row sheetName headers row index acc w1 = (Ok after, w2) /\
        placed_once acc after) /\
  (forall items w1,
      exists sorted w2,
        forEachM Pdf.sort_item items 0 ([], []) w1 = (Ok sorted, w2) /\
        List.length (fst sorted) + List.length (snd sorted) = List.length items) /\
  (forall imageMetadata items w1,
      exists sorted w2,
        forEachM (Image.sort_item imageMetadata) items 0 ([], []) w1 = (Ok sorted, w2) /\
        List.length (fst sorted) + List.length (snd sorted) = List.length items) /\
  (forall sheetName headers rows w1,
      exists sorted w2,
        forEachM (Excel.sort_row sheetName headers) rows 0 ([], []) w1 = (Ok sorted, w2) /\
        List.length (fst sorted) + List.length (snd sorted) = List.length rows).
Proof.
  split; [apply script_process_total|].
  split; [apply script_process_total|].
  split; [apply pdf_process_total|].
  split; [apply image_process_total|].
  split; [apply excel_process_total|].
  split; [apply pdf_sort_item_places_once|].
  split; [apply image_sort_item_places_once|].
  split; [apply excel_sort_row_places_once|].
  split; [|split]; intros; apply forEachM_places_all; intros.
  - apply pdf_sort_item_places_once.
  - apply image_sort_item_places_once.
  - apply excel_sort_row_places_once.
Qed.

End ContractProperties.

Section ProcessorsReturn.
Import JS Registry Contract Statements.
Context `{Runtime} `{Pdf.PdfLib} `{Excel.ExcelLib}.

(** Once the file is read and parsed, the PDF processor returns a result:
    none of its own steps throws or fails to end. *)
Lemma pdf_process_returns (file : upload) (metadata : object) (w : world)
      (bytes : string) (d : Pdf.pdfData) :
  read_upload Pdf.readFileSync (path file) (buffer file) = Ok bytes ->
  Pdf.pdf bytes = Ok d ->
  exists r w' items,
    Pdf.process file metadata w = (Ok r, w') /\
    Pdf.extractDataFromPDF d = Ok items /\
    List.length (data r) + List.length (errors r) = List.length items /\
    reports_total "totalItems" r.
Proof.
  intros Hread Hpdf.
  destruct (extractDataFromPDF_total d) as (items & Hitems & _).
  destruct (forEachM_places_all Pdf.sort_item pdf_sort_item_places_once items w)
    as ([records errors] & w' & Hloop & Hcount).
  unfold Pdf.process, rethrow, try_catchM, bind, lift.
  rewrite Hread, Hpdf, Hitems, Hloop.
  eexists _, _, items. split; [reflexivity|]. split; [reflexivity|].
  split; [exact Hcount|reflexivity].
Qed.

Lemma sort_sheets_returns (wb : Excel.workbook) (names : list string) :
  forall acc w, exists sorted w', Excel.sort_sheets wb names acc w = (Ok sorted, w').
Proof.
  induction names as [|name names IH]; intros acc w; simpl.
  - eexists _, _. reflexivity.
  - unfold bind, Excel.sort_sheet.
    destruct (Excel.sheet_to_json wb name) as [|headers rows].
    + simpl. apply IH.
    + assert (Hrows : forall rows i acc w, exists sorted w',
                 forEachM (Excel.sort_row name headers) rows i acc w = (Ok sorted, w')).
      { clear. induction rows as [|row rows IHr]; intros i acc w; simpl.
        - eexists _, _. reflexivity.
        - destruct (excel_sort_row_places_once name headers row i acc w)
            as (after & w1 & Hf & _).
          unfold bind. rewrite Hf. apply IHr. }
      destruct (Hrows rows 0 acc w) as (sorted & w1 & ->). apply IH.
Qed.

(** Once the workbook is loaded, the Excel processor returns a result. *)
Lemma excel_process_returns (file : upload) (metadata : object) (w : world)
      (wb : Excel.workbook) :
  match truthy_path (path file), buffer file with
  | Some p, _ => Excel.readFile p
  | None, Some b => Excel.read b
  | None, None => throw_error "No file data provided"
  end = Ok wb ->
  exists r w',
    Excel.process file metadata w = (Ok r, w') /\ reports_total "totalRows" r.
Proof.
  intros Hload.
  destruct (sort_sheets_returns wb (Excel.SheetNames wb) ([], []) w)
    as ([allData allErrors] & w' & Hsort).
  unfold Excel.process, rethrow, try_catchM, bind, lift.
  rewrite Hload, Hsort.
  eexists _, _. split; reflexivity.
Qed.

End ProcessorsReturn.

Section ContractExamples.
Import JS Registry Contract Statements Sample.

Lemma processors_account_for_items_witness :
  (exists r w', Script.csv_process export_upload [] w0 = (Ok r, w') /\
                reports_total "totalItems" r) /\
  (exists r w', Pdf.process scenario_B_upload [] w0 = (Ok r, w') /\
                reports_total "totalItems" r) /\
  (exists r w', Image.process receipt_upload [] w0 = (Ok r, w') /\
                reports_total "totalItems" r) /\
  (exists r w', Excel.process stock_upload [] w0 = (Ok r, w') /\
                reports_total "totalRows" r).
Proof.
  split; [|split; [|split]].
  - eexists _, _. split; [vm_compute; reflexivity|].
    eapply (proj1 (processors_account_for_items export_upload [] w0 _ _)).
    vm_compute; reflexivity.
  - eexists _, _. split; [vm_compute; reflexivity|].
    eapply (proj1 (proj2 (proj2 (processors_account_for_items scenario_B_upload [] w0 _ _)))).
    vm_compute; reflexivity.
  - eexists _, _. split; [vm_compute; reflexivity|].
    eapply (proj1 (proj2 (proj2 (proj2
              (processors_account_for_items receipt_upload [] w0 _ _))))).
    vm_compute; reflexivity.
  - eexists _, _. split; [vm_compute; reflexivity|].
    eapply (proj1 (proj2 (proj2 (proj2 (proj2
              (processors_account_for_items stock_upload [] w0 _ _)))))).
    vm_compute; reflexivity.
Defined.

(** C3 as stated fails: the metadata of an Excel result has no
    [totalItems], so what it reports there is [undefined], not the
    number of its three entries. *)
Lemma excel_result_has_no_totalItems :
  exists r w',
    Excel.process stock_upload [] w0 = (Ok r, w') /\
    List.length (data r) + List.length (errors r) = 3 /\
    field (metadata r) "totalItems" = JUndefined /\
    field (metadata r) "totalRows" = JNum 3.
Proof.
  eexists _, _. split; [vm_compute; reflexivity|]. repeat split.
Qed.

End ContractExamples.

Section FlattenProperties.
Import JS Exporter Statements.
Context `{Runtime}.



(** ** The shape of a result *)
















(** ** Results that keep their prototype *)





Lemma unspoilt_fresh : unspoilt fresh.
Proof. split; [reflexivity|simpl; tauto]. Qed.

Lemma unspoilt_put (k : string) (v : jsval) (b : built) :
  unspoilt b -> k <> "__proto__" -> unspoilt (put k v b).
Proof.
  intros [Hp Hn] Hk. rewrite put_named by exact Hk. split; simpl; [exact Hp|].
  intros Hin. apply keys_set in Hin as [Hin|Hin]; [congruence|exact (Hn Hin)].
Qed.










(** ** Agreement with the specification's flattening *)










End FlattenProperties.

Section FlattenExamples.
Import JS Exporter Statements.



(** A field named [__proto__] that holds an array is assigned as a
    string to [__proto__] of the result, which stores nothing. *)
Lemma flattenObject_loses_proto_field :
  @flattenObject Sample.runtime
     (JObj [ ("a", JNum 1); ("__proto__", JArr [ JNum 1; JNum 2 ]) ]) "" "."
  = Ok (mkBuilt [ ("a", JNum 1) ] ObjectPrototype).
Proof. reflexivity. Qed.

End FlattenExamples.

Section FlattenTwice.
Import JS Exporter Statements.



End FlattenTwice.

(* ================================================================== *)
(** * Further properties of the code                                  *)
(* ================================================================== *)

Section DetectionProperties.
Import JS Registry Statements.

Lemma supported_own (m : string) (p : processor) :
  assoc m SUPPORTED_FORMATS = Some p ->
  forall filename, by_label (detectFileType (Some m) filename) = Some p.
Proof.
  unfold SUPPORTED_FORMATS, assoc. intros Hm filename.
  repeat match type of Hm with
         | context [String.eqb ?a m] =>
             destruct (String.eqb_spec a m) as [<-|_];
             [injection Hm as <-; reflexivity|]
         end.
  discriminate.
Qed.

Lemma extension_own (ext mapped : string) :
  assoc ext EXTENSION_MAP = Some mapped ->
  exists p, assoc mapped SUPPORTED_FORMATS = Some p /\
    by_label (if ext =? ".csv" then "csv"
        else if existsb (String.eqb ext) [".xlsx"; ".xls"] then "excel"
        else if ext =? ".xml" then "xml"
        else if ext =? ".pdf" then "pdf"
        else if existsb (String.eqb ext)
                  [".jpg"; ".jpeg"; ".png"; ".gif"; ".webp"; ".tiff"; ".bmp"]
             then "image"
        else "unknown") = Some p.
Proof.
  unfold EXTENSION_MAP, assoc. intros Hm.
  repeat match type of Hm with
         | context [String.eqb ?a ext] =>
             destruct (String.eqb_spec a ext) as [<-|_];
             [injection Hm as <-; eexists; split; reflexivity|]
         end.
  discriminate.
Qed.

Lemma supported_assoc (m : string) (q : processor) :
  assoc m SUPPORTED_FORMATS = Some q -> supported (Some m) = Some (Proc q).
Proof. intros Hq. unfold supported, table_get. rewrite Hq. reflexivity. Qed.

(** When no specified type decides, the label [detectFileType] reports
    for an upload names the processor [getProcessor] selects for it: the
    two functions agree on every MIME type and file name for which a
    processor is found. *)
Theorem detectFileType_names_the_processor
        (mimeType filename : option string) (specifiedType : jsval) (p : processor) :
  undecided specifiedType ->
  getProcessor mimeType filename specifiedType = Ok (Some (Proc p)) ->
  by_label (detectFileType mimeType filename) = Some p.
Proof.
  intros Hu. rewrite (getProcessor_undecided _ _ _ Hu). intros [= Hd].
  unfold detect_processor in Hd.
  destruct mimeType as [m|].
  - unfold supported at 1 in Hd. unfold table_get in Hd.
    destruct (assoc m SUPPORTED_FORMATS) as [p'|] eqn:Hm.
    + injection Hd as <-. apply supported_own. exact Hm.
    + destruct (existsb (String.eqb m) Object_prototype_members) eqn:Hproto;
        [discriminate|].
      assert (Hs : supported (Some m) = None).
      { unfold supported, table_get. rewrite Hm, Hproto. reflexivity. }
      unfold detectFileType. rewrite Hs.
      replace (match nonempty (Some m) with Some _ => _ | None => _ end)
        with (match nonempty filename with
              | Some name =>
        let ext := extension name in
        if ext =? ".csv" then "csv"
        else if existsb (String.eqb ext) [".xlsx"; ".xls"] then "excel"
        else if ext =? ".xml" then "xml"
        else if ext =? ".pdf" then "pdf"
        else if existsb (String.eqb ext)
                  [".jpg"; ".jpeg"; ".png"; ".gif"; ".webp"; ".tiff"; ".bmp"]
             then "image"
        else "unknown"
    | None => "unknown" end) by (destruct (nonempty (Some m)); reflexivity).
      destruct (nonempty filename) as [name|]; [|discriminate].
      unfold table_get in Hd.
      destruct (assoc (extension name) EXTENSION_MAP) as [mapped|] eqn:He.
      * destruct (extension_own _ _ He) as (q & Hq & Hl).
        cbv beta iota in Hd. rewrite (supported_assoc _ _ Hq) in Hd. injection Hd as <-.
        exact Hl.
      * destruct (existsb (String.eqb (extension name)) Object_prototype_members); discriminate.
  - change (supported None) with (@None handler) in Hd. cbv iota in Hd.
    unfold detectFileType. change (nonempty None) with (@None string). cbv iota.
    destruct (nonempty filename) as [name|]; [|discriminate].
    unfold table_get in Hd.
    destruct (assoc (extension name) EXTENSION_MAP) as [mapped|] eqn:He.
    + destruct (extension_own _ _ He) as (q & Hq & Hl).
      cbv beta iota in Hd. rewrite (supported_assoc _ _ Hq) in Hd. injection Hd as <-.
      exact Hl.
    + destruct (existsb (String.eqb (extension name)) Object_prototype_members); discriminate.
Qed.

End DetectionProperties.

Section ExtensionFallback.
Import JS Registry Statements.

Lemma chars_app (a b : string) : chars (a ++ b) = (chars a ++ chars b)%list.
Proof. unfold chars. induction a as [|c a IH]; simpl; [reflexivity|]. f_equal. exact IH. Qed.

Lemma chars_toLowerCase (s : string) : chars (toLowerCase s) = map lower_char (chars s).
Proof. unfold chars. induction s as [|c s IH]; simpl; [reflexivity|]. f_equal. exact IH. Qed.

Lemma lower_char_dot (d : ascii) : Ascii.eqb (lower_char d) "." = Ascii.eqb d ".".
Proof. destruct d as [[] [] [] [] [] [] [] []]; reflexivity. Qed.

Lemma lastIndexOf_from_lower (l : list ascii) :
  forall i last,
    lastIndexOf_from "." (map lower_char l) i last = lastIndexOf_from "." l i last.
Proof.
  induction l as [|d l IH]; intros i last; simpl; [reflexivity|].
  rewrite lower_char_dot. apply IH.
Qed.

Lemma lastIndexOf_from_absent (c : ascii) (l : list ascii) :
  existsb (Ascii.eqb c) l = false ->
  forall i last, lastIndexOf_from c l i last = last.
Proof.
  induction l as [|d l IH]; intros Hno i last; simpl in *; [reflexivity|].
  apply orb_false_elim in Hno as [Hd Hl].
  rewrite Ascii.eqb_sym, Hd. apply IH. exact Hl.
Qed.

Lemma lastIndexOf_from_last (c : ascii) (l1 l2 : list ascii) :
  existsb (Ascii.eqb c) l2 = false ->
  forall i last,
    lastIndexOf_from c (l1 ++ c :: l2) i last = Some (i + List.length l1).
Proof.
  intros Hno. induction l1 as [|d l1 IH]; intros i last; simpl.
  - rewrite Ascii.eqb_refl, (lastIndexOf_from_absent _ _ Hno). f_equal. lia.
  - rewrite IH. f_equal. lia.
Qed.

(** The extension of a file name is its part from the last dot on, in
    lower case. *)
Lemma extension_of_suffix (name base rest : string) :
  toLowerCase name = base ++ String "." rest ->
  has_dot rest = false ->
  extension name = String "." rest.
Proof.
  intros Hlow Hrest. unfold extension, lastIndexOf.
  rewrite <- lastIndexOf_from_lower, <- chars_toLowerCase, Hlow, chars_app.
  change (chars (String "." rest)) with ("."%char :: chars rest).
  rewrite lastIndexOf_from_last by exact Hrest.
  unfold substring_from. rewrite chars_app.
  change (0 + List.length (chars base)) with (List.length (chars base)).
  rewrite skipn_app, skipn_all, Nat.sub_diag. simpl.
  unfold str, chars. rewrite string_of_list_ascii_of_string. reflexivity.
Qed.

Lemma listed_extension_shape (ext mapped : string) :
  assoc ext EXTENSION_MAP = Some mapped ->
  exists rest p,
    ext = String "." rest /\ has_dot rest = false /\
    assoc mapped SUPPORTED_FORMATS = Some p.
Proof.
  unfold EXTENSION_MAP, assoc. intros Hm.
  repeat match type of Hm with
         | context [String.eqb ?a ext] =>
             destruct (String.eqb_spec a ext) as [<-|_];
             [injection Hm as <-; eexists _, _; repeat split; reflexivity|]
         end.
  discriminate.
Qed.

(** The fallback on the extension.  When the MIME type is not a
    supported one and no specified type decides, a file name that ends,
    in any mix of upper and lower case, in one of the listed extensions
    is given the processor of the MIME type the extension stands for. *)
Theorem listed_extension_selects_processor
        (mimeType : option string) (specifiedType : jsval)
        (name base ext mapped : string) :
  undecided specifiedType ->
  supported mimeType = None ->
  assoc ext EXTENSION_MAP = Some mapped ->
  toLowerCase name = base ++ ext ->
  exists p,
    assoc mapped SUPPORTED_FORMATS = Some p /\
    getProcessor mimeType (Some name) specifiedType = Ok (Some (Proc p)).
Proof.
  intros Hu Hmime Hext Hname.
  destruct (listed_extension_shape _ _ Hext) as (rest & p & -> & Hrest & Hp).
  exists p. split; [exact Hp|].
  rewrite (getProcessor_undecided _ _ _ Hu).
  unfold detect_processor. rewrite Hmime.
  assert (Hne : nonempty (Some name) = Some name).
  { destruct name; [|reflexivity]. simpl in Hname. destruct base; discriminate. }
  rewrite Hne, (extension_of_suffix _ _ _ Hname Hrest).
  unfold table_get. rewrite Hext.
  unfold supported, table_get. rewrite Hp. reflexivity.
Qed.

Lemma listed_extension_selects_processor_witness :
  exists p,
    assoc "text/csv" SUPPORTED_FORMATS = Some p /\
    getProcessor (Some "application/octet-stream") (Some "Q3.Sales.CSV") JNull
    = Ok (Some (Proc p)).
Proof.
  apply (listed_extension_selects_processor
           (Some "application/octet-stream") JNull "Q3.Sales.CSV" "q3.sales" ".csv" "text/csv").
  - left; reflexivity.
  - reflexivity.
  - reflexivity.
  - reflexivity.
Defined.

End ExtensionFallback.

Section AssignLemmas.
Import JS.

Lemma lookup_assign_miss (k : string) (source : object) :
  lookup k source = None ->
  forall target, lookup k (assign target source) = lookup k target.
Proof.
  unfold assign.
  induction source as [|[k0 v0] source IH]; intros Hk target; simpl in *; [reflexivity|].
  destruct (String.eqb_spec k0 k) as [->|Hne]; [discriminate|].
  rewrite (IH Hk), lookup_set.
  destruct (String.eqb_spec k0 k); [contradiction|reflexivity].
Qed.

Lemma lookup_assign_hit (k : string) (v : jsval) (source : object) :
  NoDup (keys source) ->
  lookup k source = Some v ->
  forall target, lookup k (assign target source) = Some v.
Proof.
  induction source as [|[k0 v0] source IH]; intros Hnd Hk target; simpl in *;
    [discriminate|].
  inversion Hnd as [|? ? Hfresh Hnd']; subst.
  change (assign target ((k0, v0) :: source)) with (assign (set k0 v0 target) source).
  destruct (String.eqb_spec k0 k) as [->|Hne].
  - injection Hk as ->.
    rewrite (lookup_assign_miss _ _ (lookup_None_keys _ _ Hfresh)), lookup_set,
      String.eqb_refl.
    reflexivity.
  - apply IH; assumption.
Qed.

End AssignLemmas.

Section DispatcherCases.
Import JS Registry Statements Notions.
Context `{Runtime}.
Variable process : processor -> upload -> object -> M jsval.

Lemma processFile_on_result (file : upload) (options : object) (h : handler)
      (r : Contract.ProcessingResult) (w w2 : world) :
  getProcessor (Some (mimetype file)) (Some (originalname file))
               (field options "specifiedFileType") = Ok (Some h) ->
  invoke process h file (dispatch_metadata file options (clock (ticks w))) (later 2 w)
  = (Ok (Contract.to_js r), w2) ->
  processFile process file options w
  = (Ok (success_envelope (dispatch_metadata file options (clock (ticks w))) r
                          (ms (clock (ticks w2) - clock (S (ticks w))))),
     later 1 w2).
Proof.
  intros Hres Hruns.
  unfold processFile. unfold bind at 1. unfold lift at 1. rewrite Hres.
  unfold bind at 1. unfold new_Date, bind at 1, Date_now, ret.
  unfold try_catchM. unfold bind at 1. unfold bind at 1.
  change (spread _ (JObj options)) with (dispatch_metadata file options (clock (ticks w))).
  change (mkWorld (S (ticks (mkWorld (S (ticks w)) (draws w))))
                  (draws (mkWorld (S (ticks w)) (draws w)))) with (later 2 w).
  rewrite Hruns.
  unfold bind, lift, Contract.to_js. simpl. reflexivity.
Qed.

Lemma processedAt_of_dispatch (file : upload) (options : object) (t : Z) :
  (forall v, In ("processedAt", v) options -> exists t', v = JDate t') ->
  exists t', field (dispatch_metadata file options t) "processedAt" = JDate t'.
Proof.
  intros Hopts.
  destruct (lookup_assign_invariant (fun v => exists t', v = JDate t') "processedAt" options
              (literal [ ("originalName", JStr (originalname file));
                         ("mimeType", JStr (mimetype file));
                         ("size", JNum (size file));
                         ("processedAt", JDate t);
                         ("processor",
                          or_else (field options "specifiedFileType")
                                  (JStr (detectFileType (Some (mimetype file))
                                                        (Some (originalname file)))));
                         ("specifiedType", or_else (field options "specifiedFileType") JNull);
                         ("detectedType",
                          JStr (detectFileType (Some (mimetype file))
                                               (Some (originalname file)))) ]))
    as (v & Hv & t' & ->).
  - eexists. split; [reflexivity|]. eexists; reflexivity.
  - exact Hopts.
  - exists t'. unfold field, dispatch_metadata, spread. simpl own_props. rewrite Hv. reflexivity.
Qed.

Lemma processFile_on_throw (file : upload) (options : object) (h : handler)
      (e : jserror) (w w2 : world) :
  getProcessor (Some (mimetype file)) (Some (originalname file))
               (field options "specifiedFileType") = Ok (Some h) ->
  (forall v, In ("processedAt", v) options -> exists t, v = JDate t) ->
  invoke process h file (dispatch_metadata file options (clock (ticks w))) (later 2 w)
  = (Throw e, w2) ->
  exists env,
    processFile process file options w = (Ok env, later 2 w2) /\
    success env = false /\ data env = JArr [] /\
    errors env = JArr [ JObj [ ("type", JStr "processing_error");
                               ("message", JStr (emessage e));
                               ("timestamp", JDate (clock (S (ticks w2)))) ] ] /\
    exists processingTime,
      metadata env = set "processingTime" (JStr processingTime)
                         (dispatch_metadata file options (clock (ticks w))).
Proof.
  intros Hres Hopts Hthrows.
  unfold processFile. unfold bind at 1. unfold lift at 1. rewrite Hres.
  unfold bind at 1. unfold new_Date, bind at 1, Date_now, ret.
  unfold try_catchM. unfold bind at 1. unfold bind at 1.
  change (spread _ (JObj options)) with (dispatch_metadata file options (clock (ticks w))).
  change (mkWorld (S (ticks (mkWorld (S (ticks w)) (draws w))))
                  (draws (mkWorld (S (ticks w)) (draws w)))) with (later 2 w).
  rewrite Hthrows.
  destruct (processedAt_of_dispatch file options (clock (ticks w)) Hopts) as (t' & Ht).
  unfold bind, lift. rewrite Ht. simpl.
  eexists. split; [reflexivity|]. simpl. repeat split.
  eexists. reflexivity.
Qed.

Lemma processFile_on_hang (file : upload) (options : object) (h : handler) (w w2 : world) :
  getProcessor (Some (mimetype file)) (Some (originalname file))
               (field options "specifiedFileType") = Ok (Some h) ->
  invoke process h file (dispatch_metadata file options (clock (ticks w))) (later 2 w)
  = (Hang, w2) ->
  processFile process file options w = (Hang, w2).
Proof.
  intros Hres Hhangs.
  unfold processFile. unfold bind at 1. unfold lift at 1. rewrite Hres.
  unfold bind at 1. unfold new_Date, bind at 1, Date_now, ret.
  unfold try_catchM. unfold bind at 1. unfold bind at 1.
  change (spread _ (JObj options)) with (dispatch_metadata file options (clock (ticks w))).
  change (mkWorld (S (ticks (mkWorld (S (ticks w)) (draws w))))
                  (draws (mkWorld (S (ticks w)) (draws w)))) with (later 2 w).
  rewrite Hhangs. reflexivity.
Qed.

End DispatcherCases.

Section EnvelopeOfSuccess.
Import JS Registry Statements Notions.
Context `{Runtime}.
Variable process : processor -> upload -> object -> M jsval.

(** The envelope of a processor that returns.  [processFile] passes on
    [data] and [errors] as the processor returned them and says
    [success: true], error entries or not; every metadata field of the
    processor is in the envelope with the processor's value, and
    [recordCount] is the number of records unless the processor has a
    field of that name. *)
Theorem processFile_success_envelope
        (file : upload) (options : object) (h : handler)
        (r : Contract.ProcessingResult) (w w2 : world) :
  getProcessor (Some (mimetype file)) (Some (originalname file))
               (field options "specifiedFileType") = Ok (Some h) ->
  invoke process h file (dispatch_metadata file options (clock (ticks w))) (later 2 w)
  = (Ok (Contract.to_js r), w2) ->
  NoDup (keys (Contract.metadata r)) ->
  exists env,
    processFile process file options w = (Ok env, later 1 w2) /\
    success env = true /\
    data env = JArr (Contract.data r) /\
    errors env = JArr (Contract.errors r) /\
    (forall k v, lookup k (Contract.metadata r) = Some v ->
                 lookup k (metadata env) = Some v) /\
    (lookup "recordCount" (Contract.metadata r) = None ->
     field (metadata env) "recordCount"
     = Contract.js_nat (List.length (Contract.data r))).
Proof.
  intros Hres Hruns Hnd.
  unfold processFile. unfold bind at 1. unfold lift at 1. rewrite Hres.
  unfold bind at 1. unfold new_Date, bind at 1, Date_now, ret.
  unfold try_catchM. unfold bind at 1. unfold bind at 1.
  change (spread _ (JObj options)) with (dispatch_metadata file options (clock (ticks w))).
  change (mkWorld (S (ticks (mkWorld (S (ticks w)) (draws w))))
                  (draws (mkWorld (S (ticks w)) (draws w)))) with (later 2 w).
  rewrite Hruns.
  unfold bind, lift, Contract.to_js. simpl.
  eexists. split; [reflexivity|]. simpl.
  repeat split.
  - intros k v Hk. unfold spread. simpl. apply lookup_assign_hit; assumption.
  - intros Hk. unfold field, spread. simpl.
    rewrite (lookup_assign_miss _ _ Hk), lookup_set. simpl.
    rewrite lookup_set. simpl. reflexivity.
Qed.

End EnvelopeOfSuccess.

Section BuiltLemmas.
Import JS Statements.

Lemma lookup_In (k : string) (v : jsval) (o : object) :
  lookup k o = Some v -> In (k, v) o.
Proof.
  induction o as [|[k0 v0] o IH]; simpl; [discriminate|].
  destruct (String.eqb_spec k0 k) as [->|_].
  - intros [= ->]. left; reflexivity.
  - intros Hl. right. apply IH. exact Hl.
Qed.

Lemma In_lookup (k : string) (v : jsval) (o : object) :
  NoDup (keys o) -> In (k, v) o -> lookup k o = Some v.
Proof.
  induction o as [|[k0 v0] o IH]; simpl; [tauto|].
  intros Hnd [[= -> ->]|Hin].
  - rewrite String.eqb_refl. reflexivity.
  - inversion Hnd as [|? ? Hfresh Hnd']; subst.
    destruct (String.eqb_spec k0 k) as [->|_]; [|apply IH; assumption].
    exfalso. apply Hfresh. apply (in_map fst) in Hin. exact Hin.
Qed.

(** What an assignment does to the own properties: nothing, or it
    defines the property. *)
Lemma own_put (k : string) (v : jsval) (b : built) :
  own (put k v b) = own b \/ own (put k v b) = set k v (own b).
Proof.
  unfold put. destruct ((k =? "__proto__") && reaches_setter b); [|right; reflexivity].
  destruct v; left; reflexivity.
Qed.

Lemma NoDup_put (k : string) (v : jsval) (b : built) :
  NoDup (keys (own b)) -> NoDup (keys (own (put k v b))).
Proof.
  intros Hnd. destruct (own_put k v b) as [-> | ->]; [exact Hnd|apply NoDup_set; exact Hnd].
Qed.

Lemma ordered_put (k : string) (v : jsval) (b : built) :
  ordered (keys (own b)) -> ordered (keys (own (put k v b))).
Proof.
  intros Hord. destruct (own_put k v b) as [-> | ->]; [exact Hord|apply ordered_set; exact Hord].
Qed.

(** The other properties do not see an assignment to [__proto__]. *)
Lemma lookup_put (k k' : string) (v : jsval) (b : built) :
  k <> "__proto__" ->
  lookup k (own (put k' v b)) = if k' =? k then Some v else lookup k (own b).
Proof.
  intros Hk. unfold put.
  destruct (String.eqb_spec k' "__proto__") as [->|Hk'].
  - destruct (String.eqb_spec "__proto__" k) as [E|_]; [congruence|].
    destruct (reaches_setter b); simpl.
    + destruct v; reflexivity.
    + rewrite lookup_set. destruct (String.eqb_spec "__proto__" k); [congruence|reflexivity].
  - simpl. apply lookup_set.
Qed.

(** The value under a key after a copy depends on the value under the
    key before it only. *)
Lemma lookup_assign_congr (k : string) (source : object) :
  forall a b,
    lookup k a = lookup k b ->
    lookup k (assign a source) = lookup k (assign b source).
Proof.
  unfold assign. induction source as [|[k0 v0] source IH]; intros a b E; simpl; [exact E|].
  apply IH. rewrite !lookup_set, E. reflexivity.
Qed.

(** An object that still has [Object.prototype] and no property named
    [__proto__] stores nothing when [__proto__] is assigned. *)
Lemma own_put_proto (v : jsval) (b : built) :
  unspoilt b -> own (put "__proto__" v b) = own b.
Proof.
  intros [Hp Hn]. unfold put, reaches_setter. rewrite Hp.
  destruct (has_own "__proto__" (own b)) eqn:E.
  - apply has_own_In in E. contradiction.
  - simpl. destruct v; reflexivity.
Qed.

End BuiltLemmas.

Section ExcelRows.
Import JS Registry Contract Excel Statements Notions.
Context `{Runtime}.

Lemma keys_cells_under (headers row : list jsval) (i : nat) :
  keys (cells_under headers row i) = map to_string headers.
Proof.
  revert i. induction headers as [|h r IH]; intros i; simpl; [reflexivity|].
  f_equal. apply IH.
Qed.

Lemma lookup_cells_under (headers row : list jsval) :
  forall i j header,
    NoDup (map to_string headers) ->
    nth_error headers j = Some header ->
    lookup (to_string header) (cells_under headers row i)
    = Some (or_else (cell row (i + j)) JNull).
Proof.
  induction headers as [|h r IH]; intros i j header Hnd Hj; [destruct j; discriminate|].
  simpl. inversion Hnd as [|? ? Hfresh Hnd']; subst. destruct j as [|j]; simpl in Hj.
  - injection Hj as ->. rewrite String.eqb_refl, Nat.add_0_r. reflexivity.
  - destruct (String.eqb_spec (to_string h) (to_string header)) as [E|_].
    + exfalso. apply Hfresh. rewrite E. apply in_map. eapply nth_error_In; exact Hj.
    + rewrite (IH (S i) j header Hnd' Hj). do 3 f_equal. lia.
Qed.

(** The fields of the record under the keys other than [__proto__] are
    those of a copy of the cells. *)
Lemma fill_lookup (headers row : list jsval) (k : string) :
  k <> "__proto__" ->
  forall i record,
    lookup k (own (fill headers row i record))
    = lookup k (assign (own record) (cells_under headers row i)).
Proof.
  intros Hk. induction headers as [|h r IH]; intros i record; simpl; [reflexivity|].
  rewrite IH.
  change (assign (own record) ((to_string h, or_else (cell row i) JNull)
                                 :: cells_under r row (S i)))
    with (assign (set (to_string h) (or_else (cell row i) JNull) (own record))
                 (cells_under r row (S i))).
  apply lookup_assign_congr. rewrite lookup_put, lookup_set by exact Hk. reflexivity.
Qed.

Lemma fill_keys (headers row : list jsval) :
  forall i record,
    NoDup (map to_string headers) ->
    unspoilt record \/ ~ In "__proto__" (map to_string headers) ->
    forall k,
      In k (keys (own (fill headers row i record)))
      <-> In k (keys (own record)) \/ (In k (map to_string headers) /\ k <> "__proto__").
Proof.
  induction headers as [|h r IH]; intros i record Hnd Hstate k; simpl; [tauto|].
  inversion Hnd as [|? ? Hfresh Hnd']; subst.
  destruct (String.eqb_spec (to_string h) "__proto__") as [E|Hne].
  - destruct Hstate as [Hu|Hno]; [|exfalso; apply Hno; left; exact E].
    rewrite IH; [|exact Hnd'|right; rewrite <- E; exact Hfresh].
    rewrite E, (own_put_proto _ _ Hu). split.
    + intros [Hin|[Hin Hk]]; [left; exact Hin|right; split; [right; exact Hin|exact Hk]].
    + intros [Hin|[[Hin|Hin] Hk]]; [left; exact Hin|congruence|right; split; assumption].
  - rewrite IH; [|exact Hnd'|].
    + rewrite put_named by exact Hne. simpl. rewrite keys_set. split.
      * intros [[->|Hin]|[Hin Hk]]; [right; split; [left; reflexivity|exact Hne]
                                    |left; exact Hin
                                    |right; split; [right; exact Hin|exact Hk]].
      * intros [Hin|[[<-|Hin] Hk]]; [left; right; exact Hin
                                    |left; left; reflexivity
                                    |right; split; assumption].
    + destruct Hstate as [Hu|Hno]; [left|right; intros Hin; apply Hno; right; exact Hin].
      apply unspoilt_put; assumption.
Qed.

Lemma fill_canonical (headers row : list jsval) :
  forall i record,
    NoDup (keys (own record)) -> ordered (keys (own record)) ->
    NoDup (keys (own (fill headers row i record))) /\
    ordered (keys (own (fill headers row i record))).
Proof.
  induction headers as [|h r IH]; intros i record Hnd Hord; simpl; [split; assumption|].
  apply IH; [apply NoDup_put|apply ordered_put]; assumption.
Qed.


(** With distinct header names, a row is kept exactly when one of its
    cells under a header that is not named [__proto__] is truthy: a row
    holding only [0], [false] or empty strings is rejected like one with
    no cells at all. *)
Theorem excel_row_kept_iff_truthy_cell
        (sheetName : string) (headers row : list jsval) (index : nat) :
  NoDup (map to_string headers) ->
  accepted sheetName headers row index
  = existsb (fun j => truthy (cell row j) &&
                      negb (to_string (nth j headers JUndefined) =? "__proto__"))
            (seq 0 (List.length headers)).
Proof.
  intros Hnd. unfold accepted. rewrite validateExcelRecord_spec.
  unfold build_record.
  destruct (fill_canonical headers row 0 fresh) as [Hn _]; [constructor|exact I|].
  assert (Hkeys := fun k => fill_keys headers row 0 fresh Hnd
                                      (or_introl unspoilt_fresh) k).
  assert (Hlook : forall j header,
             nth_error headers j = Some header ->
             to_string header <> "__proto__" ->
             lookup (to_string header) (own (fill headers row 0 fresh))
             = Some (or_else (cell row j) JNull)).
  { intros j header Hj Hne. rewrite fill_lookup by exact Hne.
    apply lookup_assign_hit; [rewrite keys_cells_under; exact Hnd|].
    apply (lookup_cells_under headers row 0 j header Hnd Hj). }
  apply eq_iff_eq_true. rewrite !existsb_exists. split.
  - intros (v & Hin & Hv). unfold values in Hin.
    apply in_map_iff in Hin as ([k v'] & <- & Hin). simpl in Hv.
    pose proof (in_map fst _ _ Hin) as Hk. simpl in Hk.
    apply Hkeys in Hk as [[]|[Hk Hne]].
    apply in_map_iff in Hk as (header & <- & Hh).
    apply In_nth_error in Hh as (j & Hj).
    exists j. split.
    + apply in_seq. split; [lia|]. simpl. apply nth_error_Some. congruence.
    + rewrite (nth_error_nth _ _ _ Hj).
      apply In_lookup in Hin; [|exact Hn].
      rewrite (Hlook j header Hj Hne) in Hin. injection Hin as <-.
      rewrite record_field_is_data in Hv. rewrite Hv. simpl.
      apply negb_true_iff. apply String.eqb_neq. exact Hne.
  - intros (j & Hj & Hv). apply in_seq in Hj as [_ Hj]. simpl in Hj.
    apply andb_prop in Hv as [Hv Hne].
    apply negb_true_iff, String.eqb_neq in Hne.
    destruct (nth_error headers j) as [header|] eqn:Hnth;
      [|apply nth_error_None in Hnth; lia].
    rewrite (nth_error_nth _ _ _ Hnth) in Hne.
    exists (or_else (cell row j) JNull). split.
    + unfold values. apply in_map_iff. exists (to_string header, or_else (cell row j) JNull).
      split; [reflexivity|]. apply lookup_In. apply Hlook; assumption.
    + rewrite record_field_is_data. exact Hv.
Qed.

Lemma sort_row_number (sheetName : string) (headers row : list jsval) (i : nat)
      (acc : list jsval * list jsval) (w : world) :
  exists after w',
    sort_row sheetName headers row i acc w = (Ok after, w') /\
    map data_row (fst after)
    = (map data_row (fst acc) ++
       (if accepted sheetName headers row i then [js_nat (i + 2)] else []))%list /\
    map error_row (snd after)
    = (map error_row (snd acc) ++
       (if accepted sheetName headers row i then [] else [js_nat (i + 2)]))%list.
Proof.
  destruct acc as [allData allErrors].
  unfold sort_row. fold (accepted sheetName headers row i).
  destruct (accepted sheetName headers row i).
  - eexists _, _. split; [reflexivity|]. simpl. rewrite map_app, app_nil_r. simpl.
    split; [|reflexivity]. do 2 f_equal.
    unfold data_row, field. simpl. rewrite !lookup_set. simpl. reflexivity.
  - eexists _, _. split; [reflexivity|]. simpl. rewrite map_app, app_nil_r. simpl.
    split; reflexivity.
Qed.

Lemma sort_rows_numbers (sheetName : string) (headers : list jsval)
      (rows : list (list jsval)) :
  forall i acc w,
  exists after w',
    forEachM (sort_row sheetName headers) rows i acc w = (Ok after, w') /\
    map data_row (fst after)
    = (map data_row (fst acc) ++
       map (fun ir => js_nat (fst ir + 2))
           (filter (fun ir => accepted sheetName headers (snd ir) (fst ir))
                   (numbered i rows)))%list /\
    map error_row (snd after)
    = (map error_row (snd acc) ++
       map (fun ir => js_nat (fst ir + 2))
           (filter (fun ir => negb (accepted sheetName headers (snd ir) (fst ir)))
                   (numbered i rows)))%list.
Proof.
  induction rows as [|row rows IH]; intros i acc w.
  - eexists _, _. split; [reflexivity|]. simpl. rewrite !app_nil_r. split; reflexivity.
  - destruct (sort_row_number sheetName headers row i acc w) as (mid & w1 & Hs & Hd1 & He1).
    destruct (IH (S i) mid w1) as (after & w' & Hrun & Hd & He).
    exists after, w'. split.
    + simpl. unfold bind. rewrite Hs. exact Hrun.
    + rewrite Hd, He, Hd1, He1. simpl.
      destruct (accepted sheetName headers row i); simpl;
        rewrite <- ?app_assoc; simpl; rewrite ?app_nil_r; split; reflexivity.
Qed.

(** The rows of a sheet are numbered from 2 in the order of the sheet:
    the loop over the data rows returns, the records it keeps carry in
    [_row] the numbers of the rows that were accepted, the error entries
    carry in [row] the numbers of the rows that were rejected, both in
    increasing order, a column named [_row] notwithstanding. *)
Theorem excel_rows_are_numbered_from_two
        (sheetName : string) (headers : list jsval) (rows : list (list jsval))
        (w : world) :
  exists records errors w',
    forEachM (sort_row sheetName headers) rows 0 ([], []) w = (Ok (records, errors), w') /\
    map data_row records
    = map (fun ir => js_nat (fst ir + 2))
          (filter (fun ir => accepted sheetName headers (snd ir) (fst ir))
                  (numbered 0 rows)) /\
    map error_row errors
    = map (fun ir => js_nat (fst ir + 2))
          (filter (fun ir => negb (accepted sheetName headers (snd ir) (fst ir)))
                  (numbered 0 rows)).
Proof.
  destruct (sort_rows_numbers sheetName headers rows 0 ([], []) w)
    as ([records errors] & w' & Hrun & Hd & He).
  exists records, errors, w'. split; [exact Hrun|]. split; assumption.
Qed.

End ExcelRows.

Section PdfRecords.
Import JS Registry Regex Contract Statements Notions.

Lemma set_not_nil (k : string) (v : jsval) (o : object) : set k v o <> [].
Proof.
  unfold set. destruct (has_own k o) eqn:E.
  - destruct o as [|[k0 v0] o]; [discriminate E|]. simpl. destruct (k0 =? k); discriminate.
  - destruct o as [|[k0 v0] o]; simpl; [discriminate|]. destruct (goes_before k k0); discriminate.
Qed.

Lemma put_not_nil (k : string) (v : jsval) (b : built) :
  own b <> [] \/ k <> "__proto__" -> own (put k v b) <> [].
Proof.
  intros [Hb|Hk].
  - destruct (own_put k v b) as [-> | ->]; [exact Hb|apply set_not_nil].
  - rewrite put_named by exact Hk. apply set_not_nil.
Qed.

Lemma zip_row_not_nil (headers columns : list string) :
  forall i record,
    own record <> [] \/ (exists h, In h headers /\ h <> "__proto__") ->
    own (Pdf.zip_row headers columns i record) <> [].
Proof.
  induction headers as [|h r IH]; intros i record Hr; simpl.
  - destruct Hr as [Hr|(h & [] & _)]. exact Hr.
  - apply IH. destruct (String.eqb_spec h "__proto__") as [->|Hne].
    + destruct Hr as [Hr|(h' & [<-|Hin] & Hh')].
      * left. apply put_not_nil. left; exact Hr.
      * contradiction.
      * right. exists h'. split; assumption.
    + left. apply put_not_nil. right; exact Hne.
Qed.

Lemma table_step_headers (st : option (list string) * list jsval) (line : string)
      (hs : list string) :
  fst st = Some hs -> fst (Pdf.table_step st line) = Some hs.
Proof.
  destruct st as [headers data]. simpl. intros ->. unfold Pdf.table_step.
  destruct (test Pdf.tablePattern line); [|reflexivity].
  destruct (_ =? _)%nat; reflexivity.
Qed.

Lemma table_headers_stable (lines : list string) :
  forall st hs, fst st = Some hs -> fst (fold_left Pdf.table_step lines st) = Some hs.
Proof.
  induction lines as [|line lines IH]; intros st hs Hst; simpl; [exact Hst|].
  apply IH. apply table_step_headers. exact Hst.
Qed.

Lemma table_step_populated (st : option (list string) * list jsval) (line : string) :
  (forall hs, fst st = Some hs -> exists h, In h hs /\ h <> "__proto__") ->
  Forall populated (snd st) ->
  Forall populated (snd (Pdf.table_step st line)).
Proof.
  destruct st as [headers data]. simpl. intros Hh Hd.
  unfold Pdf.table_step.
  destruct (test Pdf.tablePattern line); [|assumption].
  set (columns := filter _ _).
  destruct headers as [hs|].
  - destruct (List.length columns =? List.length hs)%nat; [|assumption].
    simpl. apply Forall_app. split; [exact Hd|].
    constructor; [|constructor].
    eexists. split; [reflexivity|].
    apply zip_row_not_nil. right. apply Hh. reflexivity.
  - destruct (1 <? List.length columns)%nat; assumption.
Qed.

Lemma extractTableData_populated (text : string) :
  named_columns text -> Forall populated (Pdf.extractTableData text).
Proof.
  unfold named_columns, table_headers, Pdf.extractTableData.
  assert (Hgen : forall lines st,
             (forall hs, fst (fold_left Pdf.table_step lines st) = Some hs ->
                         exists h, In h hs /\ h <> "__proto__") ->
             Forall populated (snd st) ->
             Forall populated (snd (fold_left Pdf.table_step lines st))).
  { induction lines as [|line lines IH]; intros st Hh Hd; simpl; [exact Hd|].
    apply IH; [exact Hh|]. apply table_step_populated; [|exact Hd].
    intros hs Hst. apply Hh. simpl. apply table_headers_stable.
    apply table_step_headers. exact Hst. }
  intros Hnamed. apply Hgen; [exact Hnamed|constructor].
Qed.

Lemma guarded_populated (o : object) :
  Forall populated (if (0 <? List.length (keys o))%nat then [JObj o] else []).
Proof.
  destruct o as [|kv o]; simpl; constructor; [|constructor].
  eexists. split; [reflexivity|discriminate].
Qed.

(** With a named column in the table, everything the three heuristics
    and the fallback extract is an object with at least one property. *)
Lemma extractDataFromPDF_populated (d : Pdf.pdfData) (items : list jsval) :
  named_columns (Pdf.text d) ->
  Pdf.extractDataFromPDF d = Ok items -> Forall populated items /\ items <> [].
Proof.
  intros Hnamed.
  unfold Pdf.extractDataFromPDF, Pdf.extractKeyValuePairs, Pdf.extractFormData.
  destruct (exec_all Pdf.keyValuePattern (Pdf.text d)) as [kv|e|]; simpl; try discriminate.
  destruct (exec_all Pdf.formPattern (Pdf.text d)) as [fm|e|]; simpl; try discriminate.
  intros [= <-].
  match goal with
  | |- context [(Pdf.extractTableData ?t ++ ?a ++ ?b)%list] =>
      assert (Hall : Forall populated (Pdf.extractTableData t ++ a ++ b)%list)
        by (repeat (apply Forall_app; split);
            [apply extractTableData_populated; exact Hnamed | apply guarded_populated
             | apply guarded_populated]);
      destruct (Pdf.extractTableData t ++ a ++ b)%list as [|x xs] eqn:E
  end; simpl.
  - split; [|discriminate]. constructor; [|constructor].
    eexists. split; [reflexivity|discriminate].
  - split; [exact Hall|discriminate].
Qed.

Lemma populated_is_valid (item : jsval) (index : nat) :
  populated item -> isValid (Pdf.validatePdfRecord item index) = true.
Proof.
  intros (o & -> & Ho). destruct o as [|kv o]; [contradiction|]. reflexivity.
Qed.

Context `{Runtime} `{Pdf.PdfLib}.

Lemma pdf_sort_item_valid (item : jsval) (i : nat) (records errors : list jsval)
      (w : world) :
  populated item ->
  exists record w',
    Pdf.sort_item item i (records, errors) w = (Ok ((records ++ [record])%list, errors), w').
Proof.
  intros Hitem. unfold Pdf.sort_item.
  rewrite (populated_is_valid item i Hitem).
  eexists _, _. reflexivity.
Qed.

Lemma pdf_sort_items_valid (items : list jsval) :
  Forall populated items ->
  forall i records errors w,
  exists records' w',
    forEachM Pdf.sort_item items i (records, errors) w = (Ok (records', errors), w') /\
    List.length records' = List.length records + List.length items.
Proof.
  induction 1 as [|item items Hitem Hitems IH]; intros i records errors w.
  - eexists _, _. split; [reflexivity|]. simpl. lia.
  - destruct (pdf_sort_item_valid item i records errors w Hitem) as (record & w1 & Hs).
    destruct (IH (S i) (records ++ [record])%list errors w1) as (records' & w' & Hrun & Hlen).
    exists records', w'. split.
    + cbn [forEachM]. unfold bind. rewrite Hs. exact Hrun.
    + rewrite Hlen, length_app. simpl. lia.
Qed.

(** Once the file is read and parsed, and unless every column of the
    table found in the text is headed [__proto__], the PDF processor
    returns a result with at least one record and no error entry: every
    item the extraction produces is a non-empty object, so the
    validation rejects none, and when the heuristics find nothing the
    whole text is the one record.  (Under headers that are all named
    [__proto__] the rows of the table are empty records.) *)
Theorem pdf_process_reports_no_errors
        (file : upload) (metadata : object) (w : world) (bytes : string) (d : Pdf.pdfData) :
  read_upload Pdf.readFileSync (path file) (buffer file) = Ok bytes ->
  Pdf.pdf bytes = Ok d ->
  named_columns (Pdf.text d) ->
  exists r w',
    Pdf.process file metadata w = (Ok r, w') /\
    errors r = [] /\
    data r <> [] /\
    field (Contract.metadata r) "errorItems" = JNum 0 /\
    field (Contract.metadata r) "validItems" = field (Contract.metadata r) "totalItems".
Proof.
  intros Hread Hpdf Hnamed.
  destruct (extractDataFromPDF_total d) as (items & Hitems & _).
  destruct (extractDataFromPDF_populated d items Hnamed Hitems) as [Hall Hne].
  destruct (pdf_sort_items_valid items Hall 0 [] [] w) as (records & w' & Hloop & Hlen).
  unfold Pdf.process, rethrow, try_catchM, bind, lift.
  rewrite Hread, Hpdf, Hitems, Hloop.
  eexists _, _. split; [reflexivity|]. simpl.
  split; [reflexivity|]. split.
  - intros ->. simpl in Hlen. destruct items; [contradiction|discriminate].
  - split; [reflexivity|]. unfold field. simpl. rewrite Nat.add_0_r. reflexivity.
Qed.

End PdfRecords.

Section ImageRecords.
Import JS Registry Regex Contract Statements Notions.

Lemma extractDataFromOCR_populated (text : string) (items : list jsval) :
  Image.extractDataFromOCR text = Ok items -> Forall populated items.
Proof.
  unfold Image.extractDataFromOCR, Image.extractFormFromOCR, Image.extractKeyValueFromOCR.
  match goal with
  | |- context [fold_left ?f Image.patterns ?a] =>
      destruct (fold_left f Image.patterns a) as [extracted|e|]
  end; simpl; try discriminate.
  destruct (exec_all Image.keyValuePattern text) as [kv|e|]; simpl; try discriminate.
  intros [= <-].
  apply Forall_app. split; apply guarded_populated.
Qed.

Lemma populated_is_valid_image (item : jsval) (index : nat) :
  populated item -> isValid (Image.validateImageRecord item index) = true.
Proof.
  intros (o & -> & Ho). destruct o as [|kv o]; [contradiction|]. reflexivity.
Qed.

Lemma word_count_returns (words : jsval) : exists n, Image.word_count words = Ok n.
Proof.
  unfold Image.word_count.
  destruct words as [| |[|]|n|s| |xs|o]; simpl; try (eexists; reflexivity).
  - destruct (n =? 0)%Z; eexists; reflexivity.
  - destruct (s =? ""); simpl; [eexists; reflexivity|].
    destruct ("length" =? "length"); eexists; reflexivity.
Qed.

Context `{Runtime} `{Image.ImageLib}.

Lemma image_sort_item_valid (imageMetadata : object) (item : jsval) (i : nat)
      (records errors : list jsval) (w : world) :
  populated item ->
  exists record w',
    Image.sort_item imageMetadata item i (records, errors) w
    = (Ok ((records ++ [record])%list, errors), w').
Proof.
  intros Hitem. unfold Image.sort_item.
  rewrite (populated_is_valid_image item i Hitem).
  eexists _, _. reflexivity.
Qed.

Lemma image_sort_items_valid (imageMetadata : object) (items : list jsval) :
  Forall populated items ->
  forall i records errors w,
  exists records' w',
    forEachM (Image.sort_item imageMetadata) items i (records, errors) w
    = (Ok (records', errors), w') /\
    List.length records' = List.length records + List.length items.
Proof.
  induction 1 as [|item items Hitem Hitems IH]; intros i records errors w.
  - eexists _, _. split; [reflexivity|]. simpl. lia.
  - destruct (image_sort_item_valid imageMetadata item i records errors w Hitem)
      as (record & w1 & Hs).
    destruct (IH (S i) (records ++ [record])%list errors w1) as (records' & w' & Hrun & Hlen).
    exists records', w'. split.
    + cbn [forEachM]. unfold bind. rewrite Hs. exact Hrun.
    + rewrite Hlen, length_app. simpl. lia.
Qed.

(** Once the image is read, measured and recognised, the image processor
    returns a result without error entries: what the heuristics extract
    is never an empty object.  [data] holds one record per extracted
    item, or, when nothing was extracted and the recognised text is not
    blank, the one record of the whole text. *)
Theorem image_process_never_reports_errors
        (file : upload) (metadata : object) (w : world) (bytes : string)
        (imageMetadata : object) (ocr : Image.ocrData) :
  read_upload Image.readFileSync (path file) (buffer file) = Ok bytes ->
  Image.sharp_metadata bytes = Ok imageMetadata ->
  Image.performOCR bytes = Ok ocr ->
  exists r w' items,
    Image.process file metadata w = (Ok r, w') /\
    Image.extractDataFromOCR (Image.text ocr) = Ok items /\
    errors r = [] /\
    List.length (data r)
    = (if (List.length items =? 0)%nat && (0 <? strlen (trim (Image.text ocr)))%nat
       then 1 else List.length items).
Proof.
  intros Hread Hmeta Hocr.
  destruct (extractDataFromOCR_total (Image.text ocr)) as (items & Hitems).
  pose proof (extractDataFromOCR_populated _ _ Hitems) as Hall.
  destruct (image_sort_items_valid imageMetadata items Hall 0 [] [] w)
    as (records & w1 & Hloop & Hlen).
  destruct (word_count_returns (Image.words ocr)) as (n & Hn).
  unfold Image.process, rethrow, try_catchM, bind, lift.
  rewrite Hread, Hmeta, Hocr, Hitems, Hloop, Hn.
  simpl in Hlen. rewrite Hlen.
  destruct ((List.length items =? 0)%nat && (0 <? strlen (trim (Image.text ocr)))%nat) eqn:E.
  - eexists _, _, items. rewrite E. split; [reflexivity|]. split; [reflexivity|]. simpl.
    split; [reflexivity|].
    rewrite length_app, Hlen. apply andb_prop in E as [E _].
    apply Nat.eqb_eq in E. rewrite E. reflexivity.
  - eexists _, _, items. rewrite E. split; [reflexivity|]. split; [reflexivity|]. simpl.
    split; [reflexivity|]. exact Hlen.
Qed.

End ImageRecords.

Section ScriptRuns.
Import JS Registry Contract Script Statements Notions.
Context `{Runtime} `{ScriptHost}.

(** The four ways a run of the Python script fails the CSV and the XML
    processor: a non-zero exit code, a process that cannot be started,
    output that is not JSON, each thrown on with the processor's label
    in front and before any record is made, and a process that never
    exits, on which the processor waits for ever. *)
Theorem script_failure_modes
        (label script source display : string) (file : upload) (metadata : object)
        (w : world) :
  let run := spawn_python (script_path script) [file_path file] in
  (forall code stdout stderr,
      run = Closed code stdout stderr -> is_zero code = false ->
      process_with label script source display file metadata w
      = (throw_error (label ++ " failed: Python script failed with code " ++
                      to_string code ++ ": " ++ stderr), w)) /\
  (forall message,
      run = Failed message ->
      process_with label script source display file metadata w
      = (throw_error (label ++ " failed: Failed to start Python process: " ++ message), w)) /\
  (forall stdout stderr e,
      run = Closed (JNum 0) stdout stderr -> JSON_parse stdout = Throw e ->
      process_with label script source display file metadata w
      = (throw_error (label ++ " failed: Failed to parse Python output as JSON: " ++
                      emessage e), w)) /\
  (run = Running ->
   process_with label script source display file metadata w = (Hang, w)).
Proof.
  intros run. subst run.
  unfold process_with, rethrow, try_catchM, bind, lift, executePythonScript.
  repeat split.
  - intros code stdout stderr -> Hcode. rewrite Hcode. reflexivity.
  - intros message ->. reflexivity.
  - intros stdout stderr e -> Hparse. simpl. rewrite Hparse. reflexivity.
  - intros ->. reflexivity.
Qed.

Lemma field_set (k k' : string) (v : jsval) (o : object) :
  field (set k' v o) k = if k' =? k then v else field o k.
Proof. unfold field. rewrite lookup_set. destruct (k' =? k); reflexivity. Qed.

Lemma mapM_Forall2 {A B} (f : A -> M B) (R : A -> B -> Prop) (xs : list A) :
  (forall x w, In x xs -> exists y w', f x w = (Ok y, w') /\ R x y) ->
  forall w, exists ys w', mapM f xs w = (Ok ys, w') /\ Forall2 R xs ys.
Proof.
  induction xs as [|x xs IH]; intros Hf w.
  - eexists _, _. split; [reflexivity|constructor].
  - destruct (Hf x w (or_introl eq_refl)) as (y & w1 & Hy & Hr).
    destruct (IH (fun x' w' Hin => Hf x' w' (or_intror Hin)) w1) as (ys & w2 & Hys & Hrs).
    exists (y :: ys), w2. split; [|constructor; assumption].
    cbn [mapM]. unfold bind. rewrite Hy, Hys. reflexivity.
Qed.

Lemma get_defined (v : jsval) (k : string) :
  defined v -> k <> "length" -> get v k = Ok (field (own_props v) k).
Proof.
  intros [Hn Hu] Hk. unfold get, field.
  destruct v as [| | | | | |xs|o]; try contradiction; try reflexivity;
    destruct (String.eqb_spec k "length"); try contradiction; reflexivity.
Qed.

Lemma mapM_throws {A B} (f : A -> M B) (P : jserror -> Prop) (xs : list A) :
  (forall x w, In x xs ->
               (exists y w', f x w = (Ok y, w')) \/
               (exists e w', f x w = (Throw e, w') /\ P e)) ->
  (exists x, In x xs /\ forall w, exists e w', f x w = (Throw e, w') /\ P e) ->
  forall w, exists e w', mapM f xs w = (Throw e, w') /\ P e.
Proof.
  induction xs as [|x xs IH]; intros Hall (bad & Hin & Hbad) w; [contradiction|].
  cbn [mapM]. unfold bind at 1.
  destruct (Hall x w (or_introl eq_refl)) as [(y & w1 & Hy)|(e & w1 & He & HP)].
  - rewrite Hy. destruct Hin as [->|Hin].
    + destruct (Hbad w) as (e & w' & He & _). congruence.
    + destruct (IH (fun x' w' H' => Hall x' w' (or_intror H'))
                   (ex_intro _ bad (conj Hin Hbad)) w1) as (e & w2 & He & HP).
      exists e, w2. unfold bind. rewrite He. split; [reflexivity|exact HP].
  - rewrite He. exists e, w1. split; [reflexivity|exact HP].
Qed.

Lemma defined_or_not (v : jsval) : defined v \/ v = JNull \/ v = JUndefined.
Proof.
  destruct v; try (left; split; discriminate); right; [right|left]; reflexivity.
Qed.

(** When the script exits with code 0 and prints an object whose
    [processedData] and [errorLogs] are arrays (or absent), and no entry
    of [errorLogs] is [null] or [undefined], the CSV and the XML
    processor return one record per item and one error entry per log,
    in the order of the script's output: each record is the item with
    the four stamps, each entry is the log with its own [type], or
    ['processing_error'] when it has none.  With an entry of
    [errorLogs] that is [null] or [undefined] the processor throws:
    reading the [type] of that entry fails. *)
Theorem script_result_mirrors_output
        (label script source display : string) (file : upload) (metadata : object)
        (w : world) (o : object) (items logs : list jsval) :
  executePythonScript (script_path script) [file_path file] = Ok (JObj o) ->
  or_else (field o "processedData") (JArr []) = JArr items ->
  or_else (field o "errorLogs") (JArr []) = JArr logs ->
  (Forall defined logs ->
   exists r w',
     process_with label script source display file metadata w = (Ok r, w') /\
     Forall2 (stamped source (originalname file)) items (data r) /\
     Forall2 (logged source (originalname file)) logs (errors r)) /\
  (~ Forall defined logs ->
   exists what w',
     (what = "null" \/ what = "undefined") /\
     process_with label script source display file metadata w
     = (throw_error (label ++ " failed: Cannot read properties of " ++ what ++
                     " (reading 'type')"), w')).
Proof.
  intros Hrun Hitems Hlogs.
  assert (Hrecords : exists records w1,
             mapM (fun item =>
                     bind generateRecordId (fun id =>
                     bind new_Date (fun processedAt =>
                     ret (JObj (set "_originalFile" (JStr (originalname file))
                                 (set "_source" (JStr source)
                                   (set "_processedAt" processedAt
                                     (set "_id" (JStr id) (spread [] item)))))))))
                  items w = (Ok records, w1) /\
             Forall2 (stamped source (originalname file)) items records).
  { apply mapM_Forall2.
    intros item w0 _. eexists _, _. split; [reflexivity|].
    eexists. split; [reflexivity|].
    rewrite !field_set. simpl.
    repeat split; try (eexists; reflexivity).
    intros k Hk. rewrite !lookup_set.
    repeat match goal with
           | |- context [String.eqb ?a k] =>
               destruct (String.eqb_spec a k) as [<-|_]; [exfalso; apply Hk; simpl; tauto|]
           end.
    reflexivity. }
  destruct Hrecords as (records & w1 & Hrecords & Hstamped).
  split; [intros Hdef|intros Hnot];
    unfold process_with, rethrow, try_catchM;
    unfold bind at 1; unfold lift at 1; rewrite Hrun;
    unfold bind at 1; unfold lift at 1; cbn [get]; fold (field o "processedData");
    unfold bind at 1; unfold lift at 1; cbn [get]; fold (field o "errorLogs");
    rewrite Hitems, Hlogs;
    unfold bind at 1; unfold lift at 1; cbn [as_array];
    unfold bind at 1; rewrite Hrecords;
    unfold bind at 1; unfold lift at 1; cbn [as_array].
  - match goal with
    | |- context [mapM ?f logs] =>
        destruct (mapM_Forall2 f (logged source (originalname file)) logs) with (w := w1)
          as (errors & w2 & Herrors & Hlogged)
    end.
    { intros log w0 Hin.
      rewrite Forall_forall in Hdef. specialize (Hdef log Hin).
      unfold bind, new_Date, bind, Date_now, ret, lift.
      rewrite (get_defined log "type" Hdef) by discriminate.
      eexists _, _. split; [reflexivity|].
      eexists. split; [reflexivity|].
      rewrite !field_set. simpl.
      repeat split.
      intros k Hk. rewrite !lookup_set.
      repeat match goal with
             | |- context [String.eqb ?a k] =>
                 destruct (String.eqb_spec a k) as [<-|_]; [exfalso; apply Hk; simpl; tauto|]
             end.
      reflexivity. }
    unfold bind at 1. rewrite Herrors.
    eexists _, _. split; [reflexivity|]. simpl. split; assumption.
  - assert (Hbad : exists log, In log logs /\ (log = JNull \/ log = JUndefined)).
    { clear - Hnot. induction logs as [|log logs IH]; [exfalso; apply Hnot; constructor|].
      destruct (defined_or_not log) as [Hd|Hn].
      - destruct IH as (bad & Hin & Hb).
        + intros Hall. apply Hnot. constructor; assumption.
        + exists bad. split; [right; exact Hin|exact Hb].
      - exists log. split; [left; reflexivity|exact Hn]. }
    match goal with
    | |- context [mapM ?f logs] =>
        destruct (mapM_throws f
                    (fun e => exists what,
                         (what = "null" \/ what = "undefined") /\
                         e = mkError TypeError ("Cannot read properties of " ++ what ++
                                                " (reading 'type')"))
                    logs) with (w := w1)
          as (e & w2 & Herrors & what & Hwhat & He)
    end.
    { intros log w0 _. unfold bind, new_Date, bind, Date_now, ret, lift.
      destruct (defined_or_not log) as [Hd|[->| ->]].
      - left. rewrite (get_defined log "type" Hd) by discriminate.
        eexists _, _. reflexivity.
      - right. eexists _, _. split; [reflexivity|]. exists "null". split; [left|]; reflexivity.
      - right. eexists _, _. split; [reflexivity|].
        exists "undefined". split; [right|]; reflexivity. }
    { destruct Hbad as (bad & Hin & Hb). exists bad. split; [exact Hin|].
      intros w0. unfold bind, new_Date, bind, Date_now, ret, lift.
      destruct Hb as [-> | ->]; eexists _, _; (split; [reflexivity|]);
        [exists "null"|exists "undefined"]; (split; [auto|reflexivity]). }
    unfold bind at 1. rewrite Herrors. subst e.
    exists what, w2. split; [exact Hwhat|]. reflexivity.
Qed.

End ScriptRuns.

Section ColumnProperties.
Import JS Exporter Statements Notions.

Lemma existsb_eqb_In (key : string) (fields : list string) :
  existsb (String.eqb key) fields = true <-> In key fields.
Proof.
  rewrite existsb_exists. split.
  - intros (x & Hin & Hx). apply String.eqb_eq in Hx. subst. exact Hin.
  - intros Hin. exists key. split; [exact Hin|apply String.eqb_refl].
Qed.

Lemma add_keys_spec (ks fields : list string) :
  NoDup fields ->
  let fields' :=
    fold_left (fun fields key =>
                 if existsb (String.eqb key) fields then fields else (fields ++ [key])%list)
              ks fields in
  NoDup fields' /\ forall k, In k fields' <-> In k fields \/ In k ks.
Proof.
  revert fields. induction ks as [|key ks IH]; intros fields Hnd; simpl.
  - split; [exact Hnd|]. intros k. tauto.
  - destruct (existsb (String.eqb key) fields) eqn:E.
    + destruct (IH fields Hnd) as [Hnd' Hin]. split; [exact Hnd'|].
      intros k. rewrite Hin. apply existsb_eqb_In in E.
      split; [tauto|]. intros [Hk|[<-|Hk]]; auto.
    + assert (Hfresh : ~ In key fields).
      { intros Hin. apply existsb_eqb_In in Hin. congruence. }
      destruct (IH (fields ++ [key])%list) as [Hnd' Hin].
      { apply NoDup_app; [exact Hnd|constructor; [simpl; tauto|constructor]|].
        intros x Hx [<-|[]]. contradiction. }
      split; [exact Hnd'|].
      intros k. rewrite Hin, in_app_iff. simpl. tauto.
Qed.

(** The columns of an export: [getAllFields] lists every key that
    occurs in some row, and lists it once. *)
Theorem getAllFields_lists_each_key_once (rows : list object) :
  NoDup (getAllFields rows) /\
  forall k, In k (getAllFields rows) <-> exists row, In row rows /\ In k (keys row).
Proof.
  unfold getAllFields.
  assert (Hgen : forall rows fields,
             NoDup fields ->
             let fields' :=
               fold_left
                 (fun fields item =>
                    fold_left
                      (fun fields key =>
                         if existsb (String.eqb key) fields then fields
                         else (fields ++ [key])%list)
                      (keys item) fields)
                 rows fields in
             NoDup fields' /\
             forall k, In k fields' <->
                       In k fields \/ exists row, In row rows /\ In k (keys row)).
  { clear rows. induction rows as [|row rows IH]; intros fields Hnd; simpl.
    - split; [exact Hnd|]. intros k. split; [tauto|].
      intros [Hk|(row & [] & _)]. exact Hk.
    - destruct (add_keys_spec (keys row) fields Hnd) as [Hnd1 Hin1].
      destruct (IH _ Hnd1) as [Hnd2 Hin2].
      split; [exact Hnd2|].
      intros k. rewrite Hin2, Hin1. split.
      + intros [[Hk|Hk]|(r & Hr & Hk)]; [left; exact Hk| |].
        * right. exists row. split; [left; reflexivity|exact Hk].
        * right. exists r. split; [right; exact Hr|exact Hk].
      + intros [Hk|(r & [<-|Hr] & Hk)]; [tauto|tauto|].
        right. exists r. split; assumption. }
  destruct (Hgen rows [] (NoDup_nil _)) as [Hnd Hin].
  split; [exact Hnd|].
  intros k. rewrite Hin. simpl. tauto.
Qed.

Context `{Runtime}.

Lemma widest_bounds (rows : list object) (key : string) :
  forall start,
    start <= widest rows key start /\
    forall row, In row rows -> truthy (field row key) = true ->
                strlen (to_string (field row key)) <= widest rows key start.
Proof.
  induction rows as [|r rows IH]; intros start; simpl.
  - split; [lia|]. intros row [].
  - set (next := if truthy (field r key) then _ else _).
    destruct (IH next) as [Hge Hrows].
    assert (Hnext : start <= next /\
                    (truthy (field r key) = true ->
                     strlen (to_string (field r key)) <= next)).
    { subst next. destruct (truthy (field r key)).
      - destruct (Nat.ltb_spec start (strlen (to_string (field r key)))); split; intros; lia.
      - split; [lia|discriminate]. }
    unfold widest in *. split; [lia|].
    intros row [<-|Hin] Ht.
    + destruct Hnext as [_ Hn]. specialize (Hn Ht). lia.
    + apply Hrows; assumption.
Qed.

(** The column widths of a sheet: one per key of the first row, each
    between 10 and 50, and wide enough for the header and for every
    truthy cell of the column plus 2, up to the limit of 50. *)
Theorem autoSizeColumns_fits_cells (first : object) (more : list object) :
  let rows := first :: more in
  List.length (autoSizeColumns rows) = List.length (keys first) /\
  forall i key,
    nth_error (keys first) i = Some key ->
    exists wch,
      nth_error (autoSizeColumns rows) i = Some wch /\
      10 <= wch <= 50 /\
      Nat.min 50 (strlen key + 2) <= wch /\
      forall row, In row rows -> truthy (field row key) = true ->
                  Nat.min 50 (strlen (to_string (field row key)) + 2) <= wch.
Proof.
  intros rows. unfold autoSizeColumns. subst rows. cbv zeta.
  split; [apply length_map|].
  intros i key Hkey.
  rewrite nth_error_map, Hkey. simpl option_map.
  eexists. split; [reflexivity|].
  destruct (widest_bounds (first :: more) key (strlen key)) as [Hge Hrows].
  match goal with
  | |- context [Nat.max (?m + 2) 10] =>
      change m with (widest (first :: more) key (strlen key))
  end.
  generalize dependent (widest (first :: more) key (strlen key)). intros maxWidth Hge Hrows.
  split; [lia|]. split; [lia|].
  intros row Hin Ht. specialize (Hrows row Hin Ht). lia.
Qed.

End ColumnProperties.

Section StatusUpdates.
Import JS ErrorLog Statements.

Lemma findByIdAndUpdate_frame (id : string) (u : update) (logs : collection) :
  map _id (snd (findByIdAndUpdate id u logs)) = map _id logs /\
  map report (snd (findByIdAndUpdate id u logs)) = map report logs /\
  forall other, other <> id ->
                findById other (snd (findByIdAndUpdate id u logs)) = findById other logs.
Proof.
  induction logs as [|log logs (Hid & Hrep & Hother)]; simpl.
  - repeat split.
  - destruct (String.eqb_spec (_id log) id) as [E|N]; simpl.
    + repeat split. intros other Hne.
      destruct (String.eqb_spec (_id log) other); [congruence|reflexivity].
    + destruct (findByIdAndUpdate id u logs) as [found logs'] eqn:Hf. simpl in *.
      rewrite Hid, Hrep. repeat split.
      intros other Hne. rewrite (Hother other Hne). reflexivity.
Qed.

(** A status update always answers, and touches at most the log it
    addresses: the collection keeps its ids in their order, the reports
    of all logs stay as they were, and every log with another id is the
    same after the request as before, whatever the request was. *)
Theorem patch_status_leaves_other_logs
        `{Runtime} `{Store} (id : string) (b : body) (logs : collection) (w : world) :
  exists r logs' w',
    patch_status id b logs w = (Ok (r, logs'), w') /\
    map _id logs' = map _id logs /\
    map report logs' = map report logs /\
    forall other, other <> id -> findById other logs' = findById other logs.
Proof.
  unfold patch_status.
  destruct (valid_status (req_status b)) as [status|].
  - assert (Hany : forall u w1,
               exists r logs' w',
                 (if negb (castable id)
                  then ret (mkResponse 400 false "Invalid error ID format" None, logs)
                  else match findByIdAndUpdate id u logs with
                       | (None, _) =>
                           ret (mkResponse 404 false "Error log not found" None, logs)
                       | (Some updatedError, logs') =>
                           ret (mkResponse 200 true "Error status updated successfully"
                                           (Some updatedError), logs')
                       end) w1 = (Ok (r, logs'), w') /\
                 map _id logs' = map _id logs /\
                 map report logs' = map report logs /\
                 forall other, other <> id -> findById other logs' = findById other logs).
    { intros u w1. destruct (negb (castable id)).
      - eexists _, _, _. split; [reflexivity|]. repeat split.
      - pose proof (findByIdAndUpdate_frame id u logs) as Hframe.
        destruct (findByIdAndUpdate id u logs) as [[updatedError|] logs'].
        + eexists _, _, _. split; [reflexivity|]. exact Hframe.
        + eexists _, _, _. split; [reflexivity|]. repeat split. }
    destruct status; unfold bind at 1; unfold bind, Date_now, ret at 1; apply Hany.
  - eexists _, _, _. split; [reflexivity|]. repeat split.
Qed.

(** What a status update does to the resolution fields of the log it
    finds.  Resolving stamps [resolvedAt] with the current time and
    [resolvedBy] with the name given, or ['System'], and replaces the
    notes only when notes are given.  Any other status leaves the three
    fields as they were, so a log that is reopened still says when and
    by whom it was resolved. *)
Theorem patch_status_resolution_fields
        `{Runtime} `{Store} (id : string) (b : body) (logs : collection)
        (log : errorLog) (target : status) (w : world) :
  castable id = true ->
  findById id logs = Some log ->
  valid_status (req_status b) = Some target ->
  exists r logs' log' w',
    patch_status id b logs w = (Ok (r, logs'), w') /\
    updated r = Some log' /\
    findById id logs' = Some log' /\
    report log' = report log /\
    (target = RESOLVED ->
       resolvedAt log' = Some (clock (ticks w)) /\
       resolvedBy log'
       = Some (match truthy_string (req_resolvedBy b) with
               | Some who => who
               | None => "System"
               end) /\
       resolutionNotes log'
       = match truthy_string (req_resolutionNotes b) with
         | Some notes => Some notes
         | None => resolutionNotes log
         end) /\
    (target <> RESOLVED ->
       resolvedAt log' = resolvedAt log /\
       resolvedBy log' = resolvedBy log /\
       resolutionNotes log' = resolutionNotes log).
Proof.
  intros Hid Hfind Hv. unfold patch_status. rewrite Hv.
  destruct target; unfold bind, Date_now, ret; simpl; rewrite Hid; simpl;
    match goal with
    | |- context [findByIdAndUpdate id ?u logs] =>
        destruct (findByIdAndUpdate_found id u logs log Hfind) as (logs' & -> & Hl)
    end;
    eexists _, _, _, _; (split; [reflexivity|]); simpl;
    (split; [reflexivity|]); (split; [exact Hl|]); (split; [reflexivity|]);
    split; intros Ht; try discriminate Ht; try (exfalso; apply Ht; reflexivity);
    repeat split.
Qed.

End StatusUpdates.

Section SanitizeProperties.
Import JS Validate.

Lemma sanitizeData_obj (o : object) :
  sanitizeData (JObj o) = JObj (sanitize_entries o []).
Proof.
  simpl. f_equal. unfold sanitize_entries.
  generalize (@nil (string * jsval)).
  induction o as [|[key value] more IH]; intros acc; simpl; [reflexivity|].
  apply IH.
Qed.

Lemma sanitizeData_arr (xs : list jsval) :
  sanitizeData (JArr xs) = JObj (sanitize_entries (indexed_from 0 xs) []).
Proof.
  simpl. f_equal. unfold sanitize_entries.
  generalize (@nil (string * jsval)). generalize 0.
  induction xs as [|value more IH]; intros i acc; simpl; [reflexivity|].
  apply IH.
Qed.

Lemma drop_while_head (p : ascii -> bool) (l : list ascii) :
  match drop_while p l with
  | [] => True
  | c :: _ => p c = false
  end.
Proof.
  induction l as [|c l IH]; simpl; [exact I|].
  destruct (p c) eqn:E; [exact IH|exact E].
Qed.

Lemma drop_while_fixed (p : ascii -> bool) (l : list ascii) :
  match l with [] => True | c :: _ => p c = false end -> drop_while p l = l.
Proof. destruct l as [|c l]; simpl; [reflexivity|]. intros ->. reflexivity. Qed.

Lemma drop_while_suffix (p : ascii -> bool) (l : list ascii) :
  exists dropped, l = (dropped ++ drop_while p l)%list.
Proof.
  induction l as [|c l (d & IH)]; simpl.
  - exists []. reflexivity.
  - destruct (p c).
    + exists (c :: d). simpl. f_equal. exact IH.
    + exists []. reflexivity.
Qed.

(** The characters [trim] leaves start and end with a character that is
    no white space. *)
Lemma trimmed_ends (l : list ascii) :
  let m := drop_while is_space (rev (drop_while is_space l)) in
  drop_while is_space m = m /\ drop_while is_space (rev m) = rev m.
Proof.
  intros m. split.
  - apply drop_while_fixed. apply drop_while_head.
  - apply drop_while_fixed.
    destruct (drop_while_suffix is_space (rev (drop_while is_space l))) as (d & Hd).
    fold m in Hd.
    assert (Hrev : drop_while is_space l = (rev m ++ rev d)%list).
    { rewrite <- rev_app_distr, <- Hd, rev_involutive. reflexivity. }
    pose proof (drop_while_head is_space l) as Hhead.
    rewrite Hrev in Hhead.
    destruct (rev m) as [|c r]; [exact I|exact Hhead].
Qed.

Lemma trim_idempotent (s : string) : trim (trim s) = trim s.
Proof.
  unfold trim, str, chars.
  rewrite list_ascii_of_string_of_list_ascii.
  destruct (trimmed_ends (list_ascii_of_string s)) as [Hm Hr].
  cbv zeta in Hm, Hr.
  rewrite Hr, rev_involutive, Hm. reflexivity.
Qed.

Lemma keep_named (k : string) (v : jsval) (o : object) :
  k <> "__proto__" -> keep k v o = set k v o.
Proof.
  intros Hk. unfold keep. destruct (String.eqb_spec k "__proto__"); [contradiction|reflexivity].
Qed.

Lemma keep_cases (k : string) (v : jsval) (o : object) :
  keep k v o = o \/ (k <> "__proto__" /\ keep k v o = set k v o).
Proof.
  unfold keep. destruct (String.eqb_spec k "__proto__"); [left|right; split]; auto.
Qed.

Lemma sanitize_entries_keys (entries : list (string * jsval)) :
  forall acc, NoDup (keys acc) -> NoDup (keys (sanitize_entries entries acc)).
Proof.
  unfold sanitize_entries.
  induction entries as [|[k v] entries IH]; intros acc Hnd; simpl; [exact Hnd|].
  apply IH. destruct (keep_cases k (sanitize_field v) acc) as [-> | [_ ->]];
    [exact Hnd|apply NoDup_set; exact Hnd].
Qed.

Lemma sanitize_entries_ordered (entries : list (string * jsval)) :
  forall acc, ordered (keys acc) -> ordered (keys (sanitize_entries entries acc)).
Proof.
  unfold sanitize_entries.
  induction entries as [|[k v] entries IH]; intros acc Hord; simpl; [exact Hord|].
  apply IH. destruct (keep_cases k (sanitize_field v) acc) as [-> | [_ ->]];
    [exact Hord|apply ordered_set; exact Hord].
Qed.

(** The keys of the result: those of the entries, but for [__proto__]. *)
Lemma sanitize_entries_in_keys (entries : list (string * jsval)) :
  forall acc k,
    In k (keys (sanitize_entries entries acc))
    <-> In k (keys acc) \/ (In k (keys entries) /\ k <> "__proto__").
Proof.
  unfold sanitize_entries.
  induction entries as [|[k0 v] entries IH]; intros acc k; simpl; [tauto|].
  rewrite IH. unfold keep. destruct (String.eqb_spec k0 "__proto__") as [->|Hne].
  - split; [tauto|]. intros [Hin|[[<-|Hin] Hk]]; tauto.
  - rewrite keys_set. split.
    + intros [[->|Hin]|[Hin Hk]]; tauto.
    + intros [Hin|[[<-|Hin] Hk]]; tauto.
Qed.

Lemma sanitize_entries_values (P : jsval -> Prop) (entries : list (string * jsval)) :
  Forall (fun kv => P (sanitize_field (snd kv))) entries ->
  forall acc, Forall (fun kv => P (snd kv)) acc ->
              Forall (fun kv => P (snd kv)) (sanitize_entries entries acc).
Proof.
  unfold sanitize_entries.
  induction 1 as [|[k v] entries Hv Hrest IH]; intros acc Hacc; simpl; [exact Hacc|].
  apply IH. destruct (keep_cases k (sanitize_field v) acc) as [-> | [_ ->]];
    [exact Hacc|apply set_entries; auto].
Qed.

(** The entries under [__proto__] leave no trace. *)
Lemma sanitize_entries_filter (entries : list (string * jsval)) :
  forall acc,
    sanitize_entries entries acc
    = sanitize_entries (filter (fun kv => negb (fst kv =? "__proto__")) entries) acc.
Proof.
  unfold sanitize_entries.
  induction entries as [|[k v] entries IH]; intros acc; simpl; [reflexivity|].
  destruct (k =? "__proto__") eqn:E; simpl.
  - unfold keep at 2. simpl. rewrite E. apply IH.
  - apply IH.
Qed.

Lemma sanitize_entries_fresh (entries : list (string * jsval)) :
  forall acc,
    ~ In "__proto__" (keys entries) ->
    NoDup (keys acc ++ keys entries) ->
    ordered (keys acc ++ keys entries) ->
    sanitize_entries entries acc
    = (acc ++ map (fun kv => (fst kv, sanitize_field (snd kv))) entries)%list.
Proof.
  unfold sanitize_entries.
  induction entries as [|[k v] entries IH]; intros acc Hno Hnd Hord; simpl.
  - rewrite app_nil_r. reflexivity.
  - simpl in Hno, Hnd, Hord.
    assert (Hk : k <> "__proto__") by (intros ->; apply Hno; left; reflexivity).
    assert (Hfresh : ~ In k (keys acc)).
    { apply NoDup_remove_2 in Hnd. intros Hin. apply Hnd. apply in_or_app. left. exact Hin. }
    change (keys acc ++ k :: keys entries)%list
      with (keys acc ++ [k] ++ keys entries)%list in Hnd, Hord.
    rewrite app_assoc in Hnd, Hord.
    assert (Hkeys : (keys acc ++ [k])%list = keys (acc ++ [(k, sanitize_field v)])%list).
    { unfold keys. rewrite map_app. reflexivity. }
    rewrite keep_named by exact Hk.
    rewrite set_last.
    + rewrite IH.
      * rewrite <- app_assoc. reflexivity.
      * intros Hin. apply Hno. right; exact Hin.
      * rewrite <- Hkeys. exact Hnd.
      * rewrite <- Hkeys. exact Hord.
    + exact Hfresh.
    + rewrite <- Hkeys. apply ordered_app in Hord as [Hord _]. exact Hord.
Qed.

Lemma keys_filter (p : string -> bool) (o : object) :
  keys (filter (fun kv => p (fst kv)) o) = filter p (keys o).
Proof.
  induction o as [|[k v] o IH]; simpl; [reflexivity|].
  destruct (p k); simpl; rewrite IH; reflexivity.
Qed.

Lemma ordered_filter (p : string -> bool) (l : list string) :
  ordered l -> ordered (filter p l).
Proof.
  induction l as [|a l IH]; simpl; [auto|]. intros [Hall Hord].
  destruct (p a); simpl; [|apply IH; exact Hord].
  split; [|apply IH; exact Hord].
  apply Forall_forall. intros b Hb. apply filter_In in Hb as [Hb _].
  rewrite Forall_forall in Hall. apply Hall. exact Hb.
Qed.

(** On an object that lists its properties as an engine does,
    [sanitizeData] works field by field, and drops the field
    [__proto__]. *)
Lemma sanitizeData_fieldwise (o : object) :
  NoDup (keys o) ->
  ordered (keys o) ->
  sanitizeData (JObj o)
  = JObj (map (fun kv => (fst kv, sanitize_field (snd kv)))
              (filter (fun kv => negb (fst kv =? "__proto__")) o)).
Proof.
  intros Hnd Hord. rewrite sanitizeData_obj, sanitize_entries_filter.
  rewrite sanitize_entries_fresh; [reflexivity| | |]; simpl;
    rewrite (keys_filter (fun k => negb (k =? "__proto__"))).
  - intros Hin. apply filter_In in Hin as [_ Hk]. discriminate Hk.
  - apply NoDup_filter. exact Hnd.
  - apply ordered_filter. exact Hord.
Qed.

Lemma filter_all {A} (p : A -> bool) (l : list A) :
  Forall (fun x => p x = true) l -> filter p l = l.
Proof.
  induction 1 as [|x l Hx _ IH]; simpl; [reflexivity|]. rewrite Hx, IH. reflexivity.
Qed.

Lemma map_fixed {A} (f : A -> A) (l : list A) :
  Forall (fun x => f x = x) l -> map f l = l.
Proof. induction 1 as [|x l Hx _ IH]; simpl; [reflexivity|]. rewrite Hx, IH. reflexivity. Qed.

Lemma sanitized_is_fixed (entries : list (string * jsval)) :
  Forall (fun kv => sanitize_field (sanitize_field (snd kv)) = sanitize_field (snd kv)) entries ->
  sanitizeData (JObj (sanitize_entries entries [])) = JObj (sanitize_entries entries []).
Proof.
  intros Hall.
  rewrite sanitizeData_fieldwise
    by (first [apply sanitize_entries_keys; constructor
              |apply sanitize_entries_ordered; exact I]).
  f_equal. rewrite filter_all.
  - apply map_fixed.
    pose proof (sanitize_entries_values (fun x => sanitize_field x = x) entries Hall []
                  (Forall_nil _)) as Hv.
    eapply Forall_impl; [|exact Hv].
    intros [k v] Hk. simpl in *. rewrite Hk. reflexivity.
  - apply Forall_forall. intros [k v] Hin. simpl.
    apply negb_true_iff, String.eqb_neq. intros ->.
    apply (in_map fst) in Hin. apply sanitize_entries_in_keys in Hin as [[]|[_ Hk]].
    apply Hk. reflexivity.
Qed.

Lemma Forall_indexed_from {A} (P : A -> Prop) (xs : list A) :
  Forall P xs -> forall i, Forall (fun kv => P (snd kv)) (indexed_from i xs).
Proof.
  induction 1 as [|x xs Hx _ IH]; intros i; simpl; constructor; auto.
Qed.

Lemma sanitize_twice (v : jsval) :
  sanitizeData (sanitizeData v) = sanitizeData v /\ sanitize_field (sanitize_field v) = sanitize_field v.
Proof.
  induction v as [ | | b | n | s | t | xs IH | o IH ] using jsval_induction;
    try (split; reflexivity).
  - split; [reflexivity|]. unfold sanitize_field. simpl. rewrite trim_idempotent. reflexivity.
  - assert (Hp : sanitizeData (sanitizeData (JArr xs)) = sanitizeData (JArr xs)).
    { rewrite sanitizeData_arr. apply sanitized_is_fixed.
      apply (Forall_indexed_from (fun x => sanitize_field (sanitize_field x) = sanitize_field x)).
      eapply Forall_impl; [|exact IH].
      intros x [_ Hx]. exact Hx. }
    split; [exact Hp|].
    unfold sanitize_field. simpl. f_equal. rewrite map_map. apply map_ext_Forall.
    eapply Forall_impl; [|exact IH]. intros x [Hx _]. exact Hx.
  - assert (Hp : sanitizeData (sanitizeData (JObj o)) = sanitizeData (JObj o)).
    { rewrite sanitizeData_obj. apply sanitized_is_fixed.
      eapply Forall_impl; [|exact IH]. intros kv [_ Hx]. exact Hx. }
    split; [exact Hp|].
    unfold sanitize_field. change (sanitize_value sanitizeData (JObj o)) with (sanitizeData (JObj o)).
    rewrite sanitizeData_obj. change (sanitize_value sanitizeData (JObj ?r)) with (sanitizeData (JObj r)).
    rewrite <- sanitizeData_obj. exact Hp.
Qed.

(** Sanitizing twice is sanitizing once. *)
Theorem sanitizeData_idempotent (data : jsval) :
  sanitizeData (sanitizeData data) = sanitizeData data.
Proof. apply sanitize_twice. Qed.

Lemma lookup_map_values (f : jsval -> jsval) (k : string) (o : object) :
  lookup k (map (fun kv => (fst kv, f (snd kv))) o) = option_map f (lookup k o).
Proof.
  induction o as [|[k0 v0] o IH]; simpl; [reflexivity|].
  destruct (k0 =? k); [reflexivity|exact IH].
Qed.

Lemma sanitizeData_primitive (v : jsval) : primitive v = true -> sanitizeData v = v.
Proof. destruct v; simpl; intros Hp; try reflexivity; discriminate Hp. Qed.

(** What [sanitizeData] does to the fields of an object that lists its
    properties as an engine does: it keeps the keys, but for
    [__proto__], and their order, trims a string, replaces a date by an
    empty object, and leaves alone a number, a boolean, [null] and an
    array of values that are no objects, strings with white space around
    them included. *)
Theorem sanitizeData_field_by_field (o : object) :
  NoDup (keys o) ->
  ordered (keys o) ->
  exists o',
    sanitizeData (JObj o) = JObj o' /\
    keys o' = filter (fun k => negb (k =? "__proto__")) (keys o) /\
    (forall k s, k <> "__proto__" ->
                 lookup k o = Some (JStr s) -> lookup k o' = Some (JStr (trim s))) /\
    (forall k t, k <> "__proto__" ->
                 lookup k o = Some (JDate t) -> lookup k o' = Some (JObj [])) /\
    (forall k xs, k <> "__proto__" ->
                  lookup k o = Some (JArr xs) ->
                  forallb primitive xs = true -> lookup k o' = Some (JArr xs)) /\
    (forall k v, k <> "__proto__" ->
                 lookup k o = Some v -> primitive v = true ->
                 (forall s, v <> JStr s) -> lookup k o' = Some v).
Proof.
  intros Hnd Hord. eexists. split; [apply sanitizeData_fieldwise; assumption|].
  assert (Hlook : forall k, k <> "__proto__" ->
            lookup k (map (fun kv => (fst kv, sanitize_field (snd kv)))
                          (filter (fun kv => negb (fst kv =? "__proto__")) o))
            = option_map sanitize_field (lookup k o)).
  { intros k Hk. rewrite lookup_map_values. f_equal.
    clear Hnd Hord. induction o as [|[k0 v0] o IH]; [reflexivity|].
    cbn [filter fst lookup].
    destruct (String.eqb_spec k0 "__proto__") as [->|Hne]; cbn [negb lookup].
    - destruct (String.eqb_spec "__proto__" k); [congruence|exact IH].
    - rewrite IH. reflexivity. }
  split; [|split; [|split; [|split]]].
  - unfold keys at 1. rewrite map_map. simpl.
    apply (keys_filter (fun k => negb (k =? "__proto__"))).
  - intros k s Hk Hl. rewrite (Hlook k Hk), Hl. reflexivity.
  - intros k t Hk Hl. rewrite (Hlook k Hk), Hl. reflexivity.
  - intros k xs Hk Hl Hxs. rewrite (Hlook k Hk), Hl. simpl. do 2 f_equal.
    apply map_fixed. apply Forall_forall. intros x Hx.
    rewrite forallb_forall in Hxs. apply sanitizeData_primitive. apply Hxs. exact Hx.
  - intros k v Hk Hl Hp Hs. rewrite (Hlook k Hk), Hl. simpl. f_equal.
    destruct v; try reflexivity; try discriminate Hp. exfalso. eapply Hs. reflexivity.
Qed.

End SanitizeProperties.

Section PagingProperties.
Import JS Paging.

Lemma ceil_div_gt (t s p : Z) :
  (0 < s)%Z -> ((p <? - ((- t) / s)) = true <-> p * s < t)%Z.
Proof.
  intros Hs. rewrite Z.ltb_lt.
  pose proof (Z.div_mod (- t) s ltac:(lia)) as Hdm.
  pose proof (Z.mod_pos_bound (- t) s Hs) as Hm.
  split; intros Hp; nia.
Qed.

Lemma firstn_add {A} (a b : nat) (l : list A) :
  firstn (a + b) l = (firstn a l ++ firstn b (skipn a l))%list.
Proof.
  revert l. induction a as [|a IH]; intros l; simpl; [reflexivity|].
  destruct l as [|x l]; simpl.
  - rewrite firstn_nil. reflexivity.
  - rewrite IH. reflexivity.
Qed.

Lemma pages_concat {A} (matching : list A) (ps : Z) (n : nat) :
  (1 <= ps)%Z ->
  List.concat (map (fun i => window matching ((Z.of_nat i - 1) * ps)%Z ps) (seq 1 n))
  = firstn (n * Z.to_nat ps) matching.
Proof.
  intros Hps. induction n as [|n IH]; [reflexivity|].
  rewrite seq_S, map_app, concat_app, IH.
  cbn [map List.concat]. rewrite app_nil_r.
  unfold window.
  replace (Z.to_nat ((Z.of_nat (1 + n) - 1) * ps)) with (n * Z.to_nat ps) by nia.
  rewrite <- firstn_add. f_equal. lia.
Qed.

Lemma Forall2_map_r {A B} (R : A -> B -> Prop) (f : A -> B) (l : list A) :
  (forall x, In x l -> R x (f x)) -> Forall2 R l (map f l).
Proof.
  induction l as [|x l IH]; intros Hall; simpl; constructor.
  - apply Hall. left; reflexivity.
  - apply IH. intros y Hy. apply Hall. right; exact Hy.
Qed.

Variable A : Type.

(** The page the list routes return.  When [page] and [limit] are read
    as integers, within the range in which the arithmetic of the
    handler is exact, the page number is at least 1 and the page size
    between 1 and 100 whatever was asked for; the store is asked for the
    documents after the pages before, and for no more than a page;
    [hasNextPage] holds exactly when documents remain after this page
    and [hasPrevPage] exactly when the page is not the first;
    [nextPage] and [prevPage] are the neighbouring page numbers, or
    [null]. *)
Theorem pagination_is_consistent
        (page limit : option string) (matching : list A) (p l : Z) :
  parse_param 1 page = Some p ->
  parse_param 10 limit = Some l ->
  small p -> small l -> small (Z.of_nat (List.length matching)) ->
  let pg := paginate page limit (List.length matching) in
  let pn := Z.max 1 p in
  let ps := Z.min 100 (Z.max 1 l) in
  let sk := ((pn - 1) * ps)%Z in
  currentPage pg = Some pn /\ recordsPerPage pg = Some ps /\
  skip (pageNumber page) (pageSize limit) = Some sk /\
  served page limit matching = Some (window matching sk ps) /\
  (1 <= pn)%Z /\ (1 <= ps <= 100)%Z /\ (0 <= sk)%Z /\
  List.length (window matching sk ps) <= 100 /\
  (hasNextPage pg = true <-> (sk + ps < Z.of_nat (List.length matching))%Z) /\
  (hasPrevPage pg = true <-> (1 < pn)%Z) /\
  nextPage pg = (if hasNextPage pg then Some (Some (pn + 1)%Z) else None) /\
  prevPage pg = (if hasPrevPage pg then Some (Some (pn - 1)%Z) else None).
Proof.
  intros Hp Hl _ _ _ pg pn ps sk.
  unfold served.
  unfold pg, paginate, pageNumber, pageSize, skip, Math_max, Math_min, Math_ceil_div, lt.
  rewrite Hp, Hl.
  cbn [option_map currentPage recordsPerPage hasNextPage hasPrevPage nextPage prevPage].
  fold pn. fold ps.
  assert (Hpn : (1 <= pn)%Z) by (unfold pn; lia).
  assert (Hps : (1 <= ps <= 100)%Z) by (unfold ps; lia).
  split; [reflexivity|]. split; [reflexivity|]. split; [reflexivity|].
  split; [reflexivity|].
  split; [exact Hpn|]. split; [exact Hps|]. split; [unfold sk; nia|].
  split; [unfold window; rewrite length_firstn; lia|].
  split.
  { rewrite ceil_div_gt by lia. unfold sk. lia. }
  split; [apply Z.ltb_lt|].
  split.
  - destruct (pn <? _)%Z; reflexivity.
  - destruct (1 <? pn)%Z; reflexivity.
Qed.

(** Paging through a result.  With a page size read off [limit], every
    response announces the same number of pages, and the requests for
    the pages 1, 2, ... up to that number, each with a [page] that is
    read as its number, are answered with every matching document once,
    in order. *)
Theorem pages_cover_the_result
        (limit : option string) (pages : nat -> option string) (matching : list A) (l : Z) :
  parse_param 10 limit = Some l ->
  small l -> small (Z.of_nat (List.length matching)) ->
  exists n,
    (forall page,
        totalPages (paginate page limit (List.length matching)) = Some (Z.of_nat n)) /\
    ((forall i, 1 <= i <= n -> parse_param 1 (pages i) = Some (Z.of_nat i)) ->
     exists documents,
       Forall2 (fun i served_i => served (pages i) limit matching = Some served_i)
               (seq 1 n) documents /\
       List.concat documents = matching).
Proof.
  intros Hl _ _.
  set (ps := Z.min 100 (Z.max 1 l)).
  assert (Hps : (1 <= ps <= 100)%Z) by (unfold ps; lia).
  set (t := Z.of_nat (List.length matching)).
  pose proof (Z.div_mod (- t) ps ltac:(lia)) as Hdm.
  pose proof (Z.mod_pos_bound (- t) ps ltac:(lia)) as Hm.
  assert (Ht : (0 <= t)%Z) by (unfold t; lia).
  exists (Z.to_nat (- ((- t) / ps))). split.
  - intros page. unfold paginate, pageSize. rewrite Hl. simpl. fold ps. fold t.
    f_equal. rewrite Z2Nat.id; [reflexivity|]. nia.
  - intros Hpages.
    exists (map (fun i => window matching ((Z.of_nat i - 1) * ps)%Z ps)
                (seq 1 (Z.to_nat (- ((- t) / ps))))).
    split.
    + apply Forall2_map_r. intros i Hi. apply in_seq in Hi.
      unfold served, skip, pageNumber, pageSize, Math_max, Math_min.
      rewrite Hl, (Hpages i) by lia. cbn [option_map]. fold ps.
      replace (Z.max 1 (Z.of_nat i)) with (Z.of_nat i) by lia. reflexivity.
    + rewrite pages_concat by lia.
      apply firstn_all2. unfold t in *. nia.
Qed.

(** A [page] or [limit] that does not start with a number is not
    replaced by a default or by a bound: the page number, or the page
    size, the number of documents to pass over and the number of pages,
    are [NaN], and the pagination built from them has neither a next
    nor a previous page. *)
Theorem pagination_of_unreadable_parameters
        (page limit : option string) (totalCount : nat) :
  let pg := paginate page limit totalCount in
  (parse_param 1 page = NaN ->
     currentPage pg = NaN /\ hasNextPage pg = false /\ hasPrevPage pg = false /\
     nextPage pg = None /\ prevPage pg = None) /\
  (parse_param 10 limit = NaN ->
     recordsPerPage pg = NaN /\ totalPages pg = NaN /\ hasNextPage pg = false /\
     nextPage pg = None /\ skip (pageNumber page) (pageSize limit) = NaN).
Proof.
  intros pg. subst pg. unfold paginate, pageNumber, pageSize, skip. split.
  - intros ->. simpl. repeat split.
  - intros ->. simpl. destruct (Math_max 1 (parse_param 1 page)); repeat split.
Qed.

End PagingProperties.

Section RouteProperties.
Import JS Registry Contract Statements Notions UploadRoute.
Context `{Runtime} `{Services}.
Variable process : processor -> upload -> object -> M jsval.

Lemma route_options_literal (req : request) :
  literal [ ("userId", req_user_id req);
            ("uploadedBy", req_ip req);
            ("specifiedFileType", field (req_body req) "fileType");
            ("additionalOptions", JObj (req_body req)) ]
  = route_options req.
Proof. reflexivity. Qed.

Lemma route_options_processedAt (req : request) (v : jsval) :
  In ("processedAt", v) (route_options req) -> exists t, v = JDate t.
Proof.
  unfold route_options. simpl.
  intros [E|[E|[E|[E|[]]]]]; discriminate E.
Qed.

(** What the two checks in front of [processFile] let through resolves
    to a handler. *)
Lemma guards_resolve (file : upload) (specifiedFileType : jsval) :
  fileFilter file = Ok true ->
  form_field specifiedFileType ->
  (truthy specifiedFileType = true ->
   isSupported None None specifiedFileType = Ok true) ->
  exists h,
    getProcessor (Some (mimetype file)) (Some (originalname file)) specifiedFileType
    = Ok (Some h).
Proof.
  unfold fileFilter, isSupported. intros Hfilter Hform Hspec.
  assert (Hdetect : exists h,
             detect_processor (Some (mimetype file)) (Some (originalname file)) = Some h).
  { unfold getProcessor in Hfilter. simpl in Hfilter.
    destruct (detect_processor _ _) as [h|]; [exists h; reflexivity|discriminate]. }
  destruct Hdetect as (h & Hh).
  destruct Hform as [->|(s & ->)].
  - exists h. unfold getProcessor. simpl. rewrite Hh. reflexivity.
  - unfold getProcessor in *. simpl truthy in *.
    destruct (negb (s =? "")) eqn:E.
    + specialize (Hspec eq_refl).
      destruct (by_label (toLowerCase s)) as [p|].
      * exists (Proc p). reflexivity.
      * simpl in Hspec. discriminate.
    + exists h. rewrite Hh. reflexivity.
Qed.

Lemma classic_defined (v : jsval) : defined v \/ (v = JNull \/ v = JUndefined).
Proof.
  destruct v; try (left; split; discriminate); right; auto.
Qed.

Lemma sourceFormat_settles (metadata : object) :
  (exists v, sourceFormat metadata = Ok v) \/ (exists e, sourceFormat metadata = Throw e).
Proof.
  unfold sourceFormat.
  destruct (or_else _ _); try (right; eexists; reflexivity).
  left. eexists. reflexivity.
Qed.

Lemma error_log_settles (file : upload) (req : request) (metadata : object)
      (error : jsval) (w : world) :
  settles (error_log file req metadata error w).
Proof.
  unfold error_log.
  destruct (classic_defined error) as [Hdef|Hundef].
  - unfold bind, lift.
    rewrite !(get_defined error _ Hdef) by discriminate.
    destruct (sourceFormat_settles metadata) as [(v & ->)|(e & ->)].
    + left. eexists _, _. reflexivity.
    + right. eexists _, _. reflexivity.
  - right. destruct Hundef as [->| ->]; eexists _, _; reflexivity.
Qed.

Lemma mapM_settles {A B} (f : A -> M B) :
  (forall x w, settles (f x w)) -> forall xs w, settles (mapM f xs w).
Proof.
  intros Hf xs. induction xs as [|x xs IH]; intros w.
  - left. eexists _, _. reflexivity.
  - cbn [mapM]. unfold bind at 1.
    destruct (Hf x w) as [(y & w1 & ->)|(e & w1 & ->)].
    + unfold bind at 1.
      destruct (IH w1) as [(ys & w2 & ->)|(e & w2 & ->)].
      * left. eexists _, _. reflexivity.
      * right. eexists _, _. reflexivity.
    + right. eexists _, _. reflexivity.
Qed.

Lemma save_errors_returns (file : upload) (req : request) (metadata : object)
      (errs : list jsval) (w : world) :
  exists logged w',
    save_errors file req metadata errs w = (Ok logged, w') /\
    (logged = 0%Z \/ logged = Z.of_nat (List.length errs)).
Proof.
  unfold save_errors.
  destruct (0 <? List.length errs)%nat.
  - unfold try_catchM, bind.
    destruct (mapM_settles (error_log file req metadata)
                (error_log_settles file req metadata) errs w)
      as [(logs & w1 & ->)|(e & w1 & ->)].
    + destruct (ErrorLog_insertMany logs); eexists _, _; (split; [reflexivity|]); auto.
    + eexists _, _. split; [reflexivity|]. auto.
  - eexists _, _. split; [reflexivity|]. auto.
Qed.

(** The reply to a result whose [data] and [errors] are arrays. *)
Lemma answer_replies (file : upload) (req : request) (result : envelope)
      (items errs : list jsval) (w : world) :
  Registry.data result = JArr items ->
  Registry.errors result = JArr errs ->
  exists r w' successCount failedRecords,
    answer file req result w = (Ok (Replied r), w') /\
    status r = 200 /\ unlinked r = cleanup file /\
    field (json r) "success" = JBool (success result) /\
    field (json r) "summary"
    = JObj [ ("fileName", JStr (originalname file));
             ("fileType", JStr (mimetype file));
             ("fileSize", JNum (size file));
             ("processor", field (Registry.metadata result) "processor");
             ("processingTime", field (Registry.metadata result) "processingTime");
             ("totalRecords", js_nat (List.length items + List.length errs));
             ("successfulInserts", successCount);
             ("failedRecords", JNum failedRecords);
             ("metadata", JObj (Registry.metadata result)) ].
Proof.
  intros Hd He. unfold answer. rewrite Hd, He.
  destruct (save_data file req (Registry.metadata result) items)
    as [[successCount errorCount] responseErrors].
  destruct (save_errors_returns file req (Registry.metadata result) errs w)
    as (logged & w' & Hlogged & _).
  unfold bind. rewrite Hlogged.
  eexists _, _, _, _. split; [reflexivity|]. repeat split.
Qed.

(** An upload that the file filter has let through, with a specified
    type that is absent or a string, is answered with status 200 or,
    when the specified type is none of the five labels, with status 400:
    the detection cannot fail inside [processFile], whose failures are
    all turned into an envelope, so the handler never reaches its own
    [catch] and never answers 500, as long as the processors end and
    return what the contract asks for. *)
Theorem upload_answers_200_or_400
        (req : request) (file : upload) (w : world) :
  req_file req = Some file ->
  fileFilter file = Ok true ->
  form_field (field (req_body req) "fileType") ->
  (forall p,
      getProcessor (Some (mimetype file)) (Some (originalname file))
                   (field (req_body req) "fileType") = Ok (Some (Proc p)) ->
      keeps_contract process file p) ->
  exists r w',
    post_file process req w = (Ok (Replied r), w') /\
    ((status r = 200 /\
      exists h,
        getProcessor (Some (mimetype file)) (Some (originalname file))
                     (field (req_body req) "fileType") = Ok (Some h)) \/
     (status r = 400 /\
      exists s,
        field (req_body req) "fileType" = JStr s /\ s <> "" /\
        by_label (toLowerCase s) = None /\
        field (json r) "message" = JStr ("Unsupported file type: " ++ s))).
Proof.
  intros Hfile Hfilter Hform Hcontract.
  unfold post_file. rewrite Hfile. rewrite route_options_literal.
  set (spec := field (req_body req) "fileType") in *.
  assert (Hcases :
            (truthy spec = true /\ exists s, spec = JStr s /\ s <> "" /\
                                             by_label (toLowerCase s) = None) \/
            (truthy spec = true -> isSupported None None spec = Ok true)).
  { destruct Hform as [E|(s & E)]; rewrite E.
    - right. discriminate.
    - simpl truthy. destruct (String.eqb_spec s "") as [->|Hne]; simpl.
      + right. discriminate.
      + unfold isSupported, getProcessor. simpl truthy.
        destruct (String.eqb_spec s ""); [contradiction|]. simpl.
        destruct (by_label (toLowerCase s)) eqn:El.
        * right. reflexivity.
        * left. split; [reflexivity|]. exists s. repeat split; assumption. }
  destruct Hcases as [(Ht & s & Es & Hne & Hl)|Hok].
  - unfold try_catchM, bind, lift. rewrite Ht.
    rewrite Es. unfold isSupported, getProcessor. simpl truthy.
    destruct (String.eqb_spec s ""); [contradiction|]. simpl. rewrite Hl. simpl.
    eexists _, _. split; [reflexivity|]. right. split; [reflexivity|].
    exists s. repeat split; assumption.
  - destruct (guards_resolve file spec Hfilter Hform Hok) as (h & Hh).
    assert (Hrefused :
              (if truthy spec
               then lift (bindO (isSupported None None spec)
                                (fun supported => Ok (negb supported)))
               else ret false) w = (Ok false, w)).
    { destruct (truthy spec); [|reflexivity]. rewrite (Hok eq_refl). reflexivity. }
    unfold try_catchM. unfold bind at 1. rewrite Hrefused.
    unfold bind at 1.
    assert (Hinvoke :
              (exists r w2,
                  invoke process h file
                         (dispatch_metadata file (route_options req) (clock (ticks w)))
                         (later 2 w) = (Ok (to_js r), w2)) \/
              (exists e w2,
                  invoke process h file
                         (dispatch_metadata file (route_options req) (clock (ticks w)))
                         (later 2 w) = (Throw e, w2))).
    { destruct h as [p|name]; [apply (Hcontract p Hh)|].
      right. eexists _, _. reflexivity. }
    destruct Hinvoke as [(r & w2 & Hr)|(e & w2 & He)].
    + rewrite (processFile_on_result process file (route_options req) h r w w2 Hh Hr).
      match goal with
      | |- context [answer file req ?env (later 1 w2)] =>
          destruct (answer_replies file req env (Contract.data r) (Contract.errors r)
                      (later 1 w2) eq_refl eq_refl)
            as (rep & w' & sc & fr & Hrep & Hstatus & _)
      end.
      rewrite Hrep. eexists _, _. split; [reflexivity|].
      left. split; [exact Hstatus|]. exists h. exact Hh.
    + destruct (processFile_on_throw process file (route_options req) h e w w2 Hh
                  (route_options_processedAt req) He)
        as (env & Henv & _ & Hdata & Herrors & _).
      rewrite Henv.
      destruct (answer_replies file req env _ _ (later 2 w2) Hdata Herrors)
        as (rep & w' & sc & fr & Hrep & Hstatus & _).
      rewrite Hrep. eexists _, _. split; [reflexivity|].
      left. split; [exact Hstatus|]. exists h. exact Hh.
Qed.

(** The stored upload is removed before every reply with status 200 or
    500 and before no reply with status 400: an upload that is refused
    for its specified type stays where multer has put it. *)
Theorem upload_removes_the_stored_file
        (req : request) (file : upload) (w w' : world) (r : reply) :
  req_file req = Some file ->
  post_file process req w = (Ok (Replied r), w') ->
  (status r = 200 /\ unlinked r = cleanup file) \/
  (status r = 500 /\ unlinked r = cleanup file) \/
  (status r = 400 /\ unlinked r = [] /\
   truthy (field (req_body req) "fileType") = true).
Proof.
  intros Hfile. unfold post_file. rewrite Hfile. unfold try_catchM.
  destruct (bind _ _ w) as [[s|e|] w1] eqn:Hbody.
  - intros [= -> ->].
    apply bind_Ok in Hbody as (refused & w0 & Hrefused & Hrest).
    destruct refused.
    + apply ret_Ok in Hrest as [[= <-] _].
      right. right. split; [reflexivity|]. split; [reflexivity|].
      destruct (truthy (field (req_body req) "fileType")); [reflexivity|].
      apply ret_Ok in Hrefused as [Hc _]. discriminate Hc.
    + apply bind_Ok in Hrest as (result & w2 & _ & Hanswer).
      unfold answer in Hanswer.
      destruct (Registry.data result); try (apply ret_Ok in Hanswer as [Hc _]; discriminate Hc).
      destruct (Registry.errors result);
        try (apply ret_Ok in Hanswer as [Hc _]; discriminate Hc).
      destruct (save_data _ _ _ _) as [[successCount errorCount] responseErrors].
      apply bind_Ok in Hanswer as (logged & w3 & _ & Hret).
      apply ret_Ok in Hret as [[= <-] _].
      left. split; reflexivity.
  - unfold ret. intros [= <- _]. right. left. split; reflexivity.
  - discriminate.
Qed.

(** A processor that throws is reported with status 200: the reply says
    [success: false], counts one record, none of them inserted, and
    lists the entry for no data; the one error log the handler builds
    has the type ['processing_error'] and the thrown message, and it is
    counted as a failed record when the store takes it. *)
Theorem upload_reports_a_failed_processor
        (req : request) (file : upload) (h : handler) (e : jserror) (w w2 : world) :
  req_file req = Some file ->
  getProcessor (Some (mimetype file)) (Some (originalname file))
               (field (req_body req) "fileType") = Ok (Some h) ->
  (truthy (field (req_body req) "fileType") = true ->
   isSupported None None (field (req_body req) "fileType") = Ok true) ->
  invoke process h file
         (dispatch_metadata file (route_options req) (clock (ticks w))) (later 2 w)
  = (Throw e, w2) ->
  exists r w' log summary,
    post_file process req w = (Ok (Replied r), w') /\
    status r = 200 /\
    field (json r) "success" = JBool false /\
    field (json r) "message" = JStr "File processing completed with errors" /\
    field (json r) "errors" = JArr [no_data_extracted] /\
    field (json r) "summary" = JObj summary /\
    field summary "totalRecords" = JNum 1 /\
    field summary "successfulInserts" = JNum 0 /\
    field summary "failedRecords" = JNum (if ErrorLog_insertMany [JObj log] then 1 else 0) /\
    field log "errorType" = JStr "processing_error" /\
    field log "errorMessage" = or_else (JStr (emessage e)) (JStr "Unknown error occurred").
Proof.
  intros Hfile Hh Hok He.
  unfold post_file. rewrite Hfile, route_options_literal.
  set (spec := field (req_body req) "fileType") in *.
  assert (Hrefused :
            (if truthy spec
             then lift (bindO (isSupported None None spec)
                              (fun supported => Ok (negb supported)))
             else ret false) w = (Ok false, w)).
  { destruct (truthy spec); [|reflexivity]. rewrite (Hok eq_refl). reflexivity. }
  unfold try_catchM. unfold bind at 1. rewrite Hrefused. unfold bind at 1.
  destruct (processFile_on_throw process file (route_options req) h e w w2 Hh
              (route_options_processedAt req) He)
    as (env & Henv & Hsuccess & Hdata & Herrors & processingTime & Hmd).
  rewrite Henv. unfold answer. rewrite Hdata, Herrors. cbn [save_data List.length Nat.ltb Nat.leb].
  assert (Hformat : exists s, sourceFormat (Registry.metadata env) = Ok (JStr s)).
  { unfold sourceFormat. rewrite Hmd.
    assert (Hp : field (set "processingTime" (JStr processingTime)
                          (dispatch_metadata file (route_options req) (clock (ticks w))))
                       "processor"
                 = or_else spec (JStr (detectFileType (Some (mimetype file))
                                                      (Some (originalname file)))))
      by reflexivity.
    rewrite Hp.
    assert (Hs : exists s, or_else spec
                             (JStr (detectFileType (Some (mimetype file))
                                                   (Some (originalname file)))) = JStr s).
    { unfold or_else. destruct (truthy spec) eqn:Et; [|eexists; reflexivity].
      unfold getProcessor in Hh. fold spec in Hh. rewrite Et in Hh.
      destruct spec; try discriminate Hh. eexists; reflexivity. }
    destruct Hs as (s & ->). unfold or_else. simpl truthy.
    destruct (negb (s =? "")); eexists; reflexivity. }
  destruct Hformat as (format & Hformat).
  unfold save_errors. cbn [List.length Nat.ltb Nat.leb].
  unfold try_catchM, bind. cbn [mapM]. unfold bind, error_log, bind, lift.
  cbn [get]. rewrite Hformat. unfold new_Date, bind, Date_now, ret.
  cbn [lookup String.eqb Ascii.eqb Bool.eqb].
  match goal with
  | |- context [ErrorLog_insertMany [JObj ?l]] =>
      exists (mkReply 200
                [ ("success", JBool (success env));
                  ("message",
                   JStr (if success env
                         then "File processed successfully"
                         else "File processing completed with errors"));
                  ("summary",
                   JObj [ ("fileName", JStr (originalname file));
                          ("fileType", JStr (mimetype file));
                          ("fileSize", JNum (size file));
                          ("processor", field (Registry.metadata env) "processor");
                          ("processingTime", field (Registry.metadata env) "processingTime");
                          ("totalRecords", js_nat 1);
                          ("successfulInserts", JNum 0);
                          ("failedRecords",
                           JNum (0 + (if ErrorLog_insertMany [JObj l] then 1 else 0)));
                          ("metadata", JObj (Registry.metadata env)) ]);
                  ("errors", JArr [no_data_extracted]) ]
                (cleanup file));
      eexists; exists l; eexists
  end.
  split.
  { destruct (ErrorLog_insertMany _); reflexivity. }
  rewrite Hsuccess.
  split; [reflexivity|]. split; [reflexivity|]. split; [reflexivity|].
  split; [reflexivity|]. split; [reflexivity|]. split; [reflexivity|].
  split; [reflexivity|]. split; [reflexivity|]. split; reflexivity.
Qed.

End RouteProperties.

Section ErrorLogEnum.
Import JS Registry Contract Statements Notions UploadRoute.
Context `{Runtime} `{Services} `{Excel.ExcelLib}.

Lemma forEachM_invariant {A St} (f : A -> nat -> St -> M St) (P : St -> Prop) :
  (forall x i acc w acc' w', P acc -> f x i acc w = (Ok acc', w') -> P acc') ->
  forall xs i acc w acc' w',
    P acc -> forEachM f xs i acc w = (Ok acc', w') -> P acc'.
Proof.
  intros Hstep xs. induction xs as [|x xs IH]; intros i acc w acc' w' Hacc Hrun.
  - apply ret_Ok in Hrun as [<- _]. exact Hacc.
  - cbn [forEachM] in Hrun. apply bind_Ok in Hrun as (mid & w1 & Hx & Hrest).
    eapply IH; [|exact Hrest]. eapply Hstep; eassumption.
Qed.

Lemma sort_row_typed (sheetName : string) (headers row : list jsval) (i : nat)
      (acc acc' : list jsval * list jsval) (w w' : world) :
  validation_typed acc ->
  Excel.sort_row sheetName headers row i acc w = (Ok acc', w') ->
  validation_typed acc'.
Proof.
  destruct acc as [allData allErrors]. unfold validation_typed, Excel.sort_row. simpl snd.
  intros Hacc.
  destruct (isValid _).
  - unfold bind, generateRecordId, new_Date, bind, Date_now, random_toString36, ret.
    intros [= <- _]. exact Hacc.
  - unfold ret. intros [= <- _]. simpl.
    apply Forall_app. split; [exact Hacc|]. constructor; [reflexivity|constructor].
Qed.

Lemma sort_sheets_typed (wb : Excel.workbook) (names : list string) :
  forall acc acc' w w',
    validation_typed acc ->
    Excel.sort_sheets wb names acc w = (Ok acc', w') ->
    validation_typed acc'.
Proof.
  induction names as [|name names IH]; intros acc acc' w w' Hacc Hrun.
  - apply ret_Ok in Hrun as [<- _]. exact Hacc.
  - cbn [Excel.sort_sheets] in Hrun. apply bind_Ok in Hrun as (mid & w1 & Hsheet & Hrest).
    eapply IH; [|exact Hrest].
    unfold Excel.sort_sheet in Hsheet.
    destruct (Excel.sheet_to_json wb name) as [|headers rows].
    + apply ret_Ok in Hsheet as [<- _]. exact Hacc.
    + eapply (forEachM_invariant (Excel.sort_row name headers) validation_typed);
        [|exact Hacc|exact Hsheet].
      intros x i a w0 a' w0' Ha Hstep. eapply sort_row_typed; eassumption.
Qed.

(** The error logs the upload route builds cannot pass the schema of the
    error logs.  An entry whose [type] is ['validation_error'] or
    ['processing_error'], or that has none, gets an [errorType] that is
    not among the values the schema allows, the default
    ['PROCESSING_ERROR'] included; and every entry of the Excel
    processor has the type ['validation_error'], as the entry of the
    dispatcher for a processor that failed has ['processing_error']. *)
Theorem upload_error_logs_miss_the_enum :
  (forall file req metadata error w log w',
      error_log file req metadata error w = (Ok log, w') ->
      local_error_type (field (own_props error) "type") ->
      exists t, field (own_props log) "errorType" = JStr t /\ ~ In t errorType_enum) /\
  (forall file metadata w r w',
      Excel.process file metadata w = (Ok r, w') ->
      Forall (fun entry => field (own_props entry) "type" = JStr "validation_error")
             (errors r)).
Proof.
  split.
  - intros file req metadata error w log w' Hlog Htype.
    unfold error_log in Hlog.
    destruct (classic_defined error) as [Hdef|[-> | ->]];
      [|discriminate Hlog|discriminate Hlog].
    unfold bind, lift in Hlog.
    rewrite !(get_defined error _ Hdef) in Hlog by discriminate.
    destruct (sourceFormat metadata) as [format|e|]; try discriminate Hlog.
    unfold new_Date, bind, Date_now, ret in Hlog.
    injection Hlog as <- _.
    unfold field at 1. cbn [own_props lookup String.eqb Ascii.eqb Bool.eqb].
    unfold or_else.
    destruct Htype as [Hfalsy|[Hv|Hp]].
    + rewrite Hfalsy. eexists. split; [reflexivity|].
      unfold errorType_enum. simpl. intuition discriminate.
    + rewrite Hv. simpl. eexists. split; [reflexivity|].
      unfold errorType_enum. simpl. intuition discriminate.
    + rewrite Hp. simpl. eexists. split; [reflexivity|].
      unfold errorType_enum. simpl. intuition discriminate.
  - intros file metadata w r w' Hrun.
    unfold Excel.process in Hrun. apply rethrow_Ok in Hrun.
    apply bind_Ok in Hrun as (wb & w1 & _ & Hrun).
    apply bind_Ok in Hrun as ([allData allErrors] & w2 & Hsort & Hret).
    apply ret_Ok in Hret as [<- _]. simpl.
    apply (sort_sheets_typed wb (Excel.SheetNames wb) ([], []) (allData, allErrors) w1 w2);
      [constructor|exact Hsort].
Qed.

End ErrorLogEnum.

Section DownloadProperties.
Import JS Exporter Validate Statements DownloadRoute Notions.
Context `{Runtime} `{ExportLib}.
















Variable development : bool.


Lemma exportToCSV_names (data : jsval) (filename : string) (r : exported) :
  exportToCSV data filename = Ok r ->
  Exporter.filename r = filename ++ ".csv" /\ mimeType r = "text/csv".
Proof.
  unfold exportToCSV. destruct (nothing_to_export data); [discriminate|].
  destruct (flatten_all (elements data)) as [rows|e|]; simpl; try discriminate.
  destruct (json2csv_parse _ rows) as [csv|e|]; simpl; try discriminate.
  intros [= <-]. split; reflexivity.
Qed.

Lemma exportToExcel_names (data : jsval) (filename sheetName : string) (r : exported) :
  exportToExcel data filename sheetName = Ok r ->
  Exporter.filename r = filename ++ ".xlsx" /\
  mimeType r = "application/vnd.openxmlformats-officedocument.spreadsheetml.sheet".
Proof.
  unfold exportToExcel. destruct (nothing_to_export data); [discriminate|].
  destruct (flatten_all (elements data)) as [rows|e|]; simpl; try discriminate.
  destruct (xlsx_write_sheet rows _ sheetName) as [buffer|e|]; simpl; try discriminate.
  intros [= <-]. split; reflexivity.
Qed.

Lemma exportToJSON_names (data : jsval) (filename : string) (pretty : bool) (r : exported) :
  exportToJSON data filename pretty = Ok r ->
  Exporter.filename r = filename ++ ".json" /\ mimeType r = "application/json".
Proof.
  unfold exportToJSON. destruct (isArray data); simpl; [|discriminate].
  intros [= <-]. split; reflexivity.
Qed.

Lemma sends_file (export : outcome exported) (handler : jserror -> outcome sent)
      (contentDisposition contentType body : string) :
  (forall e, exists status json, handler e = Ok (Json status json)) ->
  try_catch
    (bindO export
           (fun exportResult =>
              Ok (File (attachment (Exporter.filename exportResult))
                       (mimeType exportResult) (Exporter.data exportResult))))
    handler
  = Ok (File contentDisposition contentType body) ->
  exists r, export = Ok r /\
            contentDisposition = attachment (Exporter.filename r) /\
            contentType = mimeType r.
Proof.
  intros Hhandler. destruct export as [r|e|]; simpl.
  - intros [= <- <- _]. exists r. repeat split.
  - destruct (Hhandler e) as (status & json & ->). discriminate.
  - discriminate.
Qed.

(** A download that delivers a file had a non-empty result and one of
    the three formats, whatever the case of its letters; the file is
    named after the [filename] of the request with the extension of the
    format, and its content type is the one of the format. *)
Theorem download_file_shape
        (sheetName notFound failed format filename : string) (data : list jsval)
        (contentDisposition contentType body : string) :
  download development sheetName notFound failed format filename data
  = Ok (File contentDisposition contentType body) ->
  data <> [] /\
  exists extension,
    In (toLowerCase format, extension, contentType)
       [ ("csv", ".csv", "text/csv");
         ("excel", ".xlsx",
          "application/vnd.openxmlformats-officedocument.spreadsheetml.sheet");
         ("json", ".json", "application/json") ] /\
    contentDisposition = attachment (filename ++ extension).
Proof.
  unfold download.
  destruct (existsb (String.eqb (toLowerCase format)) ["csv"; "excel"; "json"]) eqn:Hvalid;
    [|discriminate].
  cbn [negb]. destruct data as [|document more]; [discriminate|].
  cbn [List.length Nat.eqb]. intros Hsent. split; [discriminate|].
  apply sends_file in Hsent; [|intros e; eexists _, _; reflexivity].
  destruct Hsent as (r & Hexport & -> & ->).
  cbn [existsb] in Hvalid.
  destruct (String.eqb_spec (toLowerCase format) "csv") as [->|_].
  - apply exportToCSV_names in Hexport as [-> ->].
    exists ".csv". split; [left; reflexivity|reflexivity].
  - destruct (String.eqb_spec (toLowerCase format) "excel") as [->|_].
    + apply exportToExcel_names in Hexport as [-> ->].
      exists ".xlsx". split; [right; left; reflexivity|reflexivity].
    + destruct (String.eqb_spec (toLowerCase format) "json") as [->|_]; [|discriminate].
      apply exportToJSON_names in Hexport as [-> ->].
      exists ".json". split; [right; right; left; reflexivity|reflexivity].
Qed.

End DownloadProperties.

Section FurtherExamples.
Import JS Registry Contract Statements Notions Sample Fixtures.

Lemma detectFileType_names_the_processor_witness :
  by_label (detectFileType (Some "application/octet-stream") (Some "scan.JPEG"))
  = Some imageProcessor.
Proof.
  apply (detectFileType_names_the_processor
           (Some "application/octet-stream") (Some "scan.JPEG") JNull imageProcessor).
  - left; reflexivity.
  - reflexivity.
Defined.

Lemma processFile_success_envelope_witness :
  exists r w2 env,
    invoke App.process (Proc csvProcessor) export_upload
           (dispatch_metadata export_upload [] (clock (ticks w0))) (later 2 w0)
    = (Ok (to_js r), w2) /\
    App.processFile export_upload [] w0 = (Ok env, later 1 w2) /\
    success env = true /\
    Registry.data env = JArr (Contract.data r) /\
    Registry.errors env = JArr (Contract.errors r) /\
    field (Registry.metadata env) "processor" = JStr "Python CSV Processor" /\
    field (Registry.metadata env) "recordCount" = JNum 1.
Proof.
  eexists (mkResult _ _ _), _.
  match goal with
  | |- exists env, ?run /\ _ =>
      assert (Hr : run) by (vm_compute; reflexivity)
  end.
  destruct (processFile_success_envelope App.process export_upload [] _ _ w0 _
              eq_refl Hr) as (env & Hp & Hs & Hd & He & Hm & Hc).
  - vm_compute. repeat constructor; simpl; intuition discriminate.
  - exists env. repeat split; try assumption.
    + unfold field. rewrite (Hm "processor" (JStr "Python CSV Processor")); reflexivity.
    + apply Hc. reflexivity.
Defined.


Lemma excel_row_kept_iff_truthy_cell_witness :
  let headers := [JStr "__proto__"; JStr "qty"] in
  let row := [JStr "x"; JNum 0] in
  accepted "Stock" headers row 1
  = existsb (fun j => truthy (Excel.cell row j) &&
                      negb (to_string (nth j headers JUndefined) =? "__proto__"))
            (seq 0 (List.length headers)).
Proof.
  intros headers row.
  apply (excel_row_kept_iff_truthy_cell "Stock" headers row 1).
  simpl. repeat constructor; simpl; intuition discriminate.
Defined.

Lemma pdf_process_reports_no_errors_witness :
  exists r w',
    @Pdf.process runtime price_list scenario_B_upload [] w0 = (Ok r, w') /\
    errors r = [] /\
    data r <> [] /\
    field (metadata r) "errorItems" = JNum 0 /\
    field (metadata r) "validItems" = field (metadata r) "totalItems".
Proof.
  apply (@pdf_process_reports_no_errors runtime price_list scenario_B_upload [] w0
           "<uploads/scenario-b.pdf>"
           (Pdf.mkPdfData price_list_text (JNum 1) JUndefined)).
  - reflexivity.
  - reflexivity.
  - intros hs Hhs. vm_compute in Hhs. injection Hhs as <-.
    exists "item". split; [left; reflexivity|discriminate].
Defined.

(** Under headers that are all named [__proto__], the row of a table is
    an empty record, which the validation rejects. *)
Lemma pdf_table_headed_proto :
  Pdf.extractTableData proto_table_text = [JObj []] /\
  exists r w',
    @Pdf.process runtime proto_table scenario_B_upload [] w0 = (Ok r, w') /\
    data r = [] /\
    List.length (errors r) = 1.
Proof.
  split; [vm_compute; reflexivity|].
  eexists _, _. vm_compute. repeat split.
Qed.

Lemma image_process_never_reports_errors_witness :
  exists r w' items,
    Image.process receipt_upload [] w0 = (Ok r, w') /\
    Image.extractDataFromOCR "Total: $12.50" = Ok items /\
    errors r = [] /\
    List.length (data r)
    = (if (List.length items =? 0)%nat && (0 <? strlen (trim "Total: $12.50"))%nat
       then 1 else List.length items).
Proof.
  apply (image_process_never_reports_errors receipt_upload [] w0
           "<uploads/receipt.png>"
           [ ("width", JNum 640); ("height", JNum 480);
             ("format", JStr "png"); ("channels", JNum 3); ("density", JNum 72) ]
           (Image.mkOcr "Total: $12.50" (JNum 90) (JArr []))).
  - reflexivity.
  - reflexivity.
  - reflexivity.
Defined.

Lemma script_failure_modes_witness :
  @Script.csv_process runtime crashing export_upload [] w0
  = (throw_error "CSV processing failed: Python script failed with code 1: Traceback", w0) /\
  @Script.csv_process runtime missing export_upload [] w0
  = (throw_error
       "CSV processing failed: Failed to start Python process: spawn python ENOENT", w0) /\
  @Script.xml_process runtime garbled export_upload [] w0
  = (throw_error
       ("XML processing failed: Failed to parse Python output as JSON: " ++
        "Unexpected token 'D', 'Done.' is not valid JSON"), w0) /\
  @Script.xml_process runtime stuck export_upload [] w0 = (Hang, w0).
Proof.
  split; [|split; [|split]].
  - apply (proj1 (@script_failure_modes runtime crashing
                    "CSV processing" "csv_processor.py" "python_csv_processor"
                    "Python CSV Processor" export_upload [] w0)
                 (JNum 1) "" "Traceback"); reflexivity.
  - apply (proj1 (proj2 (@script_failure_modes runtime missing
                    "CSV processing" "csv_processor.py" "python_csv_processor"
                    "Python CSV Processor" export_upload [] w0))
                 "spawn python ENOENT"); reflexivity.
  - apply (proj1 (proj2 (proj2 (@script_failure_modes runtime garbled
                    "XML processing" "xml_processor.py" "python_xml_processor"
                    "Python XML Processor" export_upload [] w0)))
                 "Done." ""
                 (mkError PlainError "Unexpected token 'D', 'Done.' is not valid JSON"));
      reflexivity.
  - apply (proj2 (proj2 (proj2 (@script_failure_modes runtime stuck
                    "XML processing" "xml_processor.py" "python_xml_processor"
                    "Python XML Processor" export_upload [] w0)))); reflexivity.
Defined.

Lemma script_result_mirrors_output_witness :
  exists r w',
    Script.csv_process export_upload [] w0 = (Ok r, w') /\
    Forall2 (stamped "python_csv_processor" "export.csv")
            [JObj [("name", JStr "Ann")]] (data r) /\
    Forall2 (logged "python_csv_processor" "export.csv")
            [JObj [("row", JNum 2); ("message", JStr "Name is required")]] (errors r).
Proof.
  apply (script_result_mirrors_output
           "CSV processing" "csv_processor.py" "python_csv_processor" "Python CSV Processor"
           export_upload [] w0
           [ ("processedData", JArr [JObj [("name", JStr "Ann")]]);
             ("errorLogs", JArr [JObj [("row", JNum 2);
                                       ("message", JStr "Name is required")]]) ]).
  - reflexivity.
  - reflexivity.
  - reflexivity.
  - repeat constructor; discriminate.
Defined.

Lemma autoSizeColumns_fits_cells_witness :
  exists wch,
    nth_error (Exporter.autoSizeColumns
                 [ [("name", JStr "Ann")];
                   [("name", JStr "Bartholomew Fitzgerald-Montgomery")] ]) 0
    = Some wch /\
    10 <= wch <= 50 /\
    Nat.min 50 (strlen "name" + 2) <= wch /\
    forall row,
      In row [ [("name", JStr "Ann")];
               [("name", JStr "Bartholomew Fitzgerald-Montgomery")] ] ->
      truthy (field row "name") = true ->
      Nat.min 50 (strlen (to_string (field row "name")) + 2) <= wch.
Proof.
  apply (proj2 (autoSizeColumns_fits_cells
                  [("name", JStr "Ann")]
                  [ [("name", JStr "Bartholomew Fitzgerald-Montgomery")] ])
               0 "name").
  reflexivity.
Defined.

Lemma patch_status_resolution_fields_witness :
  exists r logs' log' w',
    ErrorLog.patch_status "65a1f0c2b7e4d83a9c0f1e2c"
      (ErrorLog.mkBody (JStr "RESOLVED") None (Some "duplicate upload"))
      [open_log; resolved_log] w0
    = (Ok (r, logs'), w') /\
    ErrorLog.updated r = Some log' /\
    ErrorLog.findById "65a1f0c2b7e4d83a9c0f1e2c" logs' = Some log' /\
    ErrorLog.report log' = ErrorLog.report open_log /\
    (ErrorLog.RESOLVED = ErrorLog.RESOLVED ->
       ErrorLog.resolvedAt log' = Some (clock (ticks w0)) /\
       ErrorLog.resolvedBy log' = Some "System" /\
       ErrorLog.resolutionNotes log' = Some "duplicate upload") /\
    (ErrorLog.RESOLVED <> ErrorLog.RESOLVED ->
       ErrorLog.resolvedAt log' = ErrorLog.resolvedAt open_log /\
       ErrorLog.resolvedBy log' = ErrorLog.resolvedBy open_log /\
       ErrorLog.resolutionNotes log' = ErrorLog.resolutionNotes open_log).
Proof.
  apply (patch_status_resolution_fields
           "65a1f0c2b7e4d83a9c0f1e2c"
           (ErrorLog.mkBody (JStr "RESOLVED") None (Some "duplicate upload"))
           [open_log; resolved_log] open_log ErrorLog.RESOLVED w0);
    reflexivity.
Defined.

Lemma sanitizeData_field_by_field_witness :
  exists o',
    Validate.sanitizeData (JObj (("__proto__", JStr " x ") :: stock_record)) = JObj o' /\
    keys o' = keys stock_record /\
    lookup "item" o' = Some (JStr "bolt") /\
    lookup "_processedAt" o' = Some (JObj []) /\
    lookup "tags" o' = Some (JArr [JStr " m8 "]) /\
    lookup "qty" o' = Some (JNum 12).
Proof.
  destruct (sanitizeData_field_by_field (("__proto__", JStr " x ") :: stock_record))
    as (o' & Ho & Hk & Hs & Hd & Ha & Hp).
  - simpl. repeat constructor; simpl; intuition discriminate.
  - simpl. repeat split; repeat constructor.
  - exists o'. split; [exact Ho|]. split; [exact Hk|].
    split; [apply (Hs "item" " bolt "); [discriminate|reflexivity]|].
    split; [apply (Hd "_processedAt" 1700000000000%Z); [discriminate|reflexivity]|].
    split; [apply (Ha "tags"); [discriminate|reflexivity|reflexivity]|].
    apply (Hp "qty"); [discriminate|reflexivity|reflexivity|discriminate].
Defined.

Lemma pagination_is_consistent_witness :
  let pg := Paging.paginate (Some "2") (Some "150") (List.length (seq 0 250)) in
  Paging.currentPage pg = Some (Z.max 1 2) /\
  Paging.recordsPerPage pg = Some (Z.min 100 (Z.max 1 150)) /\
  Paging.skip (Paging.pageNumber (Some "2")) (Paging.pageSize (Some "150"))
  = Some ((Z.max 1 2 - 1) * Z.min 100 (Z.max 1 150))%Z /\
  Paging.served (Some "2") (Some "150") (seq 0 250)
  = Some (Paging.window (seq 0 250)
            ((Z.max 1 2 - 1) * Z.min 100 (Z.max 1 150))%Z
            (Z.min 100 (Z.max 1 150))) /\
  (1 <= Z.max 1 2)%Z /\ (1 <= Z.min 100 (Z.max 1 150) <= 100)%Z /\
  (0 <= (Z.max 1 2 - 1) * Z.min 100 (Z.max 1 150))%Z /\
  List.length (Paging.window (seq 0 250)
                 ((Z.max 1 2 - 1) * Z.min 100 (Z.max 1 150))%Z
                 (Z.min 100 (Z.max 1 150))) <= 100 /\
  (Paging.hasNextPage pg = true <->
   ((Z.max 1 2 - 1) * Z.min 100 (Z.max 1 150) + Z.min 100 (Z.max 1 150)
    < Z.of_nat (List.length (seq 0 250)))%Z) /\
  (Paging.hasPrevPage pg = true <-> (1 < Z.max 1 2)%Z) /\
  Paging.nextPage pg
  = (if Paging.hasNextPage pg then Some (Some (Z.max 1 2 + 1)%Z) else None) /\
  Paging.prevPage pg
  = (if Paging.hasPrevPage pg then Some (Some (Z.max 1 2 - 1)%Z) else None).
Proof.
  apply (pagination_is_consistent nat (Some "2") (Some "150") (seq 0 250) 2 150);
    try reflexivity; unfold Paging.small; simpl; lia.
Defined.

Lemma pages_cover_the_result_witness :
  exists documents,
    Forall2 (fun i served_i =>
               Paging.served (Some (nat_to_string i)) (Some "4") (seq 0 10) = Some served_i)
            [1; 2; 3] documents /\
    List.concat documents = seq 0 10.
Proof.
  destruct (pages_cover_the_result nat (Some "4") (fun i => Some (nat_to_string i))
              (seq 0 10) 4) as (n & Htotal & Hpages).
  - reflexivity.
  - unfold Paging.small. simpl. lia.
  - unfold Paging.small. simpl. lia.
  - assert (Hthree : Paging.totalPages
                       (Paging.paginate (Some "1") (Some "4") (List.length (seq 0 10)))
                     = Some 3%Z) by reflexivity.
    rewrite (Htotal (Some "1")) in Hthree.
    assert (Hn : n = 3) by (injection Hthree as Hn; lia). subst n.
    apply Hpages. intros i Hi.
    destruct i as [|[|[|[|i]]]]; try lia; reflexivity.
Defined.

Lemma pagination_of_unreadable_parameters_witness :
  let pg := Paging.paginate (Some "2") (Some "ten") 250 in
  Paging.recordsPerPage pg = Paging.NaN /\ Paging.totalPages pg = Paging.NaN /\
  Paging.hasNextPage pg = false /\ Paging.nextPage pg = None /\
  Paging.skip (Paging.pageNumber (Some "2")) (Paging.pageSize (Some "ten")) = Paging.NaN.
Proof.
  apply (proj2 (pagination_of_unreadable_parameters (Some "2") (Some "ten") 250)).
  reflexivity.
Defined.

Lemma stock_keeps_contract (p : processor) :
  getProcessor (Some (mimetype stock_upload)) (Some (originalname stock_upload))
               (field (UploadRoute.req_body stock_request) "fileType")
  = Ok (Some (Proc p)) ->
  keeps_contract App.process stock_upload p.
Proof.
  intros [= <-] metadata w. left.
  destruct (@excel_process_returns runtime excellib stock_upload metadata w stock eq_refl)
    as (r & w' & Hr & _).
  exists r, w'. unfold App.process, bind. rewrite Hr. reflexivity.
Qed.

Lemma upload_answers_200_or_400_witness :
  exists r w',
    UploadRoute.post_file App.process stock_request w0
    = (Ok (UploadRoute.Replied r), w') /\
    ((UploadRoute.status r = 200 /\
      exists h,
        getProcessor (Some (mimetype stock_upload)) (Some (originalname stock_upload))
                     (field (UploadRoute.req_body stock_request) "fileType")
        = Ok (Some h)) \/
     (UploadRoute.status r = 400 /\
      exists s,
        field (UploadRoute.req_body stock_request) "fileType" = JStr s /\ s <> "" /\
        by_label (toLowerCase s) = None /\
        field (UploadRoute.json r) "message" = JStr ("Unsupported file type: " ++ s))).
Proof.
  apply (upload_answers_200_or_400 App.process stock_request stock_upload w0).
  - reflexivity.
  - reflexivity.
  - left. reflexivity.
  - exact stock_keeps_contract.
Defined.

Lemma upload_removes_the_stored_file_witness :
  exists r w',
    UploadRoute.post_file App.process mislabelled_request w0
    = (Ok (UploadRoute.Replied r), w') /\
    UploadRoute.cleanup stock_upload = ["uploads/file-1"] /\
    ((UploadRoute.status r = 200 /\
      UploadRoute.unlinked r = UploadRoute.cleanup stock_upload) \/
     (UploadRoute.status r = 500 /\
      UploadRoute.unlinked r = UploadRoute.cleanup stock_upload) \/
     (UploadRoute.status r = 400 /\ UploadRoute.unlinked r = [] /\
      truthy (field (UploadRoute.req_body mislabelled_request) "fileType") = true)).
Proof.
  eexists _, _. split; [vm_compute; reflexivity|]. split; [reflexivity|].
  apply (upload_removes_the_stored_file App.process mislabelled_request stock_upload w0 w0).
  - reflexivity.
  - vm_compute. reflexivity.
Defined.

Lemma upload_reports_a_failed_processor_witness :
  exists r w' log summary,
    UploadRoute.post_file App.process orphan_request w0
    = (Ok (UploadRoute.Replied r), w') /\
    UploadRoute.status r = 200 /\
    field (UploadRoute.json r) "success" = JBool false /\
    field (UploadRoute.json r) "message" = JStr "File processing completed with errors" /\
    field (UploadRoute.json r) "errors" = JArr [no_data_extracted] /\
    field (UploadRoute.json r) "summary" = JObj summary /\
    field summary "totalRecords" = JNum 1 /\
    field summary "successfulInserts" = JNum 0 /\
    field summary "failedRecords"
    = JNum (if UploadRoute.ErrorLog_insertMany [JObj log] then 1 else 0) /\
    field log "errorType" = JStr "processing_error" /\
    field log "errorMessage"
    = or_else (JStr "PDF processing failed: No file data provided")
              (JStr "Unknown error occurred").
Proof.
  apply (upload_reports_a_failed_processor App.process orphan_request orphan_pdf
           (Proc pdfProcessor)
           (mkError PlainError "PDF processing failed: No file data provided")
           w0 (later 2 w0)).
  - reflexivity.
  - reflexivity.
  - discriminate.
  - reflexivity.
Defined.

Lemma upload_error_logs_miss_the_enum_witness :
  exists log w' t,
    UploadRoute.error_log stock_upload stock_request [ ("processor", JStr "excel") ]
                          empty_row_entry w0
    = (Ok log, w') /\
    field (own_props log) "errorType" = JStr t /\
    ~ In t UploadRoute.errorType_enum /\
    field (own_props log) "errorMessage" = JStr "Unknown error occurred".
Proof.
  eexists _, _.
  match goal with
  | |- exists t, ?run /\ _ => assert (Hrun : run) by (vm_compute; reflexivity)
  end.
  destruct (proj1 upload_error_logs_miss_the_enum _ _ _ _ _ _ _ Hrun) as (t & Ht & Hn).
  - right. left. reflexivity.
  - exists t. split; [exact Hrun|]. split; [exact Ht|]. split; [exact Hn|]. reflexivity.
Defined.


Lemma download_file_shape_witness :
  [JObj stock_record] <> [] /\
  exists extension,
    In (toLowerCase "JSON", extension, "application/json")
       [ ("csv", ".csv", "text/csv");
         ("excel", ".xlsx",
          "application/vnd.openxmlformats-officedocument.spreadsheetml.sheet");
         ("json", ".json", "application/json") ] /\
    DownloadRoute.attachment "errors_export.json"
    = DownloadRoute.attachment ("errors_export" ++ extension).
Proof.
  apply (download_file_shape
           false "Error Logs" "No error logs found matching the criteria"
           "Failed to download error logs" "JSON" "errors_export" [JObj stock_record]
           (DownloadRoute.attachment "errors_export.json") "application/json"
           (Exporter.JSON_stringify true (JArr [JObj stock_record]))).
  vm_compute. reflexivity.
Defined.

End FurtherExamples.
